(** * Money tracker: the transaction route and the aggregation views

    A shallow embedding of
      - src/types/transaction.ts            (the [Transaction] record),
      - src/app/api/transactions/route.ts   (POST and DELETE, [Module Route]),
      - src/app/page.tsx                    (balance and month grouping,
                                             [Module Home]),
      - src/app/data-tools/page.tsx         (filter, sort, insights, export,
                                             [Module DataTools]),
      - the earlier data-tools page, which has the runway figure
                                             ([Module DataToolsV1]),
    followed by the properties proved of them.

    Conventions of the embedding.
      - A JavaScript number that the code adds, subtracts or compares is an
        exact rational ([Q]); the values a division, [parseFloat] or
        [Math.round] can produce live in [number], which adds [NaN] and the
        two infinities. Binary rounding of doubles and the sign of zero are
        not represented.
      - Strings are byte strings; [toLowerCase], [parseFloat], [parseInt]
        and the comparisons act on the ASCII range.
      - A date string is read as the language specifies the form
        [YYYY-MM-DD]; a string of another form, or one that names no day of
        the calendar, is an invalid date ([NaN]).
      - The clock ([new Date()]) is read once per computation and passed in
        as a [Clock]; the host time zone is a fixed offset from UTC.
      - [Array.prototype.sort] is the stable sort the language guarantees,
        written as a stable insertion sort; for a consistent comparator any
        stable sort returns the same list.
      - The database client is not part of the repository: a statement has
        the effect SQL gives it, unless the client throws, which the world
        decides ([db_error]). *)

From Stdlib Require Import ZArith QArith Qround List String Ascii Bool.
From Stdlib Require Import DecimalString DecimalZ Lia Lqa Permutation Sorted.
Import ListNotations.

Local Open Scope string_scope.
Local Open Scope Z_scope.

(* ===================================================================== *)
(** * Platform: numbers *)
(* ===================================================================== *)

(** A JavaScript number. *)
Inductive number : Type :=
| NaN
| Fin (q : Q)
| PosInf
| NegInf.

Definition num_neg (a : number) : number :=
  match a with
  | NaN => NaN
  | Fin q => Fin (- q)
  | PosInf => NegInf
  | NegInf => PosInf
  end.

(** [a - b] *)
Definition num_sub (a b : number) : number :=
  match a, b with
  | NaN, _ | _, NaN => NaN
  | Fin x, Fin y => Fin (x - y)
  | PosInf, PosInf | NegInf, NegInf => NaN
  | PosInf, _ | _, NegInf => PosInf
  | NegInf, _ | _, PosInf => NegInf
  end.

(** [a / b] *)
Definition num_div (a b : number) : number :=
  match a, b with
  | NaN, _ | _, NaN => NaN
  | Fin x, Fin y =>
      match (y ?= 0)%Q with
      | Eq => match (x ?= 0)%Q with Eq => NaN | Gt => PosInf | Lt => NegInf end
      | _ => Fin (x / y)
      end
  | Fin _, _ => Fin 0
  | PosInf, Fin y => if Qle_bool 0 y then PosInf else NegInf
  | NegInf, Fin y => if Qle_bool 0 y then NegInf else PosInf
  | _, _ => NaN
  end.

(** [a * b] *)
Definition num_mul (a b : number) : number :=
  match a, b with
  | NaN, _ | _, NaN => NaN
  | Fin x, Fin y => Fin (x * y)
  | Fin x, PosInf | PosInf, Fin x =>
      match (x ?= 0)%Q with Eq => NaN | Gt => PosInf | Lt => NegInf end
  | Fin x, NegInf | NegInf, Fin x =>
      match (x ?= 0)%Q with Eq => NaN | Gt => NegInf | Lt => PosInf end
  | PosInf, PosInf | NegInf, NegInf => PosInf
  | _, _ => NegInf
  end.

(** [a > 0] *)
Definition num_gt0 (a : number) : bool :=
  match a with
  | Fin q => match (q ?= 0)%Q with Gt => true | _ => false end
  | PosInf => true
  | _ => false
  end.

(** [a <= 0] *)
Definition num_le0 (a : number) : bool :=
  match a with
  | Fin q => match (q ?= 0)%Q with Gt => false | _ => true end
  | NegInf => true
  | _ => false
  end.

Definition isNaN (a : number) : bool :=
  match a with NaN => true | _ => false end.

(** [x >= b] and [x <= b] for a finite [x] *)
Definition ge_num (x : Q) (b : number) : bool :=
  match b with
  | NaN => false
  | Fin q => Qle_bool q x
  | PosInf => false
  | NegInf => true
  end.

Definition le_num (x : Q) (b : number) : bool :=
  match b with
  | NaN => false
  | Fin q => Qle_bool x q
  | PosInf => true
  | NegInf => false
  end.

(** [Math.floor] *)
Definition Math_floor (a : number) : number :=
  match a with
  | Fin q => Fin (inject_Z (Qfloor q))
  | _ => a
  end.

(** [Math.round]: the nearest integer, halves going up. *)
Definition Math_round (a : number) : number :=
  match a with
  | Fin q => Fin (inject_Z (Qfloor (q + (1 # 2))))
  | _ => a
  end.

(** The sign a comparator result has for [Array.prototype.sort]; [NaN]
    counts as [+0]. *)
Definition sgn (v : number) : comparison :=
  match v with
  | NaN => Eq
  | Fin q => (q ?= 0)%Q
  | PosInf => Gt
  | NegInf => Lt
  end.

(* ===================================================================== *)
(** * Platform: arrays *)
(* ===================================================================== *)

Section ArraySort.
Context {A : Type}.
Variable comparefn : A -> A -> number.

(** [x] goes in front of the first element it does not exceed. *)
Fixpoint sort_insert (x : A) (l : list A) : list A :=
  match l with
  | [] => [x]
  | y :: l' =>
      match sgn (comparefn x y) with
      | Gt => y :: sort_insert x l'
      | _ => x :: l
      end
  end.

(** [arr.sort(comparefn)] *)
Definition Array_sort (l : list A) : list A :=
  fold_right sort_insert [] l.
End ArraySort.

(* ===================================================================== *)
(** * Platform: strings *)
(* ===================================================================== *)

Definition digit_of (c : ascii) : option Z :=
  let n := Z.of_nat (nat_of_ascii c) in
  if (48 <=? n) && (n <=? 57) then Some (n - 48) else None.

Definition hex_digit_of (c : ascii) : option Z :=
  let n := Z.of_nat (nat_of_ascii c) in
  if (48 <=? n) && (n <=? 57) then Some (n - 48)
  else if (97 <=? n) && (n <=? 102) then Some (n - 87)
  else if (65 <=? n) && (n <=? 70) then Some (n - 55)
  else None.

Definition is_ws (c : ascii) : bool :=
  let n := nat_of_ascii c in
  (Nat.eqb n 32 || ((Nat.leb 9 n) && (Nat.leb n 13)))%bool.

Fixpoint skip_ws (s : string) : string :=
  match s with
  | String c r => if is_ws c then skip_ws r else s
  | EmptyString => s
  end.

(** An optional sign: [true] for ["-"]. *)
Definition read_sign (s : string) : bool * string :=
  match s with
  | String "-" r => (true, r)
  | String "+" r => (false, r)
  | _ => (false, s)
  end.

(** The longest run of digits in the given radix: its value, its length,
    and the rest of the string. *)
Fixpoint read_digits (dig : ascii -> option Z) (radix : Z) (s : string)
    (acc : Z) (n : nat) : Z * nat * string :=
  match s with
  | String c r =>
      match dig c with
      | Some d => read_digits dig radix r (radix * acc + d) (S n)
      | None => (acc, n, s)
      end
  | EmptyString => (acc, n, s)
  end.

Definition pow10 (e : Z) : Q :=
  if 0 <=? e then inject_Z (10 ^ e) else / inject_Z (10 ^ (- e)).

(** [parseFloat(s)] on a string: the longest decimal-literal prefix after
    leading white space, [NaN] when there is none. *)
Definition parseFloat_string (s : string) : number :=
  let s0 := skip_ws s in
  let '(neg, s1) := read_sign s0 in
  if prefix "Infinity" s1 then (if neg then NegInf else PosInf) else
  let '(ip, ni, s2) := read_digits digit_of 10 s1 0 0%nat in
  let '(fp, nf, s3) :=
    match s2 with
    | String "." r => read_digits digit_of 10 r 0 0%nat
    | _ => (0, 0%nat, s2)
    end in
  if Nat.eqb (ni + nf) 0 then NaN else
  let e :=
    match s3 with
    | String c r =>
        if (Ascii.eqb c "e" || Ascii.eqb c "E")%bool then
          let '(eneg, r1) := read_sign r in
          let '(ev, ne, _) := read_digits digit_of 10 r1 0 0%nat in
          if Nat.eqb ne 0 then 0 else if eneg then - ev else ev
        else 0
    | EmptyString => 0
    end in
  let mant := (inject_Z ip + inject_Z fp / inject_Z (10 ^ Z.of_nat nf))%Q in
  let v := (mant * pow10 e)%Q in
  Fin (if neg then (- v)%Q else v).

(** [parseInt(s)] with no radix: decimal, or hexadecimal after [0x];
    [None] is [NaN]. *)
Definition parseInt (s : string) : option Z :=
  let s0 := skip_ws s in
  let '(neg, s1) := read_sign s0 in
  let '(v, n, _) :=
    match s1 with
    | String "0" (String x r) =>
        if (Ascii.eqb x "x" || Ascii.eqb x "X")%bool
        then read_digits hex_digit_of 16 r 0 0%nat
        else read_digits digit_of 10 s1 0 0%nat
    | _ => read_digits digit_of 10 s1 0 0%nat
    end in
  if Nat.eqb n 0 then None else Some (if neg then - v else v).

(** [s.toLowerCase()] *)
Definition lower_ascii (c : ascii) : ascii :=
  let n := nat_of_ascii c in
  if (Nat.leb 65 n && Nat.leb n 90)%bool then ascii_of_nat (n + 32) else c.

Fixpoint toLowerCase (s : string) : string :=
  match s with
  | String c r => String (lower_ascii c) (toLowerCase r)
  | EmptyString => EmptyString
  end.

(** [s.includes(q)] *)
Fixpoint includes (s q : string) : bool :=
  (prefix q s ||
   match s with
   | String _ r => includes r q
   | EmptyString => false
   end)%bool.

(** The double-quote character (code 34). *)
Definition dquote : ascii := Eval cbv in ascii_of_nat 34.

(** [s.replace(/Q/g, QQ)] where Q is the double-quote character: every
    double quote is doubled. *)
Fixpoint double_quotes (s : string) : string :=
  match s with
  | String c r =>
      if Ascii.eqb c dquote
      then String dquote (String dquote (double_quotes r))
      else String c (double_quotes r)
  | EmptyString => EmptyString
  end.

(** [parts.join(sep)] *)
Definition join (sep : string) (parts : list string) : string :=
  String.concat sep parts.

(** Truthiness of a string. *)
Definition truthy (s : string) : bool :=
  match s with EmptyString => false | _ => true end.

(** [a.localeCompare(b)], on lower-case ASCII words: the lexical order. *)
Definition localeCompare (a b : string) : number :=
  match String.compare a b with
  | Lt => Fin (-1)
  | Eq => Fin 0
  | Gt => Fin 1
  end.

(** [String(n)] for an integer. *)
Definition string_of_Z (n : Z) : string :=
  DecimalString.NilZero.string_of_int (Z.to_int n).

(* ===================================================================== *)
(** * Platform: dates *)
(* ===================================================================== *)

Definition msPerDay : Z := 86400000.

(** [MakeDay(year, month, date)]: the number of days from 1 January 1970 to
    the day given by a year, a month (1 to 12) and a day of the month; the
    day of the month may lie outside the month, as [setDate] allows. *)
Definition MakeDay (y m d : Z) : Z :=
  let y' := if m <=? 2 then y - 1 else y in
  let mp := (m + 9) mod 12 in
  365 * y' + y' / 4 - y' / 100 + y' / 400 + (153 * mp + 2) / 5 + d - 1 - 719468.

(** The year, month (1 to 12) and day of the month of a day number. *)
Definition civil (z : Z) : Z * Z * Z :=
  let z' := z + 719468 in
  let era := z' / 146097 in
  let doe := z' mod 146097 in
  let yoe := (doe - doe / 1460 + doe / 36524 - doe / 146096) / 365 in
  let doy := doe - (365 * yoe + yoe / 4 - yoe / 100) in
  let mp := (5 * doy + 2) / 153 in
  let d := doy - (153 * mp + 2) / 5 + 1 in
  let m := if mp <? 10 then mp + 3 else mp - 9 in
  (yoe + era * 400 + (if m <=? 2 then 1 else 0), m, d).

Definition leap_year (y : Z) : bool :=
  (y mod 4 =? 0) && (negb (y mod 100 =? 0) || (y mod 400 =? 0)).

Definition days_in_month (y m : Z) : Z :=
  if m =? 2 then (if leap_year y then 29 else 28)
  else if (m =? 4) || (m =? 6) || (m =? 9) || (m =? 11) then 30
  else 31.

(** The calendar day a date string [YYYY-MM-DD] names; [None] when the
    string has another shape or names no day of the calendar. *)
Definition parse_ymd (s : string) : option (Z * Z * Z) :=
  match s with
  | String y1 (String y2 (String y3 (String y4 (String c1
      (String m1 (String m2 (String c2
        (String d1 (String d2 EmptyString))))))))) =>
      match digit_of y1, digit_of y2, digit_of y3, digit_of y4,
            digit_of m1, digit_of m2, digit_of d1, digit_of d2 with
      | Some a, Some b, Some c, Some e, Some f, Some g, Some h, Some i =>
          let y := 1000 * a + 100 * b + 10 * c + e in
          let m := 10 * f + g in
          let d := 10 * h + i in
          if Ascii.eqb c1 "-" && Ascii.eqb c2 "-"
             && (1 <=? m) && (m <=? 12)
             && (1 <=? d) && (d <=? days_in_month y m)
          then Some (y, m, d)
          else None
      | _, _, _, _, _, _, _, _ => None
      end
  | _ => None
  end.

(** [new Date(s).getTime()] for a date-only string: midnight UTC of that
    day in milliseconds, [NaN] for an invalid date. *)
Definition Date_getTime (s : string) : number :=
  match parse_ymd s with
  | Some (y, m, d) => Fin (inject_Z (MakeDay y m d * msPerDay))
  | None => NaN
  end.

(** [new Date(s + "T00:00:00")] is local midnight of the day [s] names, so
    its local fields are the ones written in [s], whatever the time zone:
    [getFullYear()] and [getMonth()] (0 to 11); [None] is [NaN]. *)
Definition local_getFullYear (s : string) : option Z :=
  match parse_ymd s with Some (y, _, _) => Some y | None => None end.

Definition local_getMonth (s : string) : option Z :=
  match parse_ymd s with Some (_, m, _) => Some (m - 1) | None => None end.

Definition month_name (m : Z) : string :=
  nth (Z.to_nat (m - 1))
    ["January"; "February"; "March"; "April"; "May"; "June"; "July";
     "August"; "September"; "October"; "November"; "December"] "".

(** [date.toLocaleDateString("en-GB", { month: "long", year: "numeric" })]
    for [date = new Date(s + "T00:00:00")]. *)
Definition toLocaleDateString_month_year (s : string) : string :=
  match parse_ymd s with
  | Some (y, m, _) => month_name m ++ " " ++ string_of_Z y
  | None => "Invalid Date"
  end.

(** The clock: the instant [new Date()] returns, and the offset of local
    time from UTC, both in milliseconds. *)
Record Clock : Type := mkClock { epoch_ms : Z; tz_ms : Z }.

Definition local_ms (now : Clock) : Z := epoch_ms now + tz_ms now.

Definition getFullYear (now : Clock) : Z :=
  let '(y, _, _) := civil (local_ms now / msPerDay) in y.

Definition getMonth (now : Clock) : Z :=
  let '(_, m, _) := civil (local_ms now / msPerDay) in m - 1.

Definition getDate (now : Clock) : Z :=
  let '(_, _, d) := civil (local_ms now / msPerDay) in d.

(** [d.setDate(n)]: the local year, month and time of day stay, the day of
    the month becomes [n]. *)
Definition setDate (d : Clock) (n : Z) : Clock :=
  let '(y, m, _) := civil (local_ms d / msPerDay) in
  let time_in_day := local_ms d mod msPerDay in
  {| epoch_ms := MakeDay y m n * msPerDay + time_in_day - tz_ms d;
     tz_ms := tz_ms d |}.

Definition digit_char (n : Z) : ascii := ascii_of_nat (48 + Z.to_nat n).

Definition pad2 (n : Z) : string :=
  String (digit_char (n / 10)) (String (digit_char (n mod 10)) "").

Definition pad4 (n : Z) : string :=
  String (digit_char (n / 1000)) (String (digit_char (n / 100 mod 10))
    (pad2 (n mod 100))).

(** The year of an ISO string: four digits, or a sign and six digits
    outside 0..9999. *)
Definition iso_year (y : Z) : string :=
  if (0 <=? y) && (y <=? 9999) then pad4 y
  else (if y <? 0 then "-" else "+")
         ++ pad2 (Z.abs y / 10000) ++ pad4 (Z.abs y mod 10000).

(** [d.toISOString().split('T')[0]]: the UTC day of the instant. *)
Definition toISOString_date (d : Clock) : string :=
  let '(y, m, dd) := civil (epoch_ms d / msPerDay) in
  iso_year y ++ "-" ++ pad2 m ++ "-" ++ pad2 dd.

(* ===================================================================== *)
(** * src/types/transaction.ts *)
(* ===================================================================== *)

(** ["income" | "expense" | "saved"] *)
Inductive TxType : Type := income | expense | saved.

Definition type_string (ty : TxType) : string :=
  match ty with
  | income => "income"
  | expense => "expense"
  | saved => "saved"
  end.

Definition TxType_eqb (a b : TxType) : bool :=
  match a, b with
  | income, income | expense, expense | saved, saved => true
  | _, _ => false
  end.

Record Transaction : Type := mkTransaction {
  id : Z;
  date : string;
  amount : Q;
  type : TxType;
  reason : string;
  description : string;
  created_at : string
}.

(** [ts.filter(t => t.type === ty)] *)
Definition of_type (ty : TxType) (ts : list Transaction) : list Transaction :=
  filter (fun t => TxType_eqb (type t) ty) ts.

(** [ts.reduce((s, t) => s + t.amount, 0)] *)
Definition sum_amount (ts : list Transaction) : Q :=
  fold_left (fun s t => (s + amount t)%Q) ts 0%Q.

(** [t => { const d = new Date(t.date + "T00:00:00");
            return d.getMonth() === now.getMonth()
                && d.getFullYear() === now.getFullYear(); }] *)
Definition in_current_month (now : Clock) (t : Transaction) : bool :=
  match local_getMonth (date t), local_getFullYear (date t) with
  | Some m, Some y => (m =? getMonth now) && (y =? getFullYear now)
  | _, _ => false
  end.

(* ===================================================================== *)
(** * src/app/api/transactions/route.ts *)
(* ===================================================================== *)

Module Route.

(** A field of the parsed request body: absent, or a JSON scalar. *)
Inductive jsval : Type :=
| JUndefined
| JNull
| JBool (b : bool)
| JNum (q : Q)
| JStr (s : string).

(** [!v] *)
Definition falsy (v : jsval) : bool :=
  match v with
  | JUndefined | JNull => true
  | JBool b => negb b
  | JNum q => Qeq_bool q 0
  | JStr s => negb (truthy s)
  end.

(** [v === undefined] *)
Definition is_undefined (v : jsval) : bool :=
  match v with JUndefined => true | _ => false end.

(** [parseFloat(v)]: the argument is first turned into a string. *)
Definition parseFloat (v : jsval) : number :=
  match v with
  | JStr s => parseFloat_string s
  | JNum q => Fin q
  | _ => NaN
  end.

(** [v ?? ""] *)
Definition or_empty (v : jsval) : jsval :=
  match v with
  | JUndefined | JNull => JStr ""
  | _ => v
  end.

(** [list.includes(v)] for a list of strings. *)
Definition includes_val (l : list string) (v : jsval) : bool :=
  match v with
  | JStr s => existsb (String.eqb s) l
  | _ => false
  end.

(** [const { date, amount, type, reason, description } = body] *)
Record Body : Type := mkBody {
  date : jsval;
  amount : jsval;
  type : jsval;
  reason : jsval;
  description : jsval
}.

(** A row of the table [transactions]. *)
Record Row : Type := mkRow {
  row_id : Z;
  row_date : jsval;
  row_amount : number;
  row_type : jsval;
  row_reason : jsval;
  row_description : jsval;
  row_created_at : string
}.

(** The statements the route sends. [Delete None] binds [NaN]. *)
Inductive Statement : Type :=
| CreateTable
| Insert (d : jsval) (a : number) (ty : jsval) (r : jsval) (desc : jsval)
| Delete (i : option Z).

Record ResultSet : Type := mkResultSet { lastInsertRowid : Z }.

(** The module variable [initialized], the table, the AUTOINCREMENT
    counter, the value of [datetime('now')], and what the database client
    throws for a statement, if it throws (connection, authorisation, an
    argument it refuses). *)
Record World : Type := mkWorld {
  initialized : bool;
  rows : list Row;
  last_id : Z;
  db_now : string;
  db_error : Statement -> option string
}.

Definition set_initialized (w : World) : World :=
  {| initialized := true; rows := rows w; last_id := last_id w;
     db_now := db_now w; db_error := db_error w |}.

Definition set_table (w : World) (rs : list Row) (n : Z) : World :=
  {| initialized := initialized w; rows := rs; last_id := n;
     db_now := db_now w; db_error := db_error w |}.

(** A computation that reads and writes the world and may throw
    [Error(message)]. *)
Definition M (A : Type) : Type := World -> World * (string + A).

Definition ret {A : Type} (a : A) : M A := fun w => (w, inr a).

Definition bind {A B : Type} (m : M A) (k : A -> M B) : M B :=
  fun w =>
    match m w with
    | (w', inl e) => (w', inl e)
    | (w', inr a) => k a w'
    end.

Notation "x <- m ;; k" := (bind m (fun x => k))
  (at level 61, m at next level, right associativity).

(** [try { body } catch (error) { handler(error.message) }] *)
Definition try_catch {A : Type} (body : M A) (handler : string -> M A)
  : M A :=
  fun w =>
    match body w with
    | (w', inl e) => handler e w'
    | (w', inr a) => (w', inr a)
    end.

(** The CHECK constraint of the column [type]. *)
Definition type_check (ty : jsval) : bool :=
  includes_val ["income"; "expense"; "saved"] ty.

(** [id = ?] with the bound value; [NaN] is stored as NULL and equals no
    id. *)
Definition id_matches (i : option Z) (r : Row) : bool :=
  match i with
  | Some n => row_id r =? n
  | None => false
  end.

(** [await db.execute(statement)] *)
Definition db_execute (st : Statement) : M ResultSet :=
  fun w =>
    match db_error w st with
    | Some message => (w, inl message)
    | None =>
        match st with
        | CreateTable => (w, inr (mkResultSet (last_id w)))
        | Insert d a ty r desc =>
            if type_check ty then
              let n := last_id w + 1 in
              (set_table w
                 (rows w ++ [mkRow n d a ty r desc (db_now w)])%list n,
               inr (mkResultSet n))
            else (w, inl "CHECK constraint failed")
        | Delete i =>
            (set_table w
               (filter (fun r => negb (id_matches i r)) (rows w))
               (last_id w),
             inr (mkResultSet (last_id w)))
        end
    end.

(** [initDb] *)
Definition initDb : M unit :=
  _ <- db_execute CreateTable ;; ret tt.

(** [ensureInit] *)
Definition ensureInit : M unit :=
  fun w =>
    if negb (initialized w)
    then (_ <- initDb ;; (fun w' => (set_initialized w', inr tt))) w
    else (w, inr tt).

Inductive Payload : Type :=
| ErrorBody (error : string)
| MessageBody (message : string)
| CreatedBody (new_id : Z) (message : string).

(** [NextResponse.json(payload, { status })] *)
Record Response : Type := mkResponse { payload : Payload; status : Z }.

(** What an async handler that always catches resolves to. *)
Definition run (m : M Response) (w : World) : World * Response :=
  match m w with
  | (w', inr r) => (w', r)
  | (w', inl e) => (w', mkResponse (ErrorBody e) 500)
  end.

(** [POST], on the parsed body of the request. *)
Definition POST (body : Body) : World -> World * Response :=
  run (try_catch
    (_ <- ensureInit ;;
     if falsy (date body) || is_undefined (amount body)
        || falsy (type body) || falsy (reason body)
     then ret (mkResponse
            (ErrorBody "Missing required fields: date, amount, type, reason")
            400)
     else
       let parsedAmount := parseFloat (amount body) in
       if isNaN parsedAmount || num_le0 parsedAmount
       then ret (mkResponse (ErrorBody "Amount must be a positive number")
                   400)
       else if negb (includes_val ["income"; "expense"] (type body))
       then ret (mkResponse (ErrorBody "Type must be 'income' or 'expense'")
                   400)
       else
         result <- db_execute
                     (Insert (date body) parsedAmount (type body)
                        (reason body) (or_empty (description body))) ;;
         ret (mkResponse
                (CreatedBody (lastInsertRowid result) "Transaction added")
                201))
    (fun message => ret (mkResponse (ErrorBody message) 500))).

(** [DELETE], on [searchParams.get("id")]. *)
Definition DELETE (id : option string) : World -> World * Response :=
  run (try_catch
    (_ <- ensureInit ;;
     match id with
     | Some s =>
         if negb (truthy s)
         then ret (mkResponse (ErrorBody "Transaction ID is required") 400)
         else
           _ <- db_execute (Delete (parseInt s)) ;;
           ret (mkResponse (MessageBody "Transaction deleted") 200)
     | None => ret (mkResponse (ErrorBody "Transaction ID is required") 400)
     end)
    (fun message => ret (mkResponse (ErrorBody message) 500))).

End Route.

(* ===================================================================== *)
(** * Platform: further string functions, objects used as maps *)
(* ===================================================================== *)

(** [s.padStart(2, "0")] *)
Definition padStart2 (s : string) : string :=
  match s with
  | EmptyString => "00"
  | String c EmptyString => String "0" s
  | _ => s
  end.

(** [s.split(" ")[0]]: the text before the first space. *)
Fixpoint first_word (s : string) : string :=
  match s with
  | EmptyString => ""
  | String c r => if Ascii.eqb c " " then "" else String c (first_word r)
  end.

(** [s.split(sep)] for a separator of one character. *)
Fixpoint split_on (sep : ascii) (s : string) : list string :=
  match s with
  | EmptyString => [""]
  | String c r =>
      if Ascii.eqb c sep then "" :: split_on sep r
      else
        match split_on sep r with
        | seg :: rest => String c seg :: rest
        | [] => [String c ""]
        end
  end.

(** [s.trimEnd()] and [s.trim()] *)
Fixpoint trimEnd (s : string) : string :=
  match s with
  | EmptyString => ""
  | String c r =>
      match trimEnd r with
      | EmptyString => if is_ws c then "" else String c ""
      | r' => String c r'
      end
  end.

Definition trim (s : string) : string := trimEnd (skip_ws s).

(** An object whose own properties hold numbers, in the order the
    properties were created. *)
Definition NumberMap : Type := list (string * Q).

(** The own property [k], if there is one. *)
Fixpoint own_get (k : string) (o : NumberMap) : option Q :=
  match o with
  | [] => None
  | (k', v) :: rest => if String.eqb k k' then Some v else own_get k rest
  end.

(** [o[k] = v]: the property keeps its place, a new one goes last. *)
Fixpoint own_set (k : string) (v : Q) (o : NumberMap) : NumberMap :=
  match o with
  | [] => [(k, v)]
  | (k', v') :: rest =>
      if String.eqb k k' then (k', v) :: rest
      else (k', v') :: own_set k v rest
  end.

(** The number a key stands for when it is an array index: a decimal
    numeral without leading zero, at most 2^32 - 2. *)
Definition array_index (k : string) : option Z :=
  match k with
  | EmptyString => None
  | String c r =>
      let '(v, _, rest) := read_digits digit_of 10 k 0 0%nat in
      match rest with
      | EmptyString =>
          if (Ascii.eqb c "0" && truthy r) || (4294967294 <? v)
          then None else Some v
      | _ => None
      end
  end.

Definition is_array_index (e : string * Q) : bool :=
  match array_index (fst e) with Some _ => true | None => false end.

Definition index_value (e : string * Q) : Q :=
  match array_index (fst e) with Some n => inject_Z n | None => 0 end.

(** [Object.entries(o)]: the array indices in ascending order, then the
    other keys in the order they were created. *)
Definition Object_entries (o : NumberMap) : list (string * Q) :=
  (Array_sort (fun a b => Fin (index_value a - index_value b))
     (filter is_array_index o)
   ++ filter (fun e => negb (is_array_index e)) o)%list.

(** The lower-case names every object inherits. *)
Definition inherited_name (k : string) : bool :=
  String.eqb k "constructor" || String.eqb k "__proto__".

(** [o[k] = (o[k] || 0) + x]. For an inherited name [o[k]] is not a
    number and the sum is text: [None], the map is then outside this
    model. *)
Definition add_to (k : string) (x : Q) (o : NumberMap) : option NumberMap :=
  if inherited_name k then None
  else
    let current :=
      match own_get k o with
      | Some v => if Qeq_bool v 0 then 0%Q else v
      | None => 0%Q
      end in
    Some (own_set k (current + x)%Q o).

(** [r.ok]: the status of a response is in 200..299. *)
Definition status_ok (status : Z) : bool :=
  (200 <=? status) && (status <=? 299).

(* ===================================================================== *)
(** * src/types/transaction.ts: the form *)
(* ===================================================================== *)

(** [TransactionFormData] *)
Module FormData.
Record t : Type := mk {
  date : string;
  amount : string;
  type : TxType;
  reason : string;
  description : string
}.
End FormData.

(* ===================================================================== *)
(** * src/app/page.tsx *)
(* ===================================================================== *)

Module Home.

Definition getMonthYear (dateStr : string) : string :=
  toLocaleDateString_month_year dateStr.

Definition totalIncome (transactions : list Transaction) : Q :=
  sum_amount (of_type income transactions).

Definition totalExpense (transactions : list Transaction) : Q :=
  sum_amount (of_type expense transactions).

Definition totalSaved (transactions : list Transaction) : Q :=
  sum_amount (of_type saved transactions).

Definition balanceLiquid (transactions : list Transaction) : Q :=
  (totalIncome transactions - totalExpense transactions
   - totalSaved transactions)%Q.

(** [{ transactions: Transaction[], total: number }] *)
Record Group : Type := mkGroup {
  transactions : list Transaction;
  total : Q
}.

(** The object [groups]: its keys are month labels, which enumerate in
    the order they were first assigned. *)
Definition Groups : Type := list (string * Group).

Fixpoint has_key (k : string) (groups : Groups) : bool :=
  match groups with
  | [] => false
  | (k', _) :: rest => String.eqb k k' || has_key k rest
  end.

(** [groups[k] = f(groups[k])] for a key that is present. *)
Fixpoint update (k : string) (f : Group -> Group) (groups : Groups)
  : Groups :=
  match groups with
  | [] => []
  | (k', g) :: rest =>
      if String.eqb k k' then (k', f g) :: rest
      else (k', g) :: update k f rest
  end.

(** The body of [transactions.forEach(t => ...)]. *)
Definition add_transaction (groups : Groups) (t : Transaction) : Groups :=
  let monthYear := getMonthYear (date t) in
  let groups1 :=
    if negb (has_key monthYear groups)
    then (groups ++ [(monthYear, mkGroup [] 0)])%list
    else groups in
  update monthYear
    (fun g =>
       mkGroup (transactions g ++ [t])%list
         (total g
          + (if TxType_eqb (type t) income then amount t else - amount t))%Q)
    groups1.

(** [groups] once the loop has run. *)
Definition group_by_month (ts : list Transaction) : Groups :=
  fold_left add_transaction ts [].

(** [new Date(e[1].transactions[0].date).getTime()] *)
Definition first_time (e : string * Group) : number :=
  match transactions (snd e) with
  | t :: _ => Date_getTime (date t)
  | [] => NaN
  end.

(** [groupedTransactions] *)
Definition groupedTransactions (ts : list Transaction)
    (showAllMonths : bool) (now : Clock) : Groups :=
  let currentMonthKey := getMonthYear (toISOString_date now) in
  let entries :=
    Array_sort (fun a b => num_sub (first_time b) (first_time a))
      (group_by_month ts) in
  if negb showAllMonths
  then filter (fun e => String.eqb (fst e) currentMonthKey) entries
  else entries.

(** [getDay] *)
Definition getDay (dateStr : string) : string :=
  match parse_ymd dateStr with
  | Some (_, _, d) => padStart2 (string_of_Z d)
  | None => padStart2 "NaN"
  end.

(** [INITIAL_FORM], with the clock read when the module is loaded. *)
Definition INITIAL_FORM (now : Clock) : FormData.t :=
  FormData.mk (toISOString_date now) "" expense "" "".

(** [monthlyFlow], [monthlyIncome] and [monthlyExpense] *)
Definition monthlyFlow (ts : list Transaction) (now : Clock)
  : list Transaction :=
  filter (in_current_month now) ts.

Definition monthlyIncome (ts : list Transaction) (now : Clock) : Q :=
  sum_amount (of_type income (monthlyFlow ts now)).

Definition monthlyExpense (ts : list Transaction) (now : Clock) : Q :=
  sum_amount
    (filter (fun t => TxType_eqb (type t) expense
                      || TxType_eqb (type t) saved)
       (monthlyFlow ts now)).

(** [currentMonthKey] *)
Definition currentMonthKey (now : Clock) : string :=
  getMonthYear (toISOString_date now).

(** The body the route parses from [JSON.stringify(form)]. *)
Definition form_body (form : FormData.t) : Route.Body :=
  Route.mkBody (Route.JStr (FormData.date form))
    (Route.JStr (FormData.amount form))
    (Route.JStr (type_string (FormData.type form)))
    (Route.JStr (FormData.reason form))
    (Route.JStr (FormData.description form)).

(** [data.error ?? fallback] *)
Definition error_of (p : Route.Payload) (fallback : string) : string :=
  match p with
  | Route.ErrorBody e => e
  | _ => fallback
  end.

(** [handleSubmit], as far as the request and the error it shows:
    [None] when it returns before sending; otherwise the world after the
    request and the message given to [setError], if any. *)
Definition handleSubmit (form : FormData.t) (w : Route.World)
  : option (Route.World * option string) :=
  if negb (truthy (FormData.date form))
     || negb (truthy (FormData.amount form))
     || negb (truthy (FormData.reason form))
  then None
  else
    let '(w', res) := Route.POST (form_body form) w in
    Some (w',
          if negb (status_ok (Route.status res))
          then Some (error_of (Route.payload res)
                       "Failed to add transaction")
          else None).

(** [handleDelete], once the user has confirmed: the world after the
    request and the message given to [setError], if any. The id is an
    integer of the table, which the template string writes in decimal. *)
Definition handleDelete (id : Z) (w : Route.World)
  : Route.World * option string :=
  let '(w', res) := Route.DELETE (Some (string_of_Z id)) w in
  (w', if negb (status_ok (Route.status res))
       then Some "Failed to delete" else None).

End Home.

(* ===================================================================== *)
(** * src/app/data-tools/page.tsx *)
(* ===================================================================== *)

Module DataTools.

(** ["date" | "amount" | "type"] *)
Inductive SortField : Type := by_date | by_amount | by_type.

(** ["asc" | "desc"] *)
Inductive SortOrder : Type := asc | desc.

(** The filter state of the component. *)
Record FilterState : Type := mkFilterState {
  sortField : SortField;
  sortOrder : SortOrder;
  showAllMonths : bool;
  searchQuery : string;
  startDate : string;
  endDate : string;
  minAmount : string;
  maxAmount : string;
  typeFilter : string
}.

Definition comparison (f : SortField) (a b : Transaction) : number :=
  match f with
  | by_date => num_sub (Date_getTime (date a)) (Date_getTime (date b))
  | by_amount => Fin (amount a - amount b)
  | by_type => localeCompare (type_string (type a)) (type_string (type b))
  end.

(** The function given to [result.sort]. *)
Definition comparefn (f : SortField) (o : SortOrder) (a b : Transaction)
  : number :=
  match o with
  | asc => comparison f a b
  | desc => num_neg (comparison f a b)
  end.

Definition filter_if (c : bool) (p : Transaction -> bool)
    (l : list Transaction) : list Transaction :=
  if c then filter p l else l.

(** Steps 1 to 5 of [filteredTransactions]: the filters. *)
Definition apply_filters (transactions : list Transaction)
    (st : FilterState) (now : Clock) : list Transaction :=
  let result := transactions in
  (* 1. Month Quick Filter *)
  let result :=
    filter_if (negb (showAllMonths st) && negb (truthy (startDate st))
               && negb (truthy (endDate st)))
      (in_current_month now) result in
  (* 2. Date Range *)
  let result :=
    filter_if (truthy (startDate st))
      (fun t => String.leb (startDate st) (date t)) result in
  let result :=
    filter_if (truthy (endDate st))
      (fun t => String.leb (date t) (endDate st)) result in
  (* 3. Amount Range *)
  let result :=
    filter_if (truthy (minAmount st))
      (fun t => ge_num (amount t) (parseFloat_string (minAmount st)))
      result in
  let result :=
    filter_if (truthy (maxAmount st))
      (fun t => le_num (amount t) (parseFloat_string (maxAmount st)))
      result in
  (* 4. Search *)
  let result :=
    filter_if (truthy (searchQuery st))
      (fun t =>
         let query := toLowerCase (searchQuery st) in
         includes (toLowerCase (reason t)) query
         || (truthy (description t)
             && includes (toLowerCase (description t)) query))
      result in
  (* 5. Type *)
  filter_if (negb (String.eqb (typeFilter st) "all"))
    (fun t => String.eqb (type_string (type t)) (typeFilter st))
    result.

(** [filteredTransactions]: the filters, then step 6, the sort. *)
Definition filteredTransactions (transactions : list Transaction)
    (st : FilterState) (now : Clock) : list Transaction :=
  Array_sort (comparefn (sortField st) (sortOrder st))
    (apply_filters transactions st now).

(** One bar of the spark line. *)
Record Day : Type := mkDay { day_date : string; day_amount : Q }.

(** The value of [insights], without [topReasons]. *)
Record Insights : Type := mkInsights {
  liquidBalance : Q;
  totalSaved : Q;
  dailyBurn : number;
  projectedBalance : number;
  savingsRate : number;
  last7Days : list Day;
  incomeRatio : number
}.

(** The callback of [Array.from({ length: 7 }, (_, i) => ...)]. *)
Definition day_entry (transactions : list Transaction) (now : Clock)
    (i : Z) : Day :=
  let d := setDate now (getDate now - i) in
  let dateStr := toISOString_date d in
  let dayTotal :=
    sum_amount
      (filter (fun t => String.eqb (date t) dateStr
                        && TxType_eqb (type t) expense) transactions) in
  mkDay dateStr dayTotal.

(** [insights]; [None] is [null]. *)
Definition insights (transactions filteredTransactions : list Transaction)
    (now : Clock) : option Insights :=
  if Nat.eqb (List.length transactions) 0 then None else
  let daysInMonthSoFar := getDate now in
  let daysInMonth := days_in_month (getFullYear now) (getMonth now + 1) in
  (* Totals (based on filtered set) *)
  let currentSet := filteredTransactions in
  let totalSaved := sum_amount (of_type saved currentSet) in
  let totalIncome := sum_amount (of_type income currentSet) in
  let totalExpense := sum_amount (of_type expense currentSet) in
  let liquidBalance := (totalIncome - totalExpense - totalSaved)%Q in
  (* Burn Rate (based on ALL transactions in current month) *)
  let currentMonthTransactions :=
    filter (in_current_month now) transactions in
  let cmExpenses := sum_amount (of_type expense currentMonthTransactions) in
  let cmIncome := sum_amount (of_type income currentMonthTransactions) in
  let dailyBurn :=
    num_div (Fin cmExpenses) (Fin (inject_Z daysInMonthSoFar)) in
  let projectedExpense := num_mul dailyBurn (Fin (inject_Z daysInMonth)) in
  let projectedBalance :=
    num_sub (num_sub (Fin cmIncome) projectedExpense)
      (Fin (sum_amount (of_type saved currentMonthTransactions))) in
  (* Savings Rate *)
  let savingsRate :=
    if num_gt0 (Fin cmIncome)
    then Math_round
           (num_mul
              (num_div
                 (Fin (sum_amount (of_type saved currentMonthTransactions)))
                 (Fin cmIncome))
              (Fin 100))
    else Fin 0 in
  (* Daily Activity for Sparkline *)
  let last7Days :=
    rev (map (day_entry transactions now) [0; 1; 2; 3; 4; 5; 6]) in
  Some
    {| liquidBalance := liquidBalance;
       totalSaved := totalSaved;
       dailyBurn := dailyBurn;
       projectedBalance := projectedBalance;
       savingsRate := savingsRate;
       last7Days := last7Days;
       incomeRatio :=
         if num_gt0 (Fin cmIncome)
         then num_mul (num_div (Fin cmExpenses) (Fin cmIncome)) (Fin 100)
         else Fin 0 |}.

(** The insights the page shows for a list of transactions, a filter
    state and a clock. *)
Definition page_insights (transactions : list Transaction)
    (st : FilterState) (now : Clock) : option Insights :=
  insights transactions (filteredTransactions transactions st now) now.

Section CsvExport.
(** [String(x)] for a number that need not be an integer. *)
Variable Number_toString : Q -> string.

Definition quoted (s : string) : string :=
  String dquote (double_quotes s ++ String dquote "").

(** [description || ""] *)
Definition or_empty (s : string) : string :=
  if truthy s then s else "".

Definition headers : list string :=
  ["ID"; "Date"; "Amount"; "Type"; "Reason"; "Description"].

(** One line of the file. *)
Definition csv_line (t : Transaction) : string :=
  join ","
    [string_of_Z (id t); date t; Number_toString (amount t);
     type_string (type t); quoted (reason t);
     quoted (or_empty (description t))].

(** [csvContent] in [handleExport]. *)
Definition csvContent (filteredTransactions : list Transaction) : string :=
  join (String (ascii_of_nat 10) "")
    (join "," headers :: map csv_line filteredTransactions).
End CsvExport.

Definition SortField_eqb (a b : SortField) : bool :=
  match a, b with
  | by_date, by_date | by_amount, by_amount | by_type, by_type => true
  | _, _ => false
  end.

(** [handleSort], as a change of the filter state. *)
Definition handleSort (field : SortField) (st : FilterState) : FilterState :=
  if SortField_eqb (sortField st) field
  then mkFilterState (sortField st)
         (match sortOrder st with asc => desc | desc => asc end)
         (showAllMonths st) (searchQuery st) (startDate st) (endDate st)
         (minAmount st) (maxAmount st) (typeFilter st)
  else mkFilterState field desc
         (showAllMonths st) (searchQuery st) (startDate st) (endDate st)
         (minAmount st) (maxAmount st) (typeFilter st).

(** [resetFilters], as a change of the filter state. *)
Definition resetFilters (st : FilterState) : FilterState :=
  mkFilterState (sortField st) (sortOrder st) (showAllMonths st)
    "" "" "" "" "" "all".

(** [t.reason.split(' ')[0].toLowerCase()] *)
Definition reason_key (t : Transaction) : string :=
  toLowerCase (first_word (reason t)).

(** [reasonMap] after the loop over the expenses of the current set. *)
Definition reasonMap (currentSet : list Transaction) : option NumberMap :=
  fold_left
    (fun (o : option NumberMap) t =>
       match o with
       | Some m => add_to (reason_key t) (amount t) m
       | None => None
       end)
    (of_type expense currentSet) (Some []).

(** [topReasons], the field of [insights] left out of [Insights]. *)
Definition topReasons (currentSet : list Transaction)
  : option (list (string * Q)) :=
  match reasonMap currentSet with
  | Some m =>
      Some (firstn 5
              (Array_sort (fun a b => Fin (snd b - snd a))
                 (Object_entries m)))
  | None => None
  end.

(** The heights, in per cent, of the bars of the spark line:
    [max = Math.max(...amounts, 1)], [height = (amount / max) * 100]. *)
Definition spark_max (days : list Day) : Q :=
  fold_right (fun d m => if Qle_bool m (day_amount d) then day_amount d else m)
    1%Q days.

Definition spark_heights (days : list Day) : list number :=
  map (fun d =>
         num_mul (num_div (Fin (day_amount d)) (Fin (spark_max days)))
           (Fin 100))
    days.

End DataTools.

(* ===================================================================== *)
(** * The data-tools page before filters were added (runway) *)
(* ===================================================================== *)

Module DataToolsV1.

(** [number | string] *)
Inductive num_or_string : Type :=
| Num (n : number)
| Str (s : string).

(** The value of [insights], without [topPatterns]. *)
Record Insights : Type := mkInsights {
  runway : num_or_string;
  dailyBurn : number;
  savingsRate : number;
  liquidBalance : Q;
  totalSaved : Q;
  topExpense : option Transaction
}.

(** [insights]; [None] is [null]. *)
Definition insights (transactions : list Transaction) (now : Clock)
  : option Insights :=
  if Nat.eqb (List.length transactions) 0 then None else
  let daysInMonthSoFar := getDate now in
  (* Liquid vs Saved *)
  let totalSaved := sum_amount (of_type saved transactions) in
  let totalIncome := sum_amount (of_type income transactions) in
  let totalExpense := sum_amount (of_type expense transactions) in
  let liquidBalance := (totalIncome - totalExpense - totalSaved)%Q in
  (* Burn Rate (Daily Expense) *)
  let currentMonthExpenses :=
    filter (fun t => in_current_month now t && TxType_eqb (type t) expense)
      transactions in
  let monthlyOutflow := sum_amount currentMonthExpenses in
  let dailyBurn :=
    num_div (Fin monthlyOutflow) (Fin (inject_Z daysInMonthSoFar)) in
  (* Runway *)
  let runway :=
    if num_gt0 dailyBurn
    then Num (Math_floor (num_div (Fin liquidBalance) dailyBurn))
    else Str "∞" in
  (* Savings Rate *)
  let savingsRate :=
    if num_gt0 (Fin totalIncome)
    then Math_round
           (num_mul (num_div (Fin totalSaved) (Fin totalIncome)) (Fin 100))
    else Fin 0 in
  (* Largest Expense *)
  let topExpense :=
    match
      Array_sort (fun a b => Fin (amount b - amount a)) currentMonthExpenses
    with
    | t :: _ => Some t
    | [] => None
    end in
  Some
    {| runway := runway;
       dailyBurn := dailyBurn;
       savingsRate := savingsRate;
       liquidBalance := liquidBalance;
       totalSaved := totalSaved;
       topExpense := topExpense |}.

(** [sortField], [sortOrder] and [showAllMonths] of this page. *)
Record ViewState : Type := mkViewState {
  sortField : DataTools.SortField;
  sortOrder : DataTools.SortOrder;
  showAllMonths : bool
}.

(** The signed amount the sort by amount compares. *)
Definition signed_value (t : Transaction) : Q :=
  if TxType_eqb (type t) income then amount t else (- amount t)%Q.

Definition comparison (f : DataTools.SortField) (a b : Transaction)
  : number :=
  match f with
  | DataTools.by_date =>
      num_sub (Date_getTime (date a)) (Date_getTime (date b))
  | DataTools.by_amount => Fin (signed_value a - signed_value b)
  | DataTools.by_type =>
      localeCompare (type_string (type a)) (type_string (type b))
  end.

(** The function given to [result.sort]. *)
Definition comparefn (f : DataTools.SortField) (o : DataTools.SortOrder)
    (a b : Transaction) : number :=
  match o with
  | DataTools.asc => comparison f a b
  | DataTools.desc => num_neg (comparison f a b)
  end.

(** [sortedAndFilteredTransactions] *)
Definition sortedAndFilteredTransactions (transactions : list Transaction)
    (st : ViewState) (now : Clock) : list Transaction :=
  let result := transactions in
  let result :=
    if negb (showAllMonths st)
    then filter (in_current_month now) result
    else result in
  Array_sort (comparefn (sortField st) (sortOrder st)) result.

(** [handleSort], as a change of the view state. *)
Definition handleSort (field : DataTools.SortField) (st : ViewState)
  : ViewState :=
  if DataTools.SortField_eqb (sortField st) field
  then mkViewState (sortField st)
         (match sortOrder st with
          | DataTools.asc => DataTools.desc
          | DataTools.desc => DataTools.asc
          end)
         (showAllMonths st)
  else mkViewState field DataTools.desc (showAllMonths st).

(** [patterns] after the loop over all expenses. *)
Definition patterns (transactions : list Transaction) : option NumberMap :=
  fold_left
    (fun (o : option NumberMap) t =>
       match o with
       | Some m => add_to (DataTools.reason_key t) 1 m
       | None => None
       end)
    (of_type expense transactions) (Some []).

(** [topPatterns], the field of [insights] left out of [Insights]. *)
Definition topPatterns (transactions : list Transaction)
  : option (list (string * Q)) :=
  match patterns transactions with
  | Some m =>
      Some (firstn 3
              (Array_sort (fun a b => Fin (snd b - snd a))
                 (Object_entries m)))
  | None => None
  end.

End DataToolsV1.


(* ===================================================================== *)
(** * migrate.js: reading .env.local *)
(* ===================================================================== *)

Module Migrate.

(** The object [env]: its own properties, in the order they were
    created. *)
Definition Env : Type := list (string * string).

(** [env[k]] for a name that is not inherited. *)
Fixpoint lookup (k : string) (env : Env) : option string :=
  match env with
  | [] => None
  | (k', v) :: rest => if String.eqb k k' then Some v else lookup k rest
  end.

Fixpoint store (k v : string) (env : Env) : Env :=
  match env with
  | [] => [(k, v)]
  | (k', v') :: rest =>
      if String.eqb k k' then (k', v) :: rest
      else (k', v') :: store k v rest
  end.

(** [env[k] = v] for a string [v]: the setter of [__proto__] ignores a
    value that is not an object. *)
Definition assign (k v : string) (env : Env) : Env :=
  if String.eqb k "__proto__" then env else store k v env.

(** The callback of [forEach]:
    [const [key, value] = line.split("=");
     if (key && value) env[key.trim()] = value.trim();] *)
Definition env_line (env : Env) (line : string) : Env :=
  match split_on "=" line with
  | key :: value :: _ =>
      if truthy key && truthy value
      then assign (trim key) (trim value) env
      else env
  | _ => env
  end.

(** [env] once [envContent.split("\n").forEach(...)] has run. *)
Definition read_env (envContent : string) : Env :=
  fold_left env_line (split_on (ascii_of_nat 10) envContent) [].

(** [{ url: env.TURSO_DATABASE_URL, authToken: env.TURSO_AUTH_TOKEN }] *)
Definition client_config (env : Env) : option string * option string :=
  (lookup "TURSO_DATABASE_URL" env, lookup "TURSO_AUTH_TOKEN" env).

End Migrate.

(* ===================================================================== *)
(** * Vocabulary of the properties *)
(* ===================================================================== *)

Section Comparators.
Context {A : Type}.
Variable cmp : A -> A -> number.

(** [a] does not come after [b]. *)
Definition cmp_le (a b : A) : Prop := sgn (cmp a b) <> Gt.

(** [a] comes strictly before [b]. *)
Definition cmp_lt (a b : A) : Prop := sgn (cmp a b) = Lt.

(** [a] and [b] compare equal. *)
Definition tie (a b : A) : bool :=
  match sgn (cmp a b) with Eq => true | _ => false end.

(** A comparator that is consistent on the values satisfying [P]. *)
Record consistent (P : A -> Prop) : Prop := {
  cmp_antisym : forall a b, P a -> P b ->
    sgn (cmp a b) = CompOpp (sgn (cmp b a));
  cmp_trans : forall a b c, P a -> P b -> P c ->
    cmp_le a b -> cmp_le b c -> cmp_le a c
}.
End Comparators.

(** The sum of a list of numbers. *)
Definition Qsum (l : list Q) : Q := fold_right Qplus 0%Q l.

(** The sum of the amounts of the transactions of one type. *)
Definition total_of (ty : TxType) (ts : list Transaction) : Q :=
  Qsum (map amount (of_type ty ts)).

(** Income less expense less saved. *)
Definition net (ts : list Transaction) : Q :=
  (total_of income ts - total_of expense ts - total_of saved ts)%Q.

(** The date string of a transaction names a day of the calendar. *)
Definition valid_date (t : Transaction) : Prop :=
  parse_ymd (date t) <> None.

(** The month label of a transaction. *)
Definition month_key (t : Transaction) : string :=
  Home.getMonthYear (date t).

(** The transactions with a given month label, in their order. *)
Definition members (k : string) (ts : list Transaction) : list Transaction :=
  filter (fun t => String.eqb (month_key t) k) ts.

(** The sum of the totals of all groups. *)
Definition sum_totals (groups : Home.Groups) : Q :=
  Qsum (map (fun e => Home.total (snd e)) groups).

(** All the transactions of all groups. *)
Definition all_members (groups : Home.Groups) : list Transaction :=
  flat_map (fun e => Home.transactions (snd e)) groups.

(** [groups] splits [ts] by month: the labels are distinct, a group holds
    exactly the transactions of [ts] with its label, in their order, and is
    not empty, the groups together hold the transactions of [ts], each as
    often as [ts] does, the total of a group is the net amount of its
    members, and the totals add up to the liquid balance of [ts]. *)
Record partitions_by_month (ts : list Transaction) (groups : Home.Groups)
  : Prop := {
  part_keys : NoDup (map fst groups);
  part_members : forall k g, In (k, g) groups ->
    Home.transactions g = members k ts /\ Home.transactions g <> [];
  part_cover : Permutation (all_members groups) ts;
  part_total : forall k g, In (k, g) groups ->
    (Home.total g == net (Home.transactions g))%Q;
  part_sum : (sum_totals groups == Home.balanceLiquid ts)%Q
}.

(** The month of a transaction as one number: twelve times the year plus
    the month. *)
Definition month_index (t : Transaction) : option Z :=
  match parse_ymd (date t) with
  | Some (y, m, _) => Some (12 * y + m)
  | None => None
  end.

(** The first member of [a] is dated no earlier than the first member of
    [b]. *)
Definition first_not_earlier (a b : string * Home.Group) : Prop :=
  exists x y,
    Home.first_time a = Fin x /\ Home.first_time b = Fin y /\ (y <= x)%Q.

(** Every member of [a] is dated in a later month than every member of
    [b]. *)
Definition later_month (a b : string * Home.Group) : Prop :=
  forall t t',
    In t (Home.transactions (snd a)) -> In t' (Home.transactions (snd b)) ->
    exists i j, month_index t = Some i /\ month_index t' = Some j /\ j < i.

(** A transaction the comparator of a sort field can order: for the date
    field its date string names a day of the calendar. *)
Definition comparable (f : DataTools.SortField) (t : Transaction) : Prop :=
  match f with
  | DataTools.by_date => valid_date t
  | _ => True
  end.

(** The filter state with another sort order. *)
Definition with_order (st : DataTools.FilterState) (o : DataTools.SortOrder)
  : DataTools.FilterState :=
  DataTools.mkFilterState (DataTools.sortField st) o
    (DataTools.showAllMonths st) (DataTools.searchQuery st)
    (DataTools.startDate st) (DataTools.endDate st)
    (DataTools.minAmount st) (DataTools.maxAmount st)
    (DataTools.typeFilter st).

(** The UTC day number of the clock, and the date string of a day
    number. *)
Definition utc_day (now : Clock) : Z := epoch_ms now / msPerDay.

Definition day_string (n : Z) : string :=
  toISOString_date (mkClock (n * msPerDay) 0).

(** The sum of the expense amounts dated on the day a string names. *)
Definition expenses_on (ts : list Transaction) (day : string) : Q :=
  Qsum (map amount
          (filter (fun t => String.eqb (date t) day
                            && TxType_eqb (type t) expense) ts)).

(* ===================================================================== *)
(** * Standard delimited text *)
(* ===================================================================== *)

(** A reader of delimited text as RFC 4180 describes it: fields are
    separated by commas and records by line feeds; a field that starts with
    a double quote runs to the next double quote that is not doubled, and a
    doubled double quote inside it stands for one. *)
Inductive csv_state : Type := FieldStart | InPlain | InQuoted | AfterQuote.

Definition comma : ascii := ",".
Definition line_feed : ascii := Eval cbv in ascii_of_nat 10.

Definition snoc_char (s : string) (c : ascii) : string :=
  (s ++ String c "")%string.

Definition end_record (row : list string) (field : string)
    (rest : option (list (list string))) : option (list (list string)) :=
  option_map (cons (row ++ [field])%list) rest.

Fixpoint csv_read (st : csv_state) (s : string) (field : string)
    (row : list string) : option (list (list string)) :=
  match s with
  | EmptyString =>
      match st with
      | InQuoted => None
      | _ => Some [(row ++ [field])%list]
      end
  | String c rest =>
      match st with
      | FieldStart =>
          if Ascii.eqb c dquote then csv_read InQuoted rest "" row
          else if Ascii.eqb c comma
          then csv_read FieldStart rest "" (row ++ [field])%list
          else if Ascii.eqb c line_feed
          then end_record row field (csv_read FieldStart rest "" [])
          else csv_read InPlain rest (snoc_char field c) row
      | InPlain =>
          if Ascii.eqb c dquote then None
          else if Ascii.eqb c comma
          then csv_read FieldStart rest "" (row ++ [field])%list
          else if Ascii.eqb c line_feed
          then end_record row field (csv_read FieldStart rest "" [])
          else csv_read InPlain rest (snoc_char field c) row
      | InQuoted =>
          if Ascii.eqb c dquote then csv_read AfterQuote rest field row
          else csv_read InQuoted rest (snoc_char field c) row
      | AfterQuote =>
          if Ascii.eqb c dquote
          then csv_read InQuoted rest (snoc_char field dquote) row
          else if Ascii.eqb c comma
          then csv_read FieldStart rest "" (row ++ [field])%list
          else if Ascii.eqb c line_feed
          then end_record row field (csv_read FieldStart rest "" [])
          else None
      end
  end.

(** The records of a text, each a list of fields. *)
Definition csv_parse (s : string) : option (list (list string)) :=
  csv_read FieldStart s "" [].

(** A text with no comma, no double quote and no line feed. *)
Fixpoint plain (s : string) : bool :=
  match s with
  | EmptyString => true
  | String c r =>
      negb (Ascii.eqb c dquote) && negb (Ascii.eqb c comma)
      && negb (Ascii.eqb c line_feed) && plain r
  end.

(** The six columns of a transaction. *)
Definition columns (Number_toString : Q -> string) (t : Transaction)
  : list string :=
  [string_of_Z (id t); date t; Number_toString (amount t);
   type_string (type t); reason t; description t].

(* ===================================================================== *)
(** * Sample data *)
(* ===================================================================== *)

(** 5 March 2024, 03:00 UTC, seen from UTC+7. *)
Definition sample_clock : Clock := mkClock 1709607600000 25200000.

(** The reason [Lunch, "fancy"]. *)
Definition fancy_lunch : string :=
  ("Lunch, " ++ String dquote ("fancy" ++ String dquote ""))%string.

Definition sample_transactions : list Transaction :=
  [ mkTransaction 1 "2024-03-01" 1000 income "Salary" ""
      "2024-03-01 08:00:00";
    mkTransaction 4 "2024-04-10" 50 expense "Coffee" ""
      "2024-04-10 09:00:00";
    mkTransaction 2 "2024-03-02" 400 expense fancy_lunch "with the team"
      "2024-03-02 13:00:00";
    mkTransaction 3 "2024-03-02" 200 saved "Savings" ""
      "2024-03-02 14:00:00";
    mkTransaction 5 "2024-02-28" 70 expense "Coffee" ""
      "2024-02-28 09:00:00" ].

(** All months, sorted by amount, ascending. *)
Definition sample_filter : DataTools.FilterState :=
  DataTools.mkFilterState DataTools.by_amount DataTools.asc true
    "" "" "" "" "" "all".

(** The example of the specification: 1000 earned, 400 spent and 200
    saved in March 2024. *)
Definition march_example : list Transaction :=
  [ mkTransaction 1 "2024-03-01" 1000 income "Salary" "" "";
    mkTransaction 2 "2024-03-02" 400 expense "Lunch" "" "";
    mkTransaction 3 "2024-03-02" 200 saved "Savings" "" "" ].

(** [String(x)] on integers. *)
Definition integer_toString (q : Q) : string := string_of_Z (Qfloor q).

(** One stored row behind a client that never throws. *)
Definition sample_world : Route.World :=
  Route.mkWorld true
    [Route.mkRow 1 (Route.JStr "2024-03-01") (Fin 1000) (Route.JStr "income")
       (Route.JStr "Salary") (Route.JStr "") "2024-03-01 08:00:00"]
    1 "2024-03-02 10:00:00" (fun _ => None).

(* ===================================================================== *)
(** * Vocabulary of the proofs *)
(* ===================================================================== *)

(** What the month loop adds to a total for one transaction. *)
Definition signed (t : Transaction) : Q :=
  if TxType_eqb (type t) income then amount t else (- amount t)%Q.

(** What holds of [groups] after the loop has seen [ts]. *)
Record groups_inv (ts : list Transaction) (G : Home.Groups) : Prop := {
  inv_keys : NoDup (map fst G);
  inv_members : forall k g, In (k, g) G ->
    Home.transactions g = members k ts /\ Home.transactions g <> [];
  inv_total : forall k g, In (k, g) G ->
    Home.total g
    = fold_left (fun s t => (s + signed t)%Q) (Home.transactions g) 0%Q;
  inv_cover : forall t, In t ts -> In (month_key t) (map fst G);
  inv_sum : (sum_totals G == Qsum (map signed ts))%Q
}.

(** Days before a year that starts in March. *)
Definition days_before_year (y : Z) : Z :=
  365 * y + y / 4 - y / 100 + y / 400.

(** A day of the calendar. *)
Definition calendar_day (y m d : Z) : Prop :=
  0 <= y <= 9999 /\ 1 <= m <= 12 /\ 1 <= d <= days_in_month y m.

(** A calendar day in a year that starts in March: the year, the month
    (0 for March) and the day of that year. *)
Definition march_year (y m : Z) : Z := if m <=? 2 then y - 1 else y.

Definition march_month (m : Z) : Z := (m + 9) mod 12.

Definition month_start (mp : Z) : Z := (153 * mp + 2) / 5.

Definition march_doy (m d : Z) : Z := month_start (march_month m) + d - 1.

(** The comparator [groupedTransactions] sorts with. *)
Definition by_first_time (a b : string * Home.Group) : number :=
  num_sub (Home.first_time b) (Home.first_time a).

Definition has_time (e : string * Home.Group) : Prop :=
  exists q, Home.first_time e = Fin q.

(** A cell of a line: written as it is, or between double quotes. *)
Inductive cell : Type :=
| Plain (s : string)
| Quoted (s : string).

Definition render (c : cell) : string :=
  match c with
  | Plain s => s
  | Quoted s => DataTools.quoted s
  end.

Definition content (c : cell) : string :=
  match c with Plain s | Quoted s => s end.

Definition cell_ok (c : cell) : Prop :=
  match c with
  | Plain s => plain s = true
  | Quoted _ => True
  end.

(** What follows a line: nothing, or a line feed and more text. *)
Definition after_line (tail : string) : Prop :=
  tail = "" \/ exists more, tail = String line_feed more.

(** What the reader returns at the end of a record. *)
Definition finish (row : list string) (tail : string)
  : option (list (list string)) :=
  match tail with
  | EmptyString => Some [row]
  | String _ more => option_map (cons row) (csv_read FieldStart more "" [])
  end.

(** What ends a field: the end of the text, a comma or a line feed. *)
Definition delimited (rest : string) : Prop :=
  match rest with
  | EmptyString => True
  | String c _ => c = comma \/ c = line_feed
  end.

(** The cells of the line of a transaction. *)
Definition cells_of (Number_toString : Q -> string) (t : Transaction)
  : list cell :=
  [Plain (string_of_Z (id t)); Plain (date t);
   Plain (Number_toString (amount t)); Plain (type_string (type t));
   Quoted (reason t); Quoted (DataTools.or_empty (description t))].

(** A database client that throws for no statement. *)
Definition db_works (w : Route.World) : Prop :=
  forall st, Route.db_error w st = None.

(** A request to record 200 as saved on 2 March 2024. *)
Definition saved_request : Route.Body :=
  Route.mkBody (Route.JStr "2024-03-02") (Route.JStr "200")
    (Route.JStr "saved") (Route.JStr "Savings") (Route.JStr "").

(** An empty table behind a client that never throws. *)
Definition fresh_world : Route.World :=
  Route.mkWorld false [] 0 "2024-03-02 10:00:00" (fun _ => None).

(** The ids of the table are distinct and none exceeds the AUTOINCREMENT
    counter. *)
Definition ids_fresh (w : Route.World) : Prop :=
  NoDup (map Route.row_id (Route.rows w))
  /\ Forall (fun r => Route.row_id r <= Route.last_id w) (Route.rows w).

(** The body passes the three checks of [POST]. *)
Definition passes_checks (body : Route.Body) : Prop :=
  (Route.falsy (Route.date body) = false
   /\ Route.is_undefined (Route.amount body) = false
   /\ Route.falsy (Route.type body) = false
   /\ Route.falsy (Route.reason body) = false)
  /\ (isNaN (Route.parseFloat (Route.amount body)) = false
      /\ num_le0 (Route.parseFloat (Route.amount body)) = false)
  /\ Route.includes_val ["income"; "expense"] (Route.type body) = true.

(** The row [POST] stores for a body. *)
Definition row_of (w : Route.World) (body : Route.Body) : Route.Row :=
  Route.mkRow (Route.last_id w + 1) (Route.date body)
    (Route.parseFloat (Route.amount body)) (Route.type body)
    (Route.reason body) (Route.or_empty (Route.description body))
    (Route.db_now w).

(** The value of a run of decimal digits appended to [acc]. *)
Fixpoint uint_val (d : Decimal.uint) (acc : Z) : Z :=
  match d with
  | Decimal.Nil => acc
  | Decimal.D0 l => uint_val l (10 * acc)
  | Decimal.D1 l => uint_val l (10 * acc + 1)
  | Decimal.D2 l => uint_val l (10 * acc + 2)
  | Decimal.D3 l => uint_val l (10 * acc + 3)
  | Decimal.D4 l => uint_val l (10 * acc + 4)
  | Decimal.D5 l => uint_val l (10 * acc + 5)
  | Decimal.D6 l => uint_val l (10 * acc + 6)
  | Decimal.D7 l => uint_val l (10 * acc + 7)
  | Decimal.D8 l => uint_val l (10 * acc + 8)
  | Decimal.D9 l => uint_val l (10 * acc + 9)
  end.

(** The rows other than the one with the given id. *)
Definition without_id (n : Z) (rs : list Route.Row) : list Route.Row :=
  filter (fun r => negb (Route.row_id r =? n)) rs.

(** The message [handleSubmit] shows for a form, if any, when the client
    does not throw. *)
Definition submit_error (form : FormData.t) : option string :=
  let a := parseFloat_string (FormData.amount form) in
  if isNaN a || num_le0 a then Some "Amount must be a positive number"
  else if TxType_eqb (FormData.type form) saved
       then Some "Type must be 'income' or 'expense'"
       else None.

(** The local month of the clock is the month of its UTC day, in the years
    0 to 9999. *)
Definition utc_month_is_local (now : Clock) : Prop :=
  let '(y, m, _) := civil (utc_day now) in
  0 <= y <= 9999 /\ getFullYear now = y /\ getMonth now = m - 1.

(** Early on 1 April 2024 in UTC, late on 31 March two hours to the west. *)
Definition clock_between_months : Clock :=
  mkClock (19814 * 86400000 + 3600000) (- 7200000).

(** The filter state with another value of [showAllMonths]. *)
Definition with_show_all (st : DataTools.FilterState) (b : bool)
  : DataTools.FilterState :=
  DataTools.mkFilterState (DataTools.sortField st) (DataTools.sortOrder st)
    b (DataTools.searchQuery st)
    (DataTools.startDate st) (DataTools.endDate st)
    (DataTools.minAmount st) (DataTools.maxAmount st)
    (DataTools.typeFilter st).

(** A bound of the amount range that is filled in and is not a number. *)
Definition unreadable (bound : string) : Prop :=
  bound <> "" /\ parseFloat_string bound = NaN.

(** The transactions the page starts from once the filters are cleared. *)
Definition month_or_all (ts : list Transaction) (all : bool) (now : Clock)
  : list Transaction :=
  if all then ts else filter (in_current_month now) ts.

(** A number between 0 and 100. *)
Definition per_cent (h : number) : Prop :=
  exists q, h = Fin q /\ (0 <= q <= 100)%Q.

(** The sum of the weights of the transactions filed under a key. *)
Definition tally (key : Transaction -> string) (weight : Transaction -> Q)
    (l : list Transaction) (k : string) : Q :=
  Qsum (map weight (filter (fun t => String.eqb (key t) k) l)).

(** One round of a loop that files each transaction under its key. *)
Definition tally_step (key : Transaction -> string)
    (weight : Transaction -> Q) (o : option NumberMap) (t : Transaction)
  : option NumberMap :=
  match o with
  | Some m => add_to (key t) (weight t) m
  | None => None
  end.

(** The comparator of [.sort((a, b) => b[1] - a[1])]. *)
Definition by_value_desc (a b : string * Q) : number :=
  Fin (snd b - snd a).

(** The first word of the reason of some transaction of the list, in lower
    case, is a name every object inherits. *)
Definition inherited_key (l : list Transaction) : Prop :=
  exists t, In t l /\ inherited_name (DataTools.reason_key t) = true.

(** The entries [top] are the [n] largest tallies of [l]: at most [n]
    entries with distinct keys, in descending order of value; the value of
    an entry is the tally of its key, which is the key of some member of
    [l]; and a key of [l] that is left out has a tally no larger than any
    entry, the list then being full. *)
Record ranks (key : Transaction -> string) (weight : Transaction -> Q)
    (n : nat) (l : list Transaction) (top : list (string * Q)) : Prop := {
  ranks_length : (List.length top <= n)%nat;
  ranks_keys : NoDup (map fst top);
  ranks_sorted : StronglySorted (fun a b => snd b <= snd a)%Q top;
  ranks_value : forall k v, In (k, v) top ->
    (v == tally key weight l k)%Q /\ exists t, In t l /\ key t = k;
  ranks_rest : forall t, In t l ->
    In (key t) (map fst top)
    \/ (List.length top = n
        /\ forall e, In e top -> (tally key weight l (key t) <= snd e)%Q)
}.

(** What the map holds after the loop over [l]. *)
Definition tallied (key : Transaction -> string) (weight : Transaction -> Q)
    (l : list Transaction) (m : NumberMap) : Prop :=
  NoDup (map fst m)
  /\ (forall k v, own_get k m = Some v ->
        (v == tally key weight l k)%Q /\ exists t, In t l /\ key t = k)
  /\ (forall t, In t l -> own_get (key t) m <> None).

(** The expenses of the current month, in the order of the list. *)
Definition month_expenses (ts : list Transaction) (now : Clock)
  : list Transaction :=
  filter (fun t => in_current_month now t && TxType_eqb (type t) expense) ts.

(** [b] is income whenever [a] is. *)
Definition income_last (a b : Transaction) : Prop :=
  type a = income -> type b = income.

(** A row the route can have stored: a date and a reason that are not
    falsy, an amount above zero, the type income or expense, and a
    description, possibly empty. *)
Definition stored_by_route (r : Route.Row) : Prop :=
  Route.falsy (Route.row_date r) = false
  /\ Route.falsy (Route.row_reason r) = false
  /\ num_gt0 (Route.row_amount r) = true
  /\ (Route.row_type r = Route.JStr "income"
      \/ Route.row_type r = Route.JStr "expense")
  /\ Route.row_description r <> Route.JUndefined
  /\ Route.row_description r <> Route.JNull.

(** The string does not hold the character. *)
Fixpoint no_char (c : ascii) (s : string) : bool :=
  match s with
  | EmptyString => true
  | String x r => negb (Ascii.eqb x c) && no_char c r
  end.

(** A line of a settings file: a name, a value and what follows the value
    on the line. *)
Record Setting : Type := mkSetting {
  name_text : string;
  value_text : string;
  line_rest : string
}.

Definition line_of (e : Setting) : string :=
  (name_text e ++ "=" ++ value_text e ++ line_rest e)%string.

(** The name and the value are not empty and hold no equals sign, the
    line holds no line feed, the rest of the line is empty or starts with
    an equals sign, and the name is not [__proto__]. *)
Definition well_formed (e : Setting) : Prop :=
  name_text e <> "" /\ value_text e <> ""
  /\ no_char "=" (name_text e) = true
  /\ no_char "=" (value_text e) = true
  /\ no_char line_feed (name_text e) = true
  /\ no_char line_feed (value_text e) = true
  /\ no_char line_feed (line_rest e) = true
  /\ (line_rest e = "" \/ exists r, line_rest e = String "=" r)
  /\ trim (name_text e) <> "__proto__".

(** What the script keeps of a line. *)
Definition kept (e : Setting) : string * string :=
  (trim (name_text e), trim (value_text e)).

(** A request to record 12.5 spent on tea on 5 March 2024, without a
    description. *)
Definition sample_body : Route.Body :=
  Route.mkBody (Route.JStr "2024-03-05") (Route.JStr "12.5")
    (Route.JStr "expense") (Route.JStr "Tea") Route.JUndefined.

(** The form filled in with a saving. *)
Definition sample_form : FormData.t :=
  FormData.mk "2024-03-05" "200" saved "Savings" "".

(** From 1 March 2024 on, newest first. *)
Definition sample_range : DataTools.FilterState :=
  DataTools.mkFilterState DataTools.by_date DataTools.desc false
    "" "2024-03-01" "" "" "" "all".

(** A lower bound that is not a number. *)
Definition sample_unreadable : DataTools.FilterState :=
  DataTools.mkFilterState DataTools.by_date DataTools.desc true
    "" "" "" "abc" "" "all".

Definition sample_days : list DataTools.Day :=
  [DataTools.mkDay "2024-03-04" 0; DataTools.mkDay "2024-03-05" 50].

(** Two lines of a settings file: the second has blanks around the equals
    sign and a value with an equals sign in it. *)
Definition sample_settings : list Setting :=
  [mkSetting "TURSO_DATABASE_URL" "libsql://db.turso.io" "";
   mkSetting "TURSO_AUTH_TOKEN " " abc" "=def"].

Local Open Scope list_scope.

(* ===================================================================== *)
(** * Facts about numbers *)
(* ===================================================================== *)

Lemma Qcompare_opp_0 (q : Q) : (- q ?= 0)%Q = CompOpp (q ?= 0)%Q.
Proof.
  destruct q as [n d]. unfold Qcompare. simpl.
  rewrite !Z.mul_1_r. destruct n; reflexivity.
Qed.

Lemma sgn_num_neg (v : number) : sgn (num_neg v) = CompOpp (sgn v).
Proof.
  destruct v; simpl; try reflexivity. apply Qcompare_opp_0.
Qed.

Lemma sgn_Fin_sub (x y : Q) : sgn (Fin (x - y)) = (x ?= y)%Q.
Proof.
  unfold sgn. destruct (x ?= y)%Q eqn:E.
  - rewrite <- Qeq_alt in *. lra.
  - rewrite <- Qlt_alt in *. lra.
  - rewrite <- Qgt_alt in *. lra.
Qed.

(* ===================================================================== *)
(** * Facts about [Array_sort] *)
(* ===================================================================== *)

Section SortFacts.
Context {A : Type}.
Variable cmp : A -> A -> number.

Lemma sort_insert_perm (x : A) (l : list A) :
  Permutation (sort_insert cmp x l) (x :: l).
Proof.
  induction l as [|y l IH]; simpl.
  - apply Permutation_refl.
  - destruct (sgn (cmp x y)); try apply Permutation_refl.
    eapply perm_trans; [apply perm_skip, IH | apply perm_swap].
Qed.

Lemma Array_sort_perm (l : list A) : Permutation (Array_sort cmp l) l.
Proof.
  induction l as [|x l IH]; simpl.
  - constructor.
  - eapply perm_trans; [apply sort_insert_perm | apply perm_skip, IH].
Qed.

Variable P : A -> Prop.
Hypothesis cmp_ok : consistent cmp P.

Lemma tie_trans (a x y : A) :
  P a -> P x -> P y -> tie cmp a x = true -> tie cmp a y = true -> tie cmp x y = true.
Proof.
  intros Pa Px Py Hx Hy. unfold tie in *.
  destruct (sgn (cmp a x)) eqn:Eax; try discriminate.
  destruct (sgn (cmp a y)) eqn:Eay; try discriminate.
  assert (Exa : sgn (cmp x a) = Eq)
    by (rewrite (cmp_antisym cmp P cmp_ok x a Px Pa), Eax; reflexivity).
  assert (Eya : sgn (cmp y a) = Eq)
    by (rewrite (cmp_antisym cmp P cmp_ok y a Py Pa), Eay; reflexivity).
  assert (Hxy : cmp_le cmp x y).
  { apply (cmp_trans cmp P cmp_ok x a y); auto; unfold cmp_le; congruence. }
  assert (Hyx : cmp_le cmp y x).
  { apply (cmp_trans cmp P cmp_ok y a x); auto; unfold cmp_le; congruence. }
  unfold cmp_le in *.
  rewrite (cmp_antisym cmp P cmp_ok y x Py Px) in Hyx.
  destruct (sgn (cmp x y)); simpl in *; congruence.
Qed.

Lemma sort_insert_sorted (x : A) (l : list A) :
  P x -> Forall P l -> StronglySorted (cmp_le cmp) l ->
  StronglySorted (cmp_le cmp) (sort_insert cmp x l).
Proof.
  intros Px Pl Hs. induction Hs as [|y l Hs IH Hy]; simpl.
  - repeat constructor.
  - inversion Pl as [|? ? Py Pl']; subst.
    destruct (sgn (cmp x y)) eqn:E.
    + constructor; [constructor; assumption|].
      constructor; [unfold cmp_le; congruence|].
      rewrite Forall_forall in *. intros z Hz.
      apply (cmp_trans cmp P cmp_ok x y z); auto.
      unfold cmp_le; congruence.
    + constructor; [constructor; assumption|].
      constructor; [unfold cmp_le; congruence|].
      rewrite Forall_forall in *. intros z Hz.
      apply (cmp_trans cmp P cmp_ok x y z); auto.
      unfold cmp_le; congruence.
    + constructor; [apply IH; assumption|].
      eapply Permutation_Forall.
      * apply Permutation_sym, sort_insert_perm.
      * constructor; [|assumption].
        unfold cmp_le. rewrite (cmp_antisym cmp P cmp_ok y x Py Px), E.
        discriminate.
Qed.

Lemma Array_sort_Forall (Q0 : A -> Prop) (l : list A) :
  Forall Q0 l -> Forall Q0 (Array_sort cmp l).
Proof.
  intro H. eapply Permutation_Forall; [|exact H].
  apply Permutation_sym, Array_sort_perm.
Qed.

Lemma Array_sort_sorted (l : list A) :
  Forall P l -> StronglySorted (cmp_le cmp) (Array_sort cmp l).
Proof.
  induction 1 as [|x l Px Pl IH]; simpl.
  - constructor.
  - apply sort_insert_sorted; auto. apply Array_sort_Forall; assumption.
Qed.

Lemma sort_insert_stable (a x : A) (l : list A) :
  P a -> P x -> Forall P l ->
  filter (tie cmp a) (sort_insert cmp x l) = filter (tie cmp a) (x :: l).
Proof.
  intros Pa Px Pl. induction Pl as [|y l Py Pl IH]; simpl.
  - reflexivity.
  - destruct (sgn (cmp x y)) eqn:E; try reflexivity.
    simpl. rewrite IH. simpl.
    destruct (tie cmp a x) eqn:Tx, (tie cmp a y) eqn:Ty; try reflexivity.
    exfalso. pose proof (tie_trans a x y Pa Px Py Tx Ty) as T.
    unfold tie in T. rewrite E in T. discriminate.
Qed.

Lemma Array_sort_stable (a : A) (l : list A) :
  P a -> Forall P l ->
  filter (tie cmp a) (Array_sort cmp l) = filter (tie cmp a) l.
Proof.
  intros Pa Pl. induction Pl as [|x l Px Pl IH]; simpl.
  - reflexivity.
  - rewrite sort_insert_stable; auto.
    + simpl. rewrite IH. reflexivity.
    + apply Array_sort_Forall; assumption.
Qed.

Lemma sort_insert_last (x : A) (l : list A) :
  Forall (fun y => sgn (cmp x y) = Gt) l ->
  sort_insert cmp x l = (l ++ [x])%list.
Proof.
  induction 1 as [|y l Hy Hl IH]; simpl.
  - reflexivity.
  - rewrite Hy, IH. reflexivity.
Qed.
End SortFacts.

Section SortReverse.
Context {A : Type}.
Variable cmp : A -> A -> number.

Lemma Array_sort_descending_rev (l : list A) :
  StronglySorted (cmp_lt cmp) l ->
  Array_sort (fun a b => num_neg (cmp a b)) l = rev l.
Proof.
  induction 1 as [|x l Hs IH Hx]; simpl.
  - reflexivity.
  - rewrite IH. apply sort_insert_last.
    apply Forall_rev. rewrite Forall_forall in *. intros y Hy.
    rewrite sgn_num_neg. rewrite (Hx y Hy). reflexivity.
Qed.

Lemma consistent_neg (P : A -> Prop) :
  consistent cmp P -> consistent (fun a b => num_neg (cmp a b)) P.
Proof.
  intros [Ha Ht]. split.
  - intros a b Pa Pb. rewrite !sgn_num_neg, (Ha a b Pa Pb).
    reflexivity.
  - unfold cmp_le. intros a b c Pa Pb Pc. rewrite !sgn_num_neg.
    intros Hab Hbc.
    assert (Hcb : cmp_le cmp c b).
    { unfold cmp_le. rewrite (Ha c b Pc Pb).
      destruct (sgn (cmp b c)); simpl in *; congruence. }
    assert (Hba : cmp_le cmp b a).
    { unfold cmp_le. rewrite (Ha b a Pb Pa).
      destruct (sgn (cmp a b)); simpl in *; congruence. }
    pose proof (Ht c b a Pc Pb Pa Hcb Hba) as Hca.
    unfold cmp_le in Hca. rewrite (Ha c a Pc Pa) in Hca.
    destruct (sgn (cmp a c)); simpl in *; congruence.
Qed.
End SortReverse.

(* ===================================================================== *)
(** * Facts about sums *)
(* ===================================================================== *)

Lemma fold_left_Qplus {A : Type} (f : A -> Q) (l : list A) (a : Q) :
  (fold_left (fun s t => s + f t) l a == a + Qsum (map f l))%Q.
Proof.
  revert a. induction l as [|x l IH]; intro a; simpl.
  - lra.
  - rewrite IH. lra.
Qed.

Lemma sum_amount_Qsum (ts : list Transaction) :
  (sum_amount ts == Qsum (map amount ts))%Q.
Proof.
  unfold sum_amount. rewrite fold_left_Qplus. lra.
Qed.

Lemma Qsum_app (l1 l2 : list Q) :
  (Qsum (l1 ++ l2) == Qsum l1 + Qsum l2)%Q.
Proof.
  induction l1 as [|x l1 IH]; simpl.
  - lra.
  - rewrite IH. lra.
Qed.

Lemma Qsum_perm (l1 l2 : list Q) :
  Permutation l1 l2 -> (Qsum l1 == Qsum l2)%Q.
Proof.
  induction 1; simpl; lra.
Qed.

Lemma Qsum_nonneg (l : list Q) :
  Forall (fun q => 0 <= q)%Q l -> (0 <= Qsum l)%Q.
Proof.
  induction 1; simpl; lra.
Qed.

Lemma total_of_perm (ty : TxType) (l1 l2 : list Transaction) :
  Permutation l1 l2 -> (total_of ty l1 == total_of ty l2)%Q.
Proof.
  intro H. unfold total_of, of_type. apply Qsum_perm.
  apply Permutation_map. induction H; simpl.
  - constructor.
  - destruct (TxType_eqb (type x) ty); [constructor|]; assumption.
  - destruct (TxType_eqb (type x) ty), (TxType_eqb (type y) ty);
      try apply Permutation_refl. apply perm_swap.
  - eapply perm_trans; eassumption.
Qed.

Lemma net_perm (l1 l2 : list Transaction) :
  Permutation l1 l2 -> (net l1 == net l2)%Q.
Proof.
  intro H. unfold net.
  rewrite (total_of_perm income l1 l2 H), (total_of_perm expense l1 l2 H),
    (total_of_perm saved l1 l2 H). reflexivity.
Qed.

Lemma Qsum_signed (ts : list Transaction) :
  (Qsum (map signed ts) == net ts)%Q.
Proof.
  unfold net, total_of, of_type, signed.
  induction ts as [|t ts IH]; simpl.
  - lra.
  - rewrite IH. destruct (type t); simpl; lra.
Qed.

(* ===================================================================== *)
(** * Facts about the month groups *)
(* ===================================================================== *)

Lemma has_key_In (k : string) (G : Home.Groups) :
  Home.has_key k G = true <-> In k (map fst G).
Proof.
  induction G as [|[k' g] G IH]; simpl.
  - split; [discriminate | tauto].
  - rewrite orb_true_iff, IH, String.eqb_eq. intuition congruence.
Qed.

Lemma update_keys (k : string) (f : Home.Group -> Home.Group)
    (G : Home.Groups) :
  map fst (Home.update k f G) = map fst G.
Proof.
  induction G as [|[k' g] G IH]; simpl.
  - reflexivity.
  - destruct (String.eqb k k'); simpl; congruence.
Qed.

Lemma In_update (k : string) (f : Home.Group -> Home.Group)
    (G : Home.Groups) (k' : string) (g' : Home.Group) :
  NoDup (map fst G) ->
  In (k', g') (Home.update k f G) <->
  (k' <> k /\ In (k', g') G) \/
  (k' = k /\ exists g, In (k, g) G /\ g' = f g).
Proof.
  induction G as [|[k0 g0] G IH]; simpl; intro ND.
  - split; [tauto | intros [[_ []] | [_ [g [[] _]]]]].
  - inversion ND as [|? ? Hnotin ND']; subst.
    destruct (String.eqb k k0) eqn:E.
    + apply String.eqb_eq in E. subst k0. simpl. split.
      * intros [H | H].
        -- inversion H; subst. right. split; [reflexivity|].
           exists g0. split; [left; reflexivity | reflexivity].
        -- left. split; [|right; assumption].
           intro; subst. apply Hnotin.
           change k with (fst (k, g')). apply in_map. assumption.
      * intros [[Hne [H | H]] | [Heq [g [[H | H] Hg]]]].
        -- inversion H; congruence.
        -- right; assumption.
        -- inversion H; subst. left; reflexivity.
        -- exfalso. apply Hnotin.
           change k with (fst (k, g)). apply in_map. assumption.
    + apply String.eqb_neq in E. simpl. rewrite (IH ND'). split.
      * intros [H | [[Hne H] | [Heq [g [H Hg]]]]].
        -- inversion H; subst. left. split; [congruence | left; reflexivity].
        -- left. split; [assumption | right; assumption].
        -- right. split; [assumption|]. exists g. split; [right|]; assumption.
      * intros [[Hne [H | H]] | [Heq [g [[H | H] Hg]]]].
        -- left; assumption.
        -- right. left. split; assumption.
        -- inversion H; congruence.
        -- right. right. split; [assumption|]. exists g. split; assumption.
Qed.

Lemma sum_totals_app (G1 G2 : Home.Groups) :
  (sum_totals (G1 ++ G2) == sum_totals G1 + sum_totals G2)%Q.
Proof.
  unfold sum_totals. rewrite map_app. apply Qsum_app.
Qed.

Lemma sum_totals_update (k : string) (f : Home.Group -> Home.Group)
    (delta : Q) (G : Home.Groups) :
  (forall g, Home.total (f g) == Home.total g + delta)%Q ->
  In k (map fst G) ->
  (sum_totals (Home.update k f G) == sum_totals G + delta)%Q.
Proof.
  intros Hf. unfold sum_totals.
  induction G as [|[k0 g0] G IH]; simpl; intro Hin.
  - tauto.
  - destruct (String.eqb k k0) eqn:E; simpl.
    + rewrite Hf. lra.
    + apply String.eqb_neq in E. destruct Hin as [Hin | Hin]; [congruence|].
      rewrite (IH Hin). lra.
Qed.

Lemma group_by_month_snoc (ts : list Transaction) (t : Transaction) :
  Home.group_by_month (ts ++ [t])
  = Home.add_transaction (Home.group_by_month ts) t.
Proof.
  unfold Home.group_by_month. rewrite fold_left_app. reflexivity.
Qed.

Lemma members_snoc (k : string) (ts : list Transaction) (t : Transaction) :
  members k (ts ++ [t])
  = (members k ts ++ (if String.eqb (month_key t) k then [t] else []))%list.
Proof.
  unfold members. rewrite filter_app. simpl.
  destruct (String.eqb (month_key t) k); reflexivity.
Qed.

Lemma members_absent (k : string) (ts : list Transaction) (G : Home.Groups) :
  (forall t, In t ts -> In (month_key t) (map fst G)) ->
  ~ In k (map fst G) -> members k ts = [].
Proof.
  intros Hc Hk. unfold members.
  induction ts as [|t ts IH]; simpl; [reflexivity|].
  destruct (String.eqb (month_key t) k) eqn:E.
  - apply String.eqb_eq in E. exfalso. apply Hk. rewrite <- E.
    apply Hc. left; reflexivity.
  - apply IH. intros t' Ht'. apply Hc. right; assumption.
Qed.

Lemma group_by_month_inv (ts : list Transaction) :
  groups_inv ts (Home.group_by_month ts).
Proof.
  induction ts as [|t ts IH] using rev_ind.
  - split; simpl; try tauto; [constructor | reflexivity].
  - rewrite group_by_month_snoc. destruct IH as [Hk Hm Ht Hc Hs].
    set (G := Home.group_by_month ts) in *.
    pose (k := month_key t).
    pose (f := fun g : Home.Group =>
      Home.mkGroup (Home.transactions g ++ [t])
        (Home.total g + signed t)%Q).
    pose (G1 := if negb (Home.has_key k G)
                then G ++ [(k, Home.mkGroup [] 0)] else G).
    change (Home.add_transaction G t) with (Home.update k f G1).
    assert (Hf : forall g, (Home.total (f g) == Home.total g + signed t)%Q).
    { intro g. unfold f, signed. simpl. reflexivity. }
    assert (HG1 : (G1 = G /\ In k (map fst G)) \/
                  (G1 = (G ++ [(k, Home.mkGroup [] 0)])%list
                   /\ ~ In k (map fst G))).
    { unfold G1. destruct (Home.has_key k G) eqn:E; simpl.
      - left. split; [reflexivity | apply has_key_In; assumption].
      - right. split; [reflexivity|]. rewrite <- has_key_In. congruence. }
    assert (ND1 : NoDup (map fst G1)).
    { destruct HG1 as [[-> _] | [-> Hn]]; [assumption|].
      rewrite map_app. simpl.
      apply Permutation_NoDup with (l := k :: map fst G).
      - apply Permutation_cons_append.
      - constructor; assumption. }
    assert (Hin1 : In k (map fst G1)).
    { destruct HG1 as [[-> H] | [-> _]]; [assumption|].
      rewrite map_app. apply in_or_app. right. left. reflexivity. }
    assert (HG1in : forall k' g', In (k', g') G1 ->
              In (k', g') G \/
              (k' = k /\ g' = Home.mkGroup [] 0 /\ ~ In k (map fst G))).
    { intros k' g' H. destruct HG1 as [[-> _] | [-> Hn]]; [left; assumption|].
      apply in_app_or in H. destruct H as [H | [H | []]]; [left; assumption|].
      inversion H; subst. right. auto. }
    split.
    + rewrite update_keys. assumption.
    + intros k' g' Hin. apply (In_update k f G1 k' g' ND1) in Hin.
      rewrite members_snoc. fold k.
      destruct Hin as [[Hne Hin] | [Heq [g [Hin Hg]]]].
      * destruct (HG1in _ _ Hin) as [H | [H _]]; [|congruence].
        destruct (Hm _ _ H) as [Hm1 Hm2].
        assert (E : String.eqb k k' = false)
          by (apply String.eqb_neq; congruence).
        rewrite E, app_nil_r. split; assumption.
      * subst k' g'. rewrite String.eqb_refl. unfold f at 1 2. simpl.
        split; [|intro H; apply app_eq_nil in H; destruct H; discriminate].
        destruct (HG1in _ _ Hin) as [H | [_ [H Hn]]].
        -- destruct (Hm _ _ H) as [-> _]. reflexivity.
        -- subst g. simpl.
           rewrite (members_absent k ts G Hc Hn). reflexivity.
    + intros k' g' Hin. apply (In_update k f G1 k' g' ND1) in Hin.
      destruct Hin as [[Hne Hin] | [Heq [g [Hin Hg]]]].
      * destruct (HG1in _ _ Hin) as [H | [H _]]; [|congruence].
        apply (Ht _ _ H).
      * subst k' g'. unfold f. simpl. rewrite fold_left_app. simpl.
        unfold signed at 2.
        destruct (HG1in _ _ Hin) as [H | [_ [H Hn]]].
        -- rewrite (Ht _ _ H). reflexivity.
        -- subst g. reflexivity.
    + intros t' Ht'. rewrite update_keys. apply in_app_or in Ht'.
      destruct Ht' as [Ht' | [<- | []]]; [|exact Hin1].
      destruct HG1 as [[-> _] | [-> _]]; [apply Hc; assumption|].
      rewrite map_app. apply in_or_app. left. apply Hc; assumption.
    + rewrite (sum_totals_update k f (signed t) G1 Hf Hin1).
      rewrite map_app, Qsum_app. simpl.
      destruct HG1 as [[-> _] | [-> _]].
      * rewrite Hs. lra.
      * rewrite sum_totals_app, Hs. unfold sum_totals. simpl. lra.
Qed.

(* ===================================================================== *)
(** * Facts about the calendar *)
(* ===================================================================== *)

Lemma days_before_year_succ (y : Z) :
  days_before_year (y + 1)
  = days_before_year y + (if leap_year (y + 1) then 366 else 365).
Proof.
  unfold days_before_year, leap_year.
  destruct ((y + 1) mod 4 =? 0) eqn:E4;
    destruct ((y + 1) mod 100 =? 0) eqn:E100;
    destruct ((y + 1) mod 400 =? 0) eqn:E400; cbn [andb orb negb];
    rewrite ?Z.eqb_eq, ?Z.eqb_neq in *;
    Z.div_mod_to_equations; lia.
Qed.

Lemma days_before_year_mono (y y' : Z) :
  y <= y' -> days_before_year y <= days_before_year y'.
Proof.
  intro H. unfold days_before_year.
  replace (y / 100) with (y / 4 / 25) by (rewrite Z.div_div by lia; reflexivity).
  replace (y' / 100) with (y' / 4 / 25) by (rewrite Z.div_div by lia; reflexivity).
  replace (y / 400) with (y / 4 / 25 / 4) by (rewrite !Z.div_div by lia; reflexivity).
  replace (y' / 400) with (y' / 4 / 25 / 4) by (rewrite !Z.div_div by lia; reflexivity).
  Z.div_mod_to_equations. lia.
Qed.

Lemma MakeDay_civil (z : Z) :
  let '(y, m, d) := civil z in MakeDay y m d = z.
Proof.
  unfold civil, MakeDay.
  set (z' := z + 719468).
  set (era := z' / 146097).
  set (doe := z' mod 146097).
  set (yoe := (doe - doe / 1460 + doe / 36524 - doe / 146096) / 365).
  set (doy := doe - (365 * yoe + yoe / 4 - yoe / 100)).
  set (mp := (5 * doy + 2) / 153).
  assert (Hdoe : 0 <= doe < 146097) by (apply Z.mod_pos_bound; lia).
  assert (Hyoe : 0 <= yoe < 400).
  { unfold yoe. Z.div_mod_to_equations. lia. }
  assert (Hdoy : 0 <= doy < 366).
  { unfold doy, yoe. Z.div_mod_to_equations. lia. }
  assert (Hmp : 0 <= mp < 12).
  { unfold mp. Z.div_mod_to_equations. lia. }
  assert (Hz : z' = 146097 * era + doe)
    by (unfold era, doe; apply Z.div_mod; lia).
  set (m := if mp <? 10 then mp + 3 else mp - 9).
  assert (Hm : (m + 9) mod 12 = mp).
  { unfold m. destruct (mp <? 10) eqn:E;
      rewrite ?Z.ltb_lt, ?Z.ltb_ge in E; Z.div_mod_to_equations; lia. }
  assert (Hy : (if m <=? 2
                then yoe + era * 400 + (if m <=? 2 then 1 else 0) - 1
                else yoe + era * 400 + (if m <=? 2 then 1 else 0))
               = yoe + era * 400).
  { destruct (m <=? 2); lia. }
  rewrite Hy, Hm.
  replace ((yoe + era * 400) / 4) with (yoe / 4 + era * 100)
    by (Z.div_mod_to_equations; lia).
  replace ((yoe + era * 400) / 100) with (yoe / 100 + era * 4)
    by (Z.div_mod_to_equations; lia).
  replace ((yoe + era * 400) / 400) with era
    by (Z.div_mod_to_equations; lia).
  unfold doy in *. lia.
Qed.

Lemma civil_day_pos (z : Z) : let '(_, _, d) := civil z in 1 <= d.
Proof.
  unfold civil.
  set (z' := z + 719468).
  set (doe := z' mod 146097).
  set (yoe := (doe - doe / 1460 + doe / 36524 - doe / 146096) / 365).
  set (doy := doe - (365 * yoe + yoe / 4 - yoe / 100)).
  assert (Hdoe : 0 <= doe < 146097) by (apply Z.mod_pos_bound; lia).
  assert (Hdoy : 0 <= doy).
  { unfold doy, yoe. Z.div_mod_to_equations. lia. }
  Z.div_mod_to_equations. lia.
Qed.

Lemma MakeDay_shift (y m d i : Z) : MakeDay y m (d - i) = MakeDay y m d - i.
Proof. unfold MakeDay. lia. Qed.

Lemma digit_of_range (c : ascii) (n : Z) : digit_of c = Some n -> 0 <= n <= 9.
Proof.
  unfold digit_of.
  destruct ((48 <=? Z.of_nat (nat_of_ascii c))
            && (Z.of_nat (nat_of_ascii c) <=? 57)) eqn:E; [|discriminate].
  intro H. inversion H; subst. apply andb_true_iff in E. lia.
Qed.

Lemma parse_ymd_calendar (s : string) (y m d : Z) :
  parse_ymd s = Some (y, m, d) -> calendar_day y m d.
Proof.
  unfold parse_ymd.
  do 10 (destruct s as [|? s]; [discriminate|]).
  destruct s; [|discriminate].
  repeat match goal with
  | |- context [match digit_of ?c with _ => _ end] =>
      let E := fresh "E" in
      destruct (digit_of c) eqn:E; [apply digit_of_range in E | discriminate]
  end.
  match goal with
  | |- (if ?c then _ else _) = _ -> _ => destruct c eqn:Ec; [|discriminate]
  end.
  rewrite !andb_true_iff, !Z.leb_le in Ec.
  match goal with
  | |- Some (?a, ?b, ?c) = _ -> _ =>
      set (y0 := a) in *; set (m0 := b) in *; set (d0 := c) in *
  end.
  intros [= <- <- <-]. unfold calendar_day. subst y0 m0 d0. lia.
Qed.

Lemma MakeDay_march (y m d : Z) :
  MakeDay y m d
  = days_before_year (march_year y m) + march_doy m d - 719468.
Proof.
  unfold MakeDay, days_before_year, march_year, march_doy, month_start,
    march_month. lia.
Qed.

Lemma march_index (y m : Z) :
  1 <= m <= 12 ->
  12 * march_year y m + march_month m = 12 * y + m - 3
  /\ 0 <= march_month m <= 11.
Proof.
  intro H. unfold march_year, march_month.
  destruct (m <=? 2) eqn:E; rewrite ?Z.leb_le, ?Z.leb_gt in E;
    Z.div_mod_to_equations; lia.
Qed.

Lemma march_doy_bounds (y m d : Z) :
  1 <= m <= 12 -> 1 <= d <= days_in_month y m ->
  month_start (march_month m) <= march_doy m d
  /\ (march_month m <= 10 ->
      march_doy m d < month_start (march_month m + 1))
  /\ days_before_year (march_year y m) + march_doy m d
     < days_before_year (march_year y m + 1).
Proof.
  intros Hm Hd.
  rewrite days_before_year_succ.
  generalize (days_before_year (march_year y m)). intro base.
  assert (Hc : m = 1 \/ m = 2 \/ m = 3 \/ m = 4 \/ m = 5 \/ m = 6 \/ m = 7
               \/ m = 8 \/ m = 9 \/ m = 10 \/ m = 11 \/ m = 12) by lia.
  unfold march_doy, march_year, days_in_month in *.
  destruct Hc as [-> | [-> | [-> | [-> | [-> | [-> | [-> | [-> | [-> | [->
    | [-> | ->]]]]]]]]]]];
    repeat match goal with
    | |- context [month_start ?a] =>
        let v := eval vm_compute in (month_start a) in
        change (month_start a) with v
    | |- context [march_month ?a] =>
        let v := eval vm_compute in (march_month a) in
        change (march_month a) with v
    end;
    cbn [Z.eqb Z.leb Z.compare Pos.eqb Pos.compare Pos.compare_cont orb]
      in Hd |- *;
    try (replace (y - 1 + 1) with y in * by lia);
    destruct (leap_year y); destruct (leap_year (y + 1)); lia.
Qed.

Lemma month_start_mono (a b : Z) : a <= b -> month_start a <= month_start b.
Proof. unfold month_start. intro. Z.div_mod_to_equations. lia. Qed.

Lemma MakeDay_month_mono (y m d y' m' d' : Z) :
  1 <= m <= 12 -> 1 <= d <= days_in_month y m ->
  1 <= m' <= 12 -> 1 <= d' <= days_in_month y' m' ->
  12 * y + m < 12 * y' + m' ->
  MakeDay y m d < MakeDay y' m' d'.
Proof.
  intros Hm Hd Hm' Hd' Hlt. rewrite !MakeDay_march.
  destruct (march_index y m Hm) as [Hi Hr].
  destruct (march_index y' m' Hm') as [Hi' Hr'].
  destruct (march_doy_bounds y m d Hm Hd) as [Hlo [Hhi Hyear]].
  destruct (march_doy_bounds y' m' d' Hm' Hd') as [Hlo' [Hhi' Hyear']].
  assert (H0 : 0 <= month_start (march_month m')).
  { change 0 with (month_start 0). apply month_start_mono. lia. }
  destruct (Z.eq_dec (march_year y m) (march_year y' m')) as [E | NE].
  - rewrite E in *.
    assert (Hmp : march_month m + 1 <= march_month m') by lia.
    pose proof (month_start_mono _ _ Hmp). lia.
  - assert (Hy : march_year y m + 1 <= march_year y' m') by lia.
    pose proof (days_before_year_mono _ _ Hy). lia.
Qed.

(* ===================================================================== *)
(** * Facts about lists *)
(* ===================================================================== *)

Lemma StronglySorted_filter {A : Type} (R : A -> A -> Prop)
    (f : A -> bool) (l : list A) :
  StronglySorted R l -> StronglySorted R (filter f l).
Proof.
  induction 1 as [|x l Hs IH Hx]; simpl.
  - constructor.
  - destruct (f x); [|assumption]. constructor; [assumption|].
    rewrite Forall_forall in *. intros y Hy. apply filter_In in Hy.
    apply Hx. tauto.
Qed.

Lemma StronglySorted_weaken {A : Type} (P : A -> Prop)
    (R R' : A -> A -> Prop) (l : list A) :
  Forall P l -> (forall a b, P a -> P b -> R a b -> R' a b) ->
  StronglySorted R l -> StronglySorted R' l.
Proof.
  intros HP HR Hs. induction Hs as [|x l Hs IH Hx].
  - constructor.
  - inversion HP as [|? ? Px Pl]; subst. constructor; [auto|].
    rewrite Forall_forall in *. intros y Hy. apply HR; auto.
Qed.

Lemma StronglySorted_distinct {A B : Type} (f : A -> B)
    (R : A -> A -> Prop) (l : list A) :
  NoDup (map f l) -> StronglySorted R l ->
  StronglySorted (fun a b => R a b /\ f a <> f b) l.
Proof.
  intros ND Hs. induction Hs as [|x l Hs IH Hx]; simpl in *.
  - constructor.
  - inversion ND as [|? ? Hn ND']; subst. constructor; [auto|].
    rewrite Forall_forall in *. intros y Hy. split; [auto|].
    intro E. apply Hn. rewrite E. apply in_map. assumption.
Qed.

Lemma filter_keeps_distinct_keys {K V : Type} (keep : K * V -> bool)
    (entries : list (K * V)) :
  NoDup (map fst entries) -> NoDup (map fst (filter keep entries)).
Proof.
  intro ND. induction entries as [|e entries IH]; simpl; [constructor|].
  inversion ND as [|? ? Hnew ND']; subst.
  destruct (keep e); simpl; [|auto]. constructor; [|auto].
  intro H. apply Hnew. apply in_map_iff in H. destruct H as [e' [E He']].
  apply filter_In in He'. rewrite <- E. apply in_map. tauto.
Qed.

(* ===================================================================== *)
(** * Facts about month labels *)
(* ===================================================================== *)

Lemma to_int_not_nil (z : Z) :
  Z.to_int z <> Decimal.Pos Decimal.Nil /\ Z.to_int z <> Decimal.Neg Decimal.Nil.
Proof.
  split; intro H; pose proof (DecimalZ.of_to z) as E; rewrite H in E;
    simpl in E; subst z; discriminate.
Qed.

Lemma string_of_Z_inj (a b : Z) : string_of_Z a = string_of_Z b -> a = b.
Proof.
  unfold string_of_Z. intro H.
  apply (f_equal NilZero.int_of_string) in H.
  destruct (to_int_not_nil a) as [Ha1 Ha2].
  destruct (to_int_not_nil b) as [Hb1 Hb2].
  rewrite !NilZero.isi in H by assumption.
  injection H as H. apply DecimalZ.to_int_inj. assumption.
Qed.

Lemma month_label_inj (y m y' m' : Z) :
  1 <= m <= 12 -> 1 <= m' <= 12 ->
  (month_name m ++ " " ++ string_of_Z y
   = month_name m' ++ " " ++ string_of_Z y')%string ->
  m = m' /\ y = y'.
Proof.
  intros Hm Hm'.
  assert (Hc : m = 1 \/ m = 2 \/ m = 3 \/ m = 4 \/ m = 5 \/ m = 6 \/ m = 7
               \/ m = 8 \/ m = 9 \/ m = 10 \/ m = 11 \/ m = 12) by lia.
  assert (Hc' : m' = 1 \/ m' = 2 \/ m' = 3 \/ m' = 4 \/ m' = 5 \/ m' = 6
                \/ m' = 7 \/ m' = 8 \/ m' = 9 \/ m' = 10 \/ m' = 11
                \/ m' = 12) by lia.
  generalize (string_of_Z_inj y y').
  generalize (string_of_Z y), (string_of_Z y'). intros s s' Hinj.
  destruct Hc as [-> | [-> | [-> | [-> | [-> | [-> | [-> | [-> | [-> | [->
    | [-> | ->]]]]]]]]]]];
  destruct Hc' as [-> | [-> | [-> | [-> | [-> | [-> | [-> | [-> | [-> | [->
    | [-> | ->]]]]]]]]]]];
    repeat match goal with
    | |- context [month_name ?a] =>
        let v := eval vm_compute in (month_name a) in
        change (month_name a) with v
    end;
    cbn [String.append]; intro H;
    first [ split; [reflexivity | apply Hinj; congruence]
          | exfalso; congruence ].
Qed.

Lemma month_key_inj (t t' : Transaction) (y m d y' m' d' : Z) :
  parse_ymd (date t) = Some (y, m, d) ->
  parse_ymd (date t') = Some (y', m', d') ->
  month_key t = month_key t' -> m = m' /\ y = y'.
Proof.
  intros H H'. unfold month_key, Home.getMonthYear,
    toLocaleDateString_month_year. rewrite H, H'.
  apply parse_ymd_calendar in H, H'. unfold calendar_day in *.
  apply month_label_inj; lia.
Qed.

Lemma all_members_app (G1 G2 : Home.Groups) :
  all_members (G1 ++ G2) = all_members G1 ++ all_members G2.
Proof. unfold all_members. apply flat_map_app. Qed.

Lemma all_members_update (k : string) (f : Home.Group -> Home.Group)
    (t : Transaction) (G : Home.Groups) :
  (forall g, Home.transactions (f g) = Home.transactions g ++ [t]) ->
  In k (map fst G) ->
  Permutation (all_members (Home.update k f G)) (all_members G ++ [t]).
Proof.
  intro Hf. unfold all_members.
  induction G as [|[k0 g0] G IH]; simpl; intro Hin.
  - tauto.
  - destruct (String.eqb k k0) eqn:E; simpl.
    + rewrite Hf. rewrite <- !app_assoc. apply Permutation_app_head.
      apply Permutation_app_comm.
    + apply String.eqb_neq in E. destruct Hin as [Hin | Hin]; [congruence|].
      rewrite <- app_assoc. apply Permutation_app_head. apply IH; assumption.
Qed.

Lemma group_by_month_cover (ts : list Transaction) :
  Permutation (all_members (Home.group_by_month ts)) ts.
Proof.
  induction ts as [|t ts IH] using rev_ind.
  - constructor.
  - rewrite group_by_month_snoc.
    set (G := Home.group_by_month ts) in *.
    pose (k := month_key t).
    pose (f := fun g : Home.Group =>
      Home.mkGroup (Home.transactions g ++ [t])
        (Home.total g + signed t)%Q).
    pose (G1 := if negb (Home.has_key k G)
                then G ++ [(k, Home.mkGroup [] 0)] else G).
    change (Home.add_transaction G t) with (Home.update k f G1).
    assert (Hin : In k (map fst G1)).
    { unfold G1. destruct (Home.has_key k G) eqn:E; simpl.
      - apply has_key_In; assumption.
      - rewrite map_app. apply in_or_app. right. left. reflexivity. }
    assert (HG1 : all_members G1 = all_members G).
    { unfold G1. destruct (Home.has_key k G); simpl; [reflexivity|].
      rewrite all_members_app. simpl. apply app_nil_r. }
    eapply perm_trans.
    + apply (all_members_update k f t G1); [reflexivity | assumption].
    + rewrite HG1. apply Permutation_app_tail. assumption.
Qed.

Lemma balanceLiquid_net (ts : list Transaction) :
  (Home.balanceLiquid ts == net ts)%Q.
Proof.
  unfold Home.balanceLiquid, Home.totalIncome, Home.totalExpense,
    Home.totalSaved, net, total_of.
  rewrite !sum_amount_Qsum. reflexivity.
Qed.

Lemma group_by_month_partitions (ts : list Transaction) :
  partitions_by_month ts (Home.group_by_month ts).
Proof.
  destruct (group_by_month_inv ts) as [Hk Hm Ht Hc Hs]. split.
  - assumption.
  - assumption.
  - apply group_by_month_cover.
  - intros k g Hin. rewrite (Ht k g Hin), fold_left_Qplus, Qsum_signed. lra.
  - rewrite Hs, Qsum_signed, balanceLiquid_net. reflexivity.
Qed.

Lemma partitions_by_month_perm (ts : list Transaction)
    (G G' : Home.Groups) :
  Permutation G G' -> partitions_by_month ts G -> partitions_by_month ts G'.
Proof.
  intros HP [Hk Hm Hc Ht Hs]. split.
  - eapply Permutation_NoDup; [apply Permutation_map; eassumption|].
    assumption.
  - intros k g Hin. apply Hm.
    eapply Permutation_in; [apply Permutation_sym|]; eassumption.
  - eapply perm_trans; [|eassumption]. unfold all_members.
    apply Permutation_flat_map. apply Permutation_sym. assumption.
  - intros k g Hin. apply (Ht k).
    eapply Permutation_in; [apply Permutation_sym|]; eassumption.
  - rewrite <- Hs. unfold sum_totals. apply Qsum_perm.
    apply Permutation_map. apply Permutation_sym. assumption.
Qed.


(* ===================================================================== *)
(** * The order of the month groups *)
(* ===================================================================== *)

Lemma by_first_time_consistent : consistent by_first_time has_time.
Proof.
  split.
  - intros a b [x Hx] [y Hy]. unfold by_first_time. rewrite Hx, Hy.
    cbn [num_sub]. rewrite !sgn_Fin_sub. symmetry. apply Qcompare_antisym.
  - intros a b c [x Hx] [y Hy] [z Hz]. unfold cmp_le, by_first_time.
    rewrite Hx, Hy, Hz. cbn [num_sub]. rewrite !sgn_Fin_sub.
    rewrite <- !Qle_alt. lra.
Qed.

Lemma by_first_time_le (a b : string * Home.Group) :
  has_time a -> has_time b ->
  cmp_le by_first_time a b -> first_not_earlier a b.
Proof.
  intros [x Hx] [y Hy]. unfold cmp_le, by_first_time, first_not_earlier.
  rewrite Hx, Hy. cbn [num_sub]. rewrite sgn_Fin_sub, <- Qle_alt.
  intro H. exists x, y. auto.
Qed.

Section GroupOrder.
Variable ts : list Transaction.
Hypothesis ts_valid : Forall valid_date ts.

Let G := Home.group_by_month ts.

Lemma member_valid (k : string) (g : Home.Group) (t : Transaction) :
  In (k, g) G -> In t (Home.transactions g) ->
  month_key t = k /\ exists y m d, parse_ymd (date t) = Some (y, m, d).
Proof.
  intros Hin Ht.
  destruct (group_by_month_inv ts) as [_ Hm _ _ _].
  destruct (Hm k g Hin) as [E _]. rewrite E in Ht.
  unfold members in Ht. apply filter_In in Ht. destruct Ht as [Ht Hk].
  apply String.eqb_eq in Hk. split; [assumption|].
  rewrite Forall_forall in ts_valid. specialize (ts_valid t Ht).
  unfold valid_date in ts_valid.
  destruct (parse_ymd (date t)) as [[[y m] d]|]; [|congruence].
  exists y, m, d. reflexivity.
Qed.

Lemma group_first (e : string * Home.Group) :
  In e G ->
  exists t y m d,
    In t (Home.transactions (snd e))
    /\ parse_ymd (date t) = Some (y, m, d)
    /\ Home.first_time e = Fin (inject_Z (MakeDay y m d * msPerDay)).
Proof.
  intro Hin. destruct e as [k g].
  destruct (group_by_month_inv ts) as [_ Hm _ _ _].
  destruct (Hm k g Hin) as [_ Hne]. simpl.
  destruct (Home.transactions g) as [|t l] eqn:E; [congruence|].
  assert (Ht : In t (Home.transactions g)) by (rewrite E; left; reflexivity).
  destruct (member_valid k g t Hin Ht) as [_ [y [m [d Hp]]]].
  exists t, y, m, d. rewrite <- E. split; [assumption|]. split; [assumption|].
  unfold Home.first_time. simpl. rewrite E. unfold Date_getTime.
  rewrite Hp. reflexivity.
Qed.

Lemma group_has_time (e : string * Home.Group) : In e G -> has_time e.
Proof.
  intro Hin. destruct (group_first e Hin) as [t [y [m [d [_ [_ H]]]]]].
  eexists. exact H.
Qed.

Lemma first_later_month (a b : string * Home.Group) :
  In a G -> In b G ->
  first_not_earlier a b /\ fst a <> fst b -> later_month a b.
Proof.
  intros Ha Hb [[x [y [Hx [Hy Hle]]]] Hne] t t' Ht Ht'.
  destruct a as [ka ga], b as [kb gb]. simpl in *.
  destruct (member_valid ka ga t Ha Ht) as [Hk [y1 [m1 [d1 Hp]]]].
  destruct (member_valid kb gb t' Hb Ht') as [Hk' [y2 [m2 [d2 Hp']]]].
  destruct (group_first (ka, ga) Ha)
    as [t0 [y0 [m0 [d0 [Ht0 [Hp0 Hf0]]]]]].
  destruct (group_first (kb, gb) Hb)
    as [t0' [y0' [m0' [d0' [Ht0' [Hp0' Hf0']]]]]].
  simpl in Ht0, Ht0'.
  destruct (member_valid ka ga t0 Ha Ht0) as [Hk0 _].
  destruct (member_valid kb gb t0' Hb Ht0') as [Hk0' _].
  assert (E1 : m0 = m1 /\ y0 = y1)
    by (apply (month_key_inj t0 t _ _ d0 _ _ d1); congruence).
  assert (E2 : m0' = m2 /\ y0' = y2)
    by (apply (month_key_inj t0' t' _ _ d0' _ _ d2); congruence).
  destruct E1 as [-> ->]. destruct E2 as [-> ->].
  unfold month_index. rewrite Hp, Hp'.
  exists (12 * y1 + m1), (12 * y2 + m2).
  split; [reflexivity|]. split; [reflexivity|].
  rewrite Hx in Hf0. rewrite Hy in Hf0'.
  injection Hf0 as ->. injection Hf0' as ->.
  rewrite <- Zle_Qle in Hle. unfold msPerDay in Hle.
  pose proof (parse_ymd_calendar _ _ _ _ Hp) as [_ [Hm1 Hd1]].
  pose proof (parse_ymd_calendar _ _ _ _ Hp') as [_ [Hm2 Hd2]].
  pose proof (parse_ymd_calendar _ _ _ _ Hp0) as [_ [_ Hd0]].
  pose proof (parse_ymd_calendar _ _ _ _ Hp0') as [_ [_ Hd0']].
  destruct (Z.lt_trichotomy (12 * y1 + m1) (12 * y2 + m2))
    as [Hlt | [Heq | Hgt]].
  - pose proof (MakeDay_month_mono y1 m1 d0 y2 m2 d0' Hm1 Hd0 Hm2 Hd0' Hlt).
    lia.
  - exfalso. apply Hne. rewrite <- Hk, <- Hk'.
    unfold month_key, Home.getMonthYear, toLocaleDateString_month_year.
    rewrite Hp, Hp'.
    assert (m1 = m2) by lia. assert (y1 = y2) by lia. subst. reflexivity.
  - assumption.
Qed.

Lemma grouped_sorted (showAllMonths : bool) (now : Clock) :
  let shown := Home.groupedTransactions ts showAllMonths now in
  StronglySorted first_not_earlier shown
  /\ StronglySorted later_month shown.
Proof.
  pose (sorted := Array_sort by_first_time G).
  pose (shown :=
    if negb showAllMonths
    then filter (fun e : string * Home.Group =>
                   String.eqb (fst e)
                     (Home.getMonthYear (toISOString_date now))) sorted
    else sorted).
  change (Home.groupedTransactions ts showAllMonths now) with shown.
  cbv zeta.
  assert (Hperm : Permutation sorted G) by apply Array_sort_perm.
  assert (HinG : Forall (fun e => In e G) sorted).
  { rewrite Forall_forall. intros e He.
    eapply Permutation_in; eassumption. }
  assert (Htime : Forall has_time G).
  { rewrite Forall_forall. apply group_has_time. }
  assert (Hs : StronglySorted (cmp_le by_first_time) sorted).
  { apply (Array_sort_sorted by_first_time has_time
             by_first_time_consistent G Htime). }
  assert (Hnd : NoDup (map fst sorted)).
  { eapply Permutation_NoDup.
    - apply Permutation_map, Permutation_sym, Hperm.
    - apply (inv_keys ts G (group_by_month_inv ts)). }
  assert (Hs' : StronglySorted (cmp_le by_first_time) shown).
  { unfold shown. destruct (negb showAllMonths); [|assumption].
    apply StronglySorted_filter. assumption. }
  assert (Hnd' : NoDup (map fst shown)).
  { unfold shown. destruct (negb showAllMonths); [|assumption].
    apply filter_keeps_distinct_keys. assumption. }
  assert (HinG' : Forall (fun e => In e G) shown).
  { unfold shown. destruct (negb showAllMonths); [|assumption].
    rewrite Forall_forall in *. intros e He. apply filter_In in He.
    apply HinG. tauto. }
  assert (H1 : StronglySorted first_not_earlier shown).
  { apply (StronglySorted_weaken (fun e => In e G)
             (cmp_le by_first_time)); [assumption| |assumption].
    intros a b Ha Hb. apply by_first_time_le; apply group_has_time;
      assumption. }
  split; [exact H1|].
  apply (StronglySorted_weaken (fun e => In e G)
           (fun a b => first_not_earlier a b /\ fst a <> fst b));
    [assumption| |].
  - intros a b Ha Hb. apply first_later_month; assumption.
  - apply StronglySorted_distinct; assumption.
Qed.
End GroupOrder.

(** C5. Whatever the order of the transaction list, the month groups come
    out in descending order of the date of their first member, and so the
    most recent month comes first: every member of a group is dated in a
    later month than every member of a group further down. The date strings
    are taken to name days of the calendar. *)
Theorem month_groups_descending (ts : list Transaction)
    (showAllMonths : bool) (now : Clock) :
  Forall valid_date ts ->
  StronglySorted first_not_earlier
    (Home.groupedTransactions ts showAllMonths now)
  /\ StronglySorted later_month
       (Home.groupedTransactions ts showAllMonths now).
Proof.
  intro H. apply (grouped_sorted ts H showAllMonths now).
Qed.

(* ===================================================================== *)
(** * The sort of the data-tools page *)
(* ===================================================================== *)

Lemma comparison_consistent (f : DataTools.SortField) :
  consistent (DataTools.comparison f) (comparable f).
Proof.
  destruct f; split; unfold cmp_le, DataTools.comparison, comparable.
  - intros a b Ha Hb. unfold valid_date, Date_getTime in *.
    destruct (parse_ymd (date a)) as [[[y1 m1] d1]|]; [|congruence].
    destruct (parse_ymd (date b)) as [[[y2 m2] d2]|]; [|congruence].
    cbn [num_sub]. rewrite !sgn_Fin_sub. symmetry. apply Qcompare_antisym.
  - intros a b c Ha Hb Hc. unfold valid_date, Date_getTime in *.
    destruct (parse_ymd (date a)) as [[[y1 m1] d1]|]; [|congruence].
    destruct (parse_ymd (date b)) as [[[y2 m2] d2]|]; [|congruence].
    destruct (parse_ymd (date c)) as [[[y3 m3] d3]|]; [|congruence].
    cbn [num_sub]. rewrite !sgn_Fin_sub, <- !Qle_alt. lra.
  - intros a b _ _. rewrite !sgn_Fin_sub. symmetry. apply Qcompare_antisym.
  - intros a b c _ _ _. rewrite !sgn_Fin_sub, <- !Qle_alt. lra.
  - intros a b _ _. destruct (type a), (type b); reflexivity.
  - intros a b c _ _ _.
    destruct (type a), (type b), (type c); vm_compute; congruence.
Qed.

Lemma comparefn_consistent (f : DataTools.SortField)
    (o : DataTools.SortOrder) :
  consistent (DataTools.comparefn f o) (comparable f).
Proof.
  destruct o.
  - apply comparison_consistent.
  - apply (consistent_neg (DataTools.comparison f)).
    apply comparison_consistent.
Qed.

Lemma tie_comparefn (f : DataTools.SortField) (o : DataTools.SortOrder)
    (a b : Transaction) :
  tie (DataTools.comparefn f o) a b = tie (DataTools.comparison f) a b.
Proof.
  destruct o; [reflexivity|]. unfold tie, DataTools.comparefn.
  rewrite sgn_num_neg. destruct (sgn (DataTools.comparison f a b));
    reflexivity.
Qed.

Lemma filter_if_incl (c : bool) (p : Transaction -> bool)
    (l : list Transaction) (t : Transaction) :
  In t (DataTools.filter_if c p l) -> In t l.
Proof.
  unfold DataTools.filter_if. destruct c; [|auto].
  intro H. apply filter_In in H. tauto.
Qed.

Lemma apply_filters_incl (ts : list Transaction)
    (st : DataTools.FilterState) (now : Clock) (t : Transaction) :
  In t (DataTools.apply_filters ts st now) -> In t ts.
Proof.
  unfold DataTools.apply_filters. intro H.
  repeat apply filter_if_incl in H. assumption.
Qed.


(* ===================================================================== *)
(** * Facts about the clock *)
(* ===================================================================== *)

Lemma getDate_pos (now : Clock) : 1 <= getDate now.
Proof.
  unfold getDate. pose proof (civil_day_pos (local_ms now / msPerDay)) as H.
  destruct (civil (local_ms now / msPerDay)) as [[y m] d]. exact H.
Qed.

Lemma setDate_back (now : Clock) (i : Z) :
  epoch_ms (setDate now (getDate now - i)) = epoch_ms now - i * msPerDay.
Proof.
  unfold setDate, getDate.
  pose proof (MakeDay_civil (local_ms now / msPerDay)) as H.
  destruct (civil (local_ms now / msPerDay)) as [[y m] d]. simpl.
  rewrite MakeDay_shift, H. unfold local_ms, msPerDay in *.
  Z.div_mod_to_equations. lia.
Qed.

Lemma toISOString_date_back (now : Clock) (i : Z) :
  toISOString_date (setDate now (getDate now - i))
  = day_string (utc_day now - i).
Proof.
  unfold day_string, toISOString_date, utc_day. rewrite setDate_back.
  cbn [epoch_ms].
  replace ((epoch_ms now - i * msPerDay) / msPerDay)
    with (epoch_ms now / msPerDay - i).
  - rewrite Z.div_mul by (unfold msPerDay; lia). reflexivity.
  - unfold msPerDay. Z.div_mod_to_equations. lia.
Qed.

(* ===================================================================== *)
(** * Facts about number operations *)
(* ===================================================================== *)

Lemma num_gt0_Fin (q : Q) : num_gt0 (Fin q) = true <-> (0 < q)%Q.
Proof.
  unfold num_gt0. destruct (q ?= 0)%Q eqn:E.
  - rewrite <- Qeq_alt in E. split; [discriminate | lra].
  - rewrite <- Qlt_alt in E. split; [discriminate | lra].
  - rewrite <- Qgt_alt in E. split; [lra | reflexivity].
Qed.

Lemma num_gt0_Fin_false (q : Q) : num_gt0 (Fin q) = false <-> (q <= 0)%Q.
Proof.
  pose proof (num_gt0_Fin q) as H. destruct (num_gt0 (Fin q)).
  - split; [discriminate|]. intro. assert (0 < q)%Q by (apply H; reflexivity).
    lra.
  - split; [|reflexivity]. intros _. destruct (Qlt_le_dec 0 q) as [L|L];
      [|assumption]. apply H in L. discriminate.
Qed.

Lemma num_div_Fin (x y : Q) :
  ~ (y == 0)%Q -> num_div (Fin x) (Fin y) = Fin (x / y).
Proof.
  intro H. unfold num_div. destruct (y ?= 0)%Q eqn:E; try reflexivity.
  rewrite <- Qeq_alt in E. contradiction.
Qed.

Lemma sum_amount_nonneg (ts : list Transaction) :
  Forall (fun t => 0 < amount t)%Q ts -> (0 <= sum_amount ts)%Q.
Proof.
  intro H. rewrite sum_amount_Qsum. apply Qsum_nonneg.
  rewrite Forall_map. eapply Forall_impl; [|exact H].
  intros t Ht. simpl in Ht. lra.
Qed.

Lemma Forall_filter_keep {A : Type} (P : A -> Prop) (f : A -> bool)
    (l : list A) :
  Forall P l -> Forall P (filter f l).
Proof.
  rewrite !Forall_forall. intros H x Hx. apply filter_In in Hx.
  apply H. tauto.
Qed.

Lemma total_of_sum_amount (ty : TxType) (ts : list Transaction) :
  (sum_amount (of_type ty ts) == total_of ty ts)%Q.
Proof. unfold total_of. apply sum_amount_Qsum. Qed.

(* ===================================================================== *)
(** * The insights of the data-tools page *)
(* ===================================================================== *)





Lemma filter_filter_and {A : Type} (p q : A -> bool) (l : list A) :
  filter q (filter p l) = filter (fun x => p x && q x) l.
Proof.
  induction l as [|x l IH]; simpl; [reflexivity|].
  destruct (p x); simpl; [destruct (q x)|]; congruence.
Qed.

Lemma day_entry_spec (ts : list Transaction) (now : Clock) (k : Z) :
  DataTools.day_date (DataTools.day_entry ts now k)
  = day_string (utc_day now - k)
  /\ (DataTools.day_amount (DataTools.day_entry ts now k)
      == expenses_on ts (day_string (utc_day now - k)))%Q.
Proof.
  unfold DataTools.day_entry. cbn [DataTools.day_date DataTools.day_amount].
  rewrite toISOString_date_back. split; [reflexivity|].
  unfold expenses_on. apply sum_amount_Qsum.
Qed.



(* ===================================================================== *)
(** * The runway of the earlier data-tools page *)
(* ===================================================================== *)


(* ===================================================================== *)
(** * The export *)
(* ===================================================================== *)

Lemma append_assoc (a b c : string) :
  ((a ++ b) ++ c)%string = (a ++ (b ++ c))%string.
Proof. induction a as [|x a IH]; simpl; congruence. Qed.

Lemma append_empty_r (a : string) : (a ++ "")%string = a.
Proof. induction a as [|x a IH]; simpl; congruence. Qed.

Lemma read_plain (p rest field : string) (row : list string)
    (st : csv_state) :
  plain p = true -> st = FieldStart \/ st = InPlain -> delimited rest ->
  csv_read st (p ++ rest)%string field row
  = csv_read InPlain rest (field ++ p)%string row.
Proof.
  revert field st. induction p as [|c p IH]; intros field st Hp Hst Hr.
  - simpl. rewrite append_empty_r.
    destruct Hst as [-> | ->]; [|reflexivity].
    destruct rest as [|c r]; [reflexivity|]. simpl in Hr.
    destruct Hr as [-> | ->]; reflexivity.
  - simpl in Hp. rewrite !andb_true_iff, !negb_true_iff in Hp.
    destruct Hp as [[[H1 H2] H3] H4].
    replace (field ++ String c p)%string
      with ((snoc_char field c) ++ p)%string
      by (unfold snoc_char; rewrite append_assoc; reflexivity).
    rewrite <- (IH (snoc_char field c) InPlain H4 (or_intror eq_refl) Hr).
    destruct Hst as [-> | ->]; simpl; rewrite H1, H2, H3; reflexivity.
Qed.

Lemma read_quoted (q rest field : string) (row : list string) :
  csv_read InQuoted (double_quotes q ++ String dquote rest)%string field row
  = csv_read AfterQuote rest (field ++ q)%string row.
Proof.
  revert field. induction q as [|c q IH]; intro field.
  - simpl. rewrite append_empty_r. reflexivity.
  - replace (field ++ String c q)%string
      with ((snoc_char field c) ++ q)%string
      by (unfold snoc_char; rewrite append_assoc; reflexivity).
    rewrite <- IH. simpl. destruct (Ascii.eqb c dquote) eqn:E.
    + apply Ascii.eqb_eq in E. subst c. simpl. reflexivity.
    + simpl. rewrite E. reflexivity.
Qed.

Lemma read_cell (c : cell) (rest : string) (row : list string) :
  cell_ok c -> delimited rest ->
  csv_read FieldStart (render c ++ rest)%string "" row
  = match rest with
    | EmptyString => Some [row ++ [content c]]
    | String d more =>
        if Ascii.eqb d comma
        then csv_read FieldStart more "" (row ++ [content c])
        else end_record row (content c) (csv_read FieldStart more "" [])
    end.
Proof.
  intros Hc Hr. destruct c as [p | q]; simpl in *.
  - rewrite (read_plain p rest "" row FieldStart Hc (or_introl eq_refl) Hr).
    simpl. destruct rest as [|d more]; [reflexivity|]. simpl in Hr.
    destruct Hr as [-> | ->]; reflexivity.
  - unfold DataTools.quoted. simpl. rewrite append_assoc. simpl.
    rewrite read_quoted. simpl.
    destruct rest as [|d more]; [reflexivity|]. simpl in Hr.
    destruct Hr as [-> | ->]; reflexivity.
Qed.

Lemma read_line (cells : list cell) (tail : string) (row : list string) :
  cells <> [] -> Forall cell_ok cells -> after_line tail ->
  csv_read FieldStart (join "," (map render cells) ++ tail)%string "" row
  = finish (row ++ map content cells) tail.
Proof.
  intros Hne Hok Ht. revert row.
  induction Hok as [|c cells Hc Hok IH]; [congruence|]. intro row.
  destruct cells as [|c' cells].
  - simpl. rewrite read_cell; [|assumption|].
    + destruct Ht as [-> | [more ->]]; reflexivity.
    + destruct Ht as [-> | [more ->]]; simpl; auto.
  - change (join "," (map render (c :: c' :: cells)))
      with (render c ++ String comma (join "," (map render (c' :: cells))))%string.
    rewrite append_assoc. simpl String.append.
    rewrite read_cell; [|assumption|simpl; auto].
    rewrite Ascii.eqb_refl.
    rewrite (IH ltac:(discriminate)).
    simpl. rewrite <- app_assoc. reflexivity.
Qed.

Lemma read_lines (first : list cell) (lines : list (list cell)) :
  Forall (fun l => l <> [] /\ Forall cell_ok l) (first :: lines) ->
  csv_parse
    (join (String line_feed "")
       (map (fun l => join "," (map render l)) (first :: lines)))
  = Some (map (map content) (first :: lines)).
Proof.
  unfold csv_parse. revert first.
  induction lines as [|next lines IH]; intros first H.
  - inversion H as [|? ? [Hne Hok] _]; subst.
    change (join (String line_feed "")
              (map (fun l => join "," (map render l)) [first]))
      with (join "," (map render first)).
    replace (join "," (map render first))
      with (join "," (map render first) ++ "")%string
      by apply append_empty_r.
    rewrite (read_line first "" [] Hne Hok (or_introl eq_refl)).
    reflexivity.
  - inversion H as [|? ? [Hne Hok] Hrest]; subst.
    change (join (String line_feed "")
              (map (fun l => join "," (map render l))
                 (first :: next :: lines)))
      with (join "," (map render first)
            ++ String line_feed
                 (join (String line_feed "")
                    (map (fun l => join "," (map render l))
                       (next :: lines))))%string.
    rewrite (read_line first _ [] Hne Hok
               (or_intror (ex_intro _ _ eq_refl))).
    unfold finish. rewrite (IH next Hrest). reflexivity.
Qed.

Lemma plain_uint (d : Decimal.uint) :
  plain (NilEmpty.string_of_uint d) = true.
Proof. induction d; simpl; auto. Qed.

Lemma plain_string_of_Z (z : Z) : plain (string_of_Z z) = true.
Proof.
  unfold string_of_Z, NilZero.string_of_int, NilZero.string_of_uint.
  destruct (Z.to_int z) as [d | d]; destruct d;
    first [reflexivity | apply plain_uint | simpl; apply plain_uint].
Qed.

Lemma digit_plain (c : ascii) (n : Z) :
  digit_of c = Some n -> plain (String c "") = true.
Proof.
  destruct c as [[] [] [] [] [] [] [] []]; vm_compute; congruence.
Qed.

Lemma dash_plain (c : ascii) :
  Ascii.eqb c "-" = true -> plain (String c "") = true.
Proof. intro H. apply Ascii.eqb_eq in H. subst c. reflexivity. Qed.

Lemma plain_cons (c : ascii) (s : string) :
  plain (String c "") = true -> plain s = true -> plain (String c s) = true.
Proof.
  simpl. rewrite !andb_true_iff. intros [H _] Hs. auto.
Qed.

(** A date string that names a day of the calendar holds digits and
    dashes only, so the export may write it unquoted. *)
Lemma valid_date_plain (t : Transaction) :
  valid_date t -> plain (date t) = true.
Proof.
  unfold valid_date, parse_ymd. generalize (date t). intro s.
  do 10 (destruct s as [|? s]; [congruence|]).
  destruct s; [|congruence].
  repeat match goal with
  | |- context [match digit_of ?c with _ => _ end] =>
      let E := fresh "E" in
      destruct (digit_of c) eqn:E; [apply digit_plain in E | congruence]
  end.
  match goal with
  | |- (if ?c then _ else _) <> _ -> _ => destruct c eqn:Ec; [|congruence]
  end.
  intros _. rewrite !andb_true_iff in Ec.
  destruct Ec as [[[[[D1 D2] _] _] _] _].
  apply dash_plain in D1, D2.
  repeat (apply plain_cons; [assumption|]). reflexivity.
Qed.

Lemma plain_type_string (ty : TxType) : plain (type_string ty) = true.
Proof. destruct ty; reflexivity. Qed.

Lemma or_empty_id (s : string) : DataTools.or_empty s = s.
Proof. destruct s; reflexivity. Qed.

(** C8. The export writes the filtered, sorted view as delimited text, a
    header line and one line per transaction with the columns id, date,
    amount, type, reason, description in that order; reason and description
    are quoted with their double quotes doubled, so a standard reader gets
    back every field of every record exactly, whatever characters the reason
    and the description hold (commas, double quotes, line feeds). The date
    and the printed amount, which are written unquoted, are taken to hold no
    comma, double quote or line feed. *)
Theorem export_round_trip (Number_toString : Q -> string)
    (ts : list Transaction) (st : DataTools.FilterState) (now : Clock) :
  let view := DataTools.filteredTransactions ts st now in
  Forall (fun t => plain (date t) = true
                   /\ plain (Number_toString (amount t)) = true) view ->
  csv_parse (DataTools.csvContent Number_toString view)
  = Some (DataTools.headers :: map (columns Number_toString) view).
Proof.
  intros view Hview.
  assert (E : DataTools.csvContent Number_toString view
              = join (String line_feed "")
                  (map (fun l => join "," (map render l))
                     (map Plain DataTools.headers
                      :: map (cells_of Number_toString) view))).
  { unfold DataTools.csvContent. rewrite map_cons. f_equal. f_equal.
    rewrite map_map. apply map_ext. reflexivity. }
  rewrite E, read_lines.
  - f_equal. rewrite map_cons. f_equal. rewrite map_map.
    apply map_ext. intro t. unfold cells_of, columns. simpl.
    rewrite or_empty_id. reflexivity.
  - constructor.
    + split; [discriminate|]. repeat constructor.
    + rewrite Forall_map. eapply Forall_impl; [|exact Hview].
      intros t [Hd Ha]. split; [discriminate|].
      unfold cells_of. repeat constructor; simpl; auto.
      * apply plain_string_of_Z.
      * apply plain_type_string.
Qed.

(* ===================================================================== *)
(** * The route *)
(* ===================================================================== *)

Lemma ensureInit_rows (w : Route.World) :
  Route.rows (fst (Route.ensureInit w)) = Route.rows w.
Proof.
  unfold Route.ensureInit, Route.initDb, Route.bind, Route.db_execute,
    Route.ret.
  destruct (Route.initialized w); simpl; [reflexivity|].
  destruct (Route.db_error w Route.CreateTable); reflexivity.
Qed.

Lemma ensureInit_works (w : Route.World) :
  db_works w ->
  exists w', Route.ensureInit w = (w', inr tt)
             /\ Route.rows w' = Route.rows w
             /\ Route.last_id w' = Route.last_id w
             /\ Route.db_now w' = Route.db_now w
             /\ Route.db_error w' = Route.db_error w.
Proof.
  intro H. unfold Route.ensureInit, Route.initDb, Route.bind,
    Route.db_execute, Route.ret.
  destruct (Route.initialized w); simpl.
  - exists w. auto.
  - rewrite H. simpl. eexists. split; [reflexivity|]. simpl. auto.
Qed.

(** The type check of [POST] stands before the only statement that writes,
    so a body of type saved changes no row and gets no 201. *)
Lemma POST_saved_no_insert (w : Route.World) (d a r desc : Route.jsval) :
  let body := Route.mkBody d a (Route.JStr "saved") r desc in
  Route.rows (fst (Route.POST body w)) = Route.rows w
  /\ (Route.status (snd (Route.POST body w)) = 400
      \/ Route.status (snd (Route.POST body w)) = 500).
Proof.
  intro body. unfold Route.POST, Route.run, Route.try_catch, Route.bind.
  pose proof (ensureInit_rows w) as Hr.
  destruct (Route.ensureInit w) as [w1 [e | []]]; simpl in *.
  - auto.
  - destruct (Route.falsy d || Route.is_undefined a || false
              || Route.falsy r); simpl; [auto|].
    destruct (isNaN (Route.parseFloat a) || num_le0 (Route.parseFloat a));
      simpl; auto.
Qed.

(** C1. The route turns away the type saved: for every world and every
    body of type saved, [POST] inserts no row and answers 400 or 500; the
    saved request, with all fields valid, gets status 400 and the message
    that the type must be income or expense, although the CHECK constraint
    of the table admits saved. *)
Theorem POST_rejects_saved (w : Route.World) (d a r desc : Route.jsval) :
  (Route.rows
     (fst (Route.POST (Route.mkBody d a (Route.JStr "saved") r desc) w))
   = Route.rows w
   /\ (Route.status
         (snd (Route.POST (Route.mkBody d a (Route.JStr "saved") r desc) w))
       = 400
       \/ Route.status
            (snd (Route.POST (Route.mkBody d a (Route.JStr "saved") r desc)
                    w))
          = 500))
  /\ snd (Route.POST saved_request fresh_world)
     = Route.mkResponse
         (Route.ErrorBody "Type must be 'income' or 'expense'") 400
  /\ Route.rows (fst (Route.POST saved_request fresh_world)) = []
  /\ Route.type_check (Route.JStr "saved") = true.
Proof.
  split; [apply POST_saved_no_insert|].
  split; [vm_compute; reflexivity|].
  split; reflexivity.
Qed.

(** When the client does not throw, [POST] answers 201 exactly for the
    bodies that pass its three checks, and 400 for the others. *)
Lemma POST_accepts_iff (w : Route.World) (body : Route.Body) :
  db_works w ->
  Route.status (snd (Route.POST body w)) = 201 <->
  (Route.falsy (Route.date body) = false
   /\ Route.is_undefined (Route.amount body) = false
   /\ Route.falsy (Route.type body) = false
   /\ Route.falsy (Route.reason body) = false)
  /\ (isNaN (Route.parseFloat (Route.amount body)) = false
      /\ num_le0 (Route.parseFloat (Route.amount body)) = false)
  /\ Route.includes_val ["income"; "expense"] (Route.type body) = true.
Proof.
  intro H. destruct (ensureInit_works w H) as [w1 [E [_ [_ [_ He]]]]].
  unfold Route.POST, Route.run, Route.try_catch, Route.bind. rewrite E.
  destruct (Route.falsy (Route.date body)); simpl;
    [split; [discriminate | intros [[? _] _]; discriminate]|].
  destruct (Route.is_undefined (Route.amount body)); simpl;
    [split; [discriminate | intros [[_ [? _]] _]; discriminate]|].
  destruct (Route.falsy (Route.type body)); simpl;
    [split; [discriminate | intros [[_ [_ [? _]]] _]; discriminate]|].
  destruct (Route.falsy (Route.reason body)); simpl;
    [split; [discriminate | intros [[_ [_ [_ ?]]] _]; discriminate]|].
  destruct (isNaN (Route.parseFloat (Route.amount body))); simpl;
    [split; [discriminate | intros [_ [[? _] _]]; discriminate]|].
  destruct (num_le0 (Route.parseFloat (Route.amount body))); simpl;
    [split; [discriminate | intros [_ [[_ ?] _]]; discriminate]|].
  destruct (Route.includes_val ["income"; "expense"] (Route.type body))
    eqn:Ety; simpl;
    [|split; [discriminate | intros [_ [_ ?]]; discriminate]].
  unfold Route.db_execute. rewrite He, H.
  assert (Hck : Route.type_check (Route.type body) = true).
  { unfold Route.type_check. destruct (Route.type body); simpl in *;
      try discriminate.
    rewrite !orb_true_iff in *. tauto. }
  rewrite Hck. simpl. split; [auto | reflexivity].
Qed.

Lemma filter_all {A : Type} (f : A -> bool) (l : list A) :
  (forall x, In x l -> f x = true) -> filter f l = l.
Proof.
  induction l as [|x l IH]; simpl; intro H; [reflexivity|].
  rewrite (H x (or_introl eq_refl)). f_equal. apply IH. auto.
Qed.


(* ===================================================================== *)
(** * Worked examples *)
(* ===================================================================== *)

Example march_example_balance :
  Home.balanceLiquid march_example = 400%Q.
Proof. reflexivity. Qed.

Example march_example_group :
  map (fun e => (fst e, Home.total (snd e)))
    (Home.group_by_month march_example)
  = [("March 2024", 400%Q)].
Proof. reflexivity. Qed.

Example sample_groups_all_months :
  map fst (Home.groupedTransactions sample_transactions true sample_clock)
  = ["April 2024"; "March 2024"; "February 2024"].
Proof. reflexivity. Qed.

Example sample_groups_current_month :
  map fst (Home.groupedTransactions sample_transactions false sample_clock)
  = ["March 2024"].
Proof. reflexivity. Qed.

Example sample_sorted_by_amount :
  map id
    (DataTools.filteredTransactions sample_transactions sample_filter
       sample_clock)
  = [4; 5; 3; 2; 1].
Proof. reflexivity. Qed.

Example sample_runway_without_expense :
  option_map DataToolsV1.runway
    (DataToolsV1.insights
       [mkTransaction 1 "2024-03-01" 1000 income "Salary" "" ""] sample_clock)
  = Some (DataToolsV1.Str "∞").
Proof. reflexivity. Qed.

Example parseFloat_examples :
  parseFloat_string "200" = Fin 200
  /\ parseFloat_string "abc" = NaN
  /\ parseFloat_string "" = NaN
  /\ parseFloat_string "-5" = Fin (-5)
  /\ parseFloat_string "Infinity" = PosInf.
Proof. repeat split; reflexivity. Qed.

Example parseInt_examples :
  parseInt "42" = Some 42 /\ parseInt "abc" = None
  /\ parseInt "12px" = Some 12 /\ parseInt "0x1F" = Some 31.
Proof. repeat split; reflexivity. Qed.

Example POST_income_is_accepted :
  snd (Route.POST
         (Route.mkBody (Route.JStr "2024-03-02") (Route.JStr "200")
            (Route.JStr "income") (Route.JStr "Bonus") Route.JUndefined)
         fresh_world)
  = Route.mkResponse (Route.CreatedBody 1 "Transaction added") 201.
Proof. reflexivity. Qed.

Example export_of_fancy_lunch :
  csv_parse
    (DataTools.csv_line integer_toString
       (mkTransaction 2 "2024-03-02" 400 expense fancy_lunch "" ""))
  = Some [["2"; "2024-03-02"; "400"; "expense"; fancy_lunch; ""]].
Proof. reflexivity. Qed.

(** At 20:00 UTC on 1 March 2024 it is 2 March, 03:00, at UTC+7: the local
    day of the month is 2, and the spark line ends on the UTC day. *)
Example spark_line_ends_on_utc_day :
  let evening := mkClock 1709323200000 25200000 in
  getDate evening = 2
  /\ option_map (fun i => map DataTools.day_date (DataTools.last7Days i))
       (DataTools.page_insights march_example sample_filter evening)
     = Some ["2024-02-24"; "2024-02-25"; "2024-02-26"; "2024-02-27";
             "2024-02-28"; "2024-02-29"; "2024-03-01"].
Proof. split; reflexivity. Qed.

Example invalid_dates :
  parse_ymd "2024-02-29" = Some (2024, 2, 29)
  /\ parse_ymd "2023-02-29" = None
  /\ parse_ymd "2024-3-1" = None
  /\ Home.getMonthYear "yesterday" = "Invalid Date".
Proof. repeat split; reflexivity. Qed.

(* ===================================================================== *)
(** * The theorems on the sample data *)
(* ===================================================================== *)

Lemma month_groups_descending_sample :
  Forall valid_date sample_transactions
  /\ StronglySorted first_not_earlier
       (Home.groupedTransactions sample_transactions true sample_clock)
  /\ StronglySorted later_month
       (Home.groupedTransactions sample_transactions true sample_clock).
Proof.
  assert (H : Forall valid_date sample_transactions)
    by (repeat constructor; vm_compute; discriminate).
  exact (conj H (month_groups_descending sample_transactions true
                   sample_clock H)).
Defined.






Lemma export_round_trip_sample :
  Forall (fun t => plain (date t) = true
                   /\ plain (integer_toString (amount t)) = true)
    (DataTools.filteredTransactions sample_transactions sample_filter
       sample_clock)
  /\ csv_parse
       (DataTools.csvContent integer_toString
          (DataTools.filteredTransactions sample_transactions sample_filter
             sample_clock))
     = Some
         (DataTools.headers
          :: map (columns integer_toString)
               (DataTools.filteredTransactions sample_transactions
                  sample_filter sample_clock)).
Proof.
  assert (H : Forall (fun t => plain (date t) = true
                               /\ plain (integer_toString (amount t)) = true)
                (DataTools.filteredTransactions sample_transactions
                   sample_filter sample_clock))
    by (vm_compute; repeat constructor).
  exact (conj H (export_round_trip integer_toString sample_transactions
                   sample_filter sample_clock H)).
Defined.


(* ===================================================================== *)
(** * More about the route *)
(* ===================================================================== *)

Lemma passes_checks_dec (body : Route.Body) :
  passes_checks body \/ ~ passes_checks body.
Proof.
  unfold passes_checks.
  destruct (Route.falsy (Route.date body)),
    (Route.is_undefined (Route.amount body)),
    (Route.falsy (Route.type body)), (Route.falsy (Route.reason body)),
    (isNaN (Route.parseFloat (Route.amount body))),
    (num_le0 (Route.parseFloat (Route.amount body))),
    (Route.includes_val ["income"; "expense"] (Route.type body));
    first [left; tauto | right; intuition discriminate].
Qed.

Lemma income_expense_checked (ty : Route.jsval) :
  Route.includes_val ["income"; "expense"] ty = true ->
  Route.type_check ty = true.
Proof.
  unfold Route.type_check. destruct ty; simpl; try discriminate.
  rewrite !orb_true_iff. tauto.
Qed.

(** What [POST] returns, case by case, when the client does not throw. *)
Lemma POST_cases (w : Route.World) (body : Route.Body) :
  db_works w ->
  (passes_checks body ->
   snd (Route.POST body w)
   = Route.mkResponse
       (Route.CreatedBody (Route.last_id w + 1) "Transaction added") 201
   /\ Route.rows (fst (Route.POST body w)) = Route.rows w ++ [row_of w body]
   /\ Route.last_id (fst (Route.POST body w)) = Route.last_id w + 1
   /\ Route.db_error (fst (Route.POST body w)) = Route.db_error w)
  /\ (~ passes_checks body ->
      Route.status (snd (Route.POST body w)) = 400
      /\ Route.rows (fst (Route.POST body w)) = Route.rows w
      /\ Route.last_id (fst (Route.POST body w)) = Route.last_id w
      /\ exists e, Route.payload (snd (Route.POST body w)) = Route.ErrorBody e).
Proof.
  intro H. destruct (ensureInit_works w H) as [w1 [E [Hr [Hl [Hn He]]]]].
  unfold passes_checks, row_of, Route.POST, Route.run, Route.try_catch,
    Route.bind. rewrite E.
  destruct (Route.falsy (Route.date body)); simpl;
    [split; [intros [[? _] _]; discriminate | intros _; repeat split; eauto]|].
  destruct (Route.is_undefined (Route.amount body)); simpl;
    [split; [intros [[_ [? _]] _]; discriminate | intros _; repeat split; eauto]|].
  destruct (Route.falsy (Route.type body)); simpl;
    [split; [intros [[_ [_ [? _]]] _]; discriminate | intros _; repeat split; eauto]|].
  destruct (Route.falsy (Route.reason body)); simpl;
    [split; [intros [[_ [_ [_ ?]]] _]; discriminate | intros _; repeat split; eauto]|].
  destruct (isNaN (Route.parseFloat (Route.amount body))); simpl;
    [split; [intros [_ [[? _] _]]; discriminate | intros _; repeat split; eauto]|].
  destruct (num_le0 (Route.parseFloat (Route.amount body))); simpl;
    [split; [intros [_ [[_ ?] _]]; discriminate | intros _; repeat split; eauto]|].
  destruct (Route.includes_val ["income"; "expense"] (Route.type body))
    eqn:Ety; simpl;
    [|split; [intros [_ [_ ?]]; discriminate | intros _; repeat split; eauto]].
  unfold Route.db_execute. rewrite He, H.
  rewrite (income_expense_checked _ Ety). simpl.
  rewrite Hr, Hl, Hn. split; [auto | intro Hc; exfalso; apply Hc; auto].
Qed.


Lemma ensureInit_fields (w : Route.World) :
  Route.rows (fst (Route.ensureInit w)) = Route.rows w
  /\ Route.last_id (fst (Route.ensureInit w)) = Route.last_id w
  /\ Route.db_error (fst (Route.ensureInit w)) = Route.db_error w
  /\ Route.db_now (fst (Route.ensureInit w)) = Route.db_now w.
Proof.
  unfold Route.ensureInit, Route.initDb, Route.bind, Route.db_execute,
    Route.ret.
  destruct (Route.initialized w); simpl; [auto|].
  destruct (Route.db_error w Route.CreateTable); simpl; auto.
Qed.

(** What a statement does to the table, whether or not the client
    throws. *)
Lemma db_execute_insert (w : Route.World) (d : Route.jsval) (a : number)
    (ty r desc : Route.jsval) :
  let st := Route.Insert d a ty r desc in
  (exists n,
     Route.db_execute st w
     = (Route.set_table w
          (Route.rows w ++ [Route.mkRow (Route.last_id w + 1) d a ty r desc
                              (Route.db_now w)])
          (Route.last_id w + 1), inr n))
  \/ (exists e, Route.db_execute st w = (w, inl e)).
Proof.
  unfold Route.db_execute.
  destruct (Route.db_error w _); [right; eexists; reflexivity|].
  destruct (Route.type_check ty);
    [left | right]; eexists; reflexivity.
Qed.


Lemma filter_NoDup_map {A B : Type} (key : A -> B) (keep : A -> bool)
    (l : list A) :
  NoDup (map key l) -> NoDup (map key (filter keep l)).
Proof.
  intro ND. induction l as [|x l IH]; simpl; [constructor|].
  inversion ND as [|? ? Hx ND']; subst.
  destruct (keep x); simpl; [|auto]. constructor; [|auto].
  intro H. apply Hx. apply in_map_iff in H. destruct H as [y [E Hy]].
  apply filter_In in Hy. rewrite <- E. apply in_map. tauto.
Qed.

(** X3. Both handlers keep the ids of the table distinct and at most the
    counter, whatever the request and whatever the client does; so the id
    [POST] hands out is always new. *)
Theorem ids_stay_fresh (w : Route.World) :
  ids_fresh w ->
  (forall body, ids_fresh (fst (Route.POST body w)))
  /\ (forall id, ids_fresh (fst (Route.DELETE id w)))
  /\ ~ In (Route.last_id w + 1) (map Route.row_id (Route.rows w)).
Proof.
  intros [Hnd Hle].
  assert (Hnew : ~ In (Route.last_id w + 1) (map Route.row_id (Route.rows w))).
  { intro H. apply in_map_iff in H. destruct H as [r [E Hr]].
    rewrite Forall_forall in Hle. specialize (Hle r Hr). lia. }
  destruct (ensureInit_fields w) as [Er [El [Ee En]]].
  split; [|split; [|exact Hnew]].
  - intro body. unfold Route.POST, Route.run, Route.try_catch, Route.bind.
    destruct (Route.ensureInit w) as [w1 [e | []]]; simpl in *;
      [unfold ids_fresh; rewrite Er, El; auto|].
    assert (Hsame : ids_fresh w1)
      by (unfold ids_fresh; rewrite Er, El; auto).
    destruct (Route.falsy (Route.date body) || Route.is_undefined (Route.amount body)
              || Route.falsy (Route.type body) || Route.falsy (Route.reason body));
      simpl; [exact Hsame|].
    destruct (isNaN (Route.parseFloat (Route.amount body))
              || num_le0 (Route.parseFloat (Route.amount body)));
      simpl; [exact Hsame|].
    destruct (negb (Route.includes_val ["income"; "expense"] (Route.type body)));
      simpl; [exact Hsame|].
    unfold Route.db_execute.
    destruct (Route.db_error w1 _); simpl; [exact Hsame|].
    destruct (Route.type_check (Route.type body)); simpl; [|exact Hsame].
    unfold ids_fresh. simpl. rewrite Er, El. split.
    + rewrite map_app. simpl.
      eapply Permutation_NoDup; [apply Permutation_cons_append|].
      constructor; assumption.
    + apply Forall_app. split.
      * eapply Forall_impl; [|exact Hle]. simpl. intros; lia.
      * constructor; [simpl; lia | constructor].
  - intro id. unfold Route.DELETE, Route.run, Route.try_catch, Route.bind.
    destruct (Route.ensureInit w) as [w1 [e | []]]; simpl in *;
      [unfold ids_fresh; rewrite Er, El; auto|].
    assert (Hsame : ids_fresh w1)
      by (unfold ids_fresh; rewrite Er, El; auto).
    destruct id as [[|c s]|]; simpl; try exact Hsame.
    unfold Route.db_execute.
    destruct (Route.db_error w1 _); simpl; [exact Hsame|].
    unfold ids_fresh. simpl. rewrite Er, El. split.
    + apply filter_NoDup_map. assumption.
    + rewrite Forall_forall in *. intros r Hr. apply filter_In in Hr.
      apply Hle. tauto.
Qed.

Lemma positive_amount (a : number) :
  isNaN a || num_le0 a = false -> num_gt0 a = true.
Proof.
  destruct a as [|q| |]; unfold isNaN, num_le0, num_gt0; cbn [orb];
    try discriminate; try reflexivity.
  destruct (q ?= 0)%Q; congruence.
Qed.

(** X4. Every row the route stores has a date and a reason that are not
    falsy, an amount above zero and the type income or expense: if the
    table holds only such rows, it still does after any [POST] and any
    [DELETE], whatever the client does. So a row of type saved, which the
    table itself allows, never comes from the route. *)
Theorem rows_stay_as_checked (w : Route.World) :
  Forall stored_by_route (Route.rows w) ->
  (forall body, Forall stored_by_route (Route.rows (fst (Route.POST body w))))
  /\ (forall id, Forall stored_by_route (Route.rows (fst (Route.DELETE id w))))
  /\ (forall r, stored_by_route r -> Route.row_type r <> Route.JStr "saved").
Proof.
  intro Hrows.
  destruct (ensureInit_fields w) as [Er [El [Ee En]]].
  split; [|split].
  - intro body. unfold Route.POST, Route.run, Route.try_catch, Route.bind.
    destruct (Route.ensureInit w) as [w1 [e | []]]; cbn [fst snd] in *;
      [cbn; rewrite Er; exact Hrows|].
    destruct (Route.falsy (Route.date body)) eqn:Ed;
      [cbn; rewrite Er; exact Hrows|].
    destruct (Route.is_undefined (Route.amount body)) eqn:Ea;
      [cbn; rewrite Er; exact Hrows|].
    destruct (Route.falsy (Route.type body)) eqn:Et;
      [cbn; rewrite Er; exact Hrows|].
    destruct (Route.falsy (Route.reason body)) eqn:Ere;
      [cbn; rewrite Er; exact Hrows|].
    cbn [orb].
    destruct (isNaN (Route.parseFloat (Route.amount body))
              || num_le0 (Route.parseFloat (Route.amount body))) eqn:Eam;
      [cbn; rewrite Er; exact Hrows|].
    destruct (Route.includes_val ["income"; "expense"] (Route.type body))
      eqn:Ety; cbn [negb]; [|cbn; rewrite Er; exact Hrows].
    unfold Route.db_execute.
    destruct (Route.db_error w1 _); [cbn; rewrite Er; exact Hrows|].
    rewrite (income_expense_checked _ Ety).
    cbn [fst snd Route.ret Route.rows Route.set_table].
    rewrite Er. apply Forall_app. split; [exact Hrows|].
    constructor; [|constructor].
    unfold stored_by_route.
    cbn [Route.row_date Route.row_reason Route.row_amount Route.row_type
         Route.row_description].
    split; [exact Ed|]. split; [exact Ere|].
    split; [apply positive_amount; exact Eam|]. split.
    + destruct (Route.type body) as [| | |?|s]; cbn in Ety;
        try discriminate.
      rewrite !orb_true_iff in Ety.
      destruct Ety as [E | [E | E]]; [| |discriminate];
        apply String.eqb_eq in E; subst s; auto.
    + destruct (Route.description body); cbn; split; discriminate.
  - intro id. unfold Route.DELETE, Route.run, Route.try_catch, Route.bind.
    destruct (Route.ensureInit w) as [w1 [e | []]]; cbn [fst snd] in *;
      [cbn; rewrite Er; exact Hrows|].
    destruct id as [[|c s]|]; cbn [truthy negb];
      try (cbn; rewrite Er; exact Hrows).
    unfold Route.db_execute.
    destruct (Route.db_error w1 _); [cbn; rewrite Er; exact Hrows|].
    cbn [fst snd Route.ret Route.rows Route.set_table].
    rewrite Er. apply Forall_filter_keep. exact Hrows.
  - intros r [_ [_ [_ [[E | E] _]]]]; rewrite E; discriminate.
Qed.

(* ===================================================================== *)
(** * Integers written in decimal and read back *)
(* ===================================================================== *)

Lemma read_digits_uint (d : Decimal.uint) (acc : Z) (n : nat) :
  read_digits digit_of 10 (DecimalString.NilEmpty.string_of_uint d) acc n
  = (uint_val d acc, (n + Decimal.nb_digits d)%nat, "").
Proof.
  revert acc n.
  induction d; intros acc n; cbn [DecimalString.NilEmpty.string_of_uint
    read_digits uint_val Decimal.nb_digits];
    [rewrite Nat.add_0_r; reflexivity | ..];
    match goal with
    | |- context [digit_of ?c] =>
        let v := eval vm_compute in (digit_of c) in
        change (digit_of c) with v
    end;
    cbv beta iota; rewrite IHd, ?Z.add_0_r, ?Nat.add_succ_r; reflexivity.
Qed.

Lemma of_uint_acc_val (d : Decimal.uint) (acc : positive) :
  Z.pos (Pos.of_uint_acc d acc) = uint_val d (Z.pos acc).
Proof.
  revert acc. induction d; intro acc; cbn [Pos.of_uint_acc uint_val];
    [reflexivity | ..]; rewrite IHd; f_equal; lia.
Qed.

Lemma of_uint_val (d : Decimal.uint) : Z.of_uint d = uint_val d 0.
Proof.
  unfold Z.of_uint.
  induction d; cbn [Pos.of_uint uint_val]; [reflexivity | ..];
    try (cbn [Z.of_N]; rewrite of_uint_acc_val; reflexivity).
  exact IHd.
Qed.

(** A string that starts with a decimal digit not followed by [x] is read
    in decimal from its first character. *)
Lemma parseInt_digits (d : Decimal.uint) :
  d <> Decimal.Nil ->
  parseInt (DecimalString.NilEmpty.string_of_uint d) = Some (uint_val d 0)
  /\ parseInt (String "-" (DecimalString.NilEmpty.string_of_uint d))
     = Some (- uint_val d 0).
Proof.
  intro Hd.
  assert (Hn : Nat.eqb (0 + Decimal.nb_digits d) 0 = false).
  { destruct d; try reflexivity. congruence. }
  assert (Hdec :
    match DecimalString.NilEmpty.string_of_uint d with
    | String "0" (String x r) =>
        if (Ascii.eqb x "x" || Ascii.eqb x "X")%bool
        then read_digits hex_digit_of 16 r 0 0%nat
        else read_digits digit_of 10
               (DecimalString.NilEmpty.string_of_uint d) 0 0%nat
    | _ => read_digits digit_of 10
             (DecimalString.NilEmpty.string_of_uint d) 0 0%nat
    end
    = read_digits digit_of 10 (DecimalString.NilEmpty.string_of_uint d)
        0 0%nat).
  { destruct d; try reflexivity.
    destruct d; reflexivity. }
  split.
  - unfold parseInt.
    replace (skip_ws (DecimalString.NilEmpty.string_of_uint d))
      with (DecimalString.NilEmpty.string_of_uint d)
      by (destruct d; try reflexivity; congruence).
    replace (read_sign (DecimalString.NilEmpty.string_of_uint d))
      with (false, DecimalString.NilEmpty.string_of_uint d)
      by (destruct d; try reflexivity; congruence).
    cbv beta iota zeta. rewrite Hdec, read_digits_uint, Hn. reflexivity.
  - unfold parseInt.
    change (skip_ws (String "-" (DecimalString.NilEmpty.string_of_uint d)))
      with (String "-" (DecimalString.NilEmpty.string_of_uint d)).
    change (read_sign (String "-" (DecimalString.NilEmpty.string_of_uint d)))
      with (true, DecimalString.NilEmpty.string_of_uint d).
    cbv beta iota zeta. rewrite Hdec, read_digits_uint, Hn. reflexivity.
Qed.

Lemma parseInt_roundtrip (n : Z) : parseInt (string_of_Z n) = Some n.
Proof.
  unfold string_of_Z.
  destruct n as [|p|p].
  - reflexivity.
  - assert (Hp : Pos.to_uint p <> Decimal.Nil).
    { intro E. pose proof (DecimalZ.of_to (Z.pos p)) as H.
      cbn [Z.to_int Z.of_int] in H. rewrite E in H. discriminate. }
    cbn [Z.to_int DecimalString.NilZero.string_of_int].
    unfold DecimalString.NilZero.string_of_uint.
    destruct (Pos.to_uint p) eqn:E; [congruence | ..];
      rewrite <- E in *;
      (replace (DecimalString.NilEmpty.string_of_uint _)
         with (DecimalString.NilEmpty.string_of_uint (Pos.to_uint p))
         by (rewrite E; reflexivity));
      rewrite (proj1 (parseInt_digits _ Hp)), <- of_uint_val;
      f_equal; pose proof (DecimalZ.of_to (Z.pos p)) as H;
      cbn [Z.to_int Z.of_int] in H; exact H.
  - assert (Hp : Pos.to_uint p <> Decimal.Nil).
    { intro E. pose proof (DecimalZ.of_to (Z.pos p)) as H.
      cbn [Z.to_int Z.of_int] in H. rewrite E in H. discriminate. }
    cbn [Z.to_int DecimalString.NilZero.string_of_int].
    unfold DecimalString.NilZero.string_of_uint.
    destruct (Pos.to_uint p) eqn:E; [congruence | ..];
      rewrite <- E in *;
      (replace (DecimalString.NilEmpty.string_of_uint _)
         with (DecimalString.NilEmpty.string_of_uint (Pos.to_uint p))
         by (rewrite E; reflexivity));
      rewrite (proj2 (parseInt_digits _ Hp)), <- of_uint_val;
      f_equal; pose proof (DecimalZ.of_to (Z.pos p)) as H;
      cbn [Z.to_int Z.of_int] in H; rewrite H; reflexivity.
Qed.

(* ===================================================================== *)
(** * The page and the route together *)
(* ===================================================================== *)

Lemma string_of_Z_truthy (n : Z) : truthy (string_of_Z n) = true.
Proof.
  destruct (string_of_Z n) eqn:E; [|reflexivity].
  pose proof (parseInt_roundtrip n) as H. rewrite E in H. discriminate.
Qed.

Lemma DELETE_known_id (w : Route.World) (n : Z) :
  db_works w ->
  snd (Route.DELETE (Some (string_of_Z n)) w)
  = Route.mkResponse (Route.MessageBody "Transaction deleted") 200
  /\ Route.rows (fst (Route.DELETE (Some (string_of_Z n)) w))
     = without_id n (Route.rows w)
  /\ Route.last_id (fst (Route.DELETE (Some (string_of_Z n)) w))
     = Route.last_id w
  /\ Route.db_error (fst (Route.DELETE (Some (string_of_Z n)) w))
     = Route.db_error w.
Proof.
  intro H. destruct (ensureInit_works w H) as [w1 [E [Hr [Hl [Hn He]]]]].
  unfold Route.DELETE, Route.run, Route.try_catch, Route.bind. rewrite E.
  rewrite string_of_Z_truthy. cbn [negb].
  unfold Route.db_execute. rewrite He, H, parseInt_roundtrip.
  cbn [fst snd Route.ret Route.rows Route.last_id Route.set_table
       Route.db_error Route.id_matches].
  rewrite Hr, Hl. auto.
Qed.

Lemma without_id_twice (n : Z) (rs : list Route.Row) :
  without_id n (without_id n rs) = without_id n rs.
Proof.
  unfold without_id. induction rs as [|r rs IH]; [reflexivity|].
  cbn [filter]. destruct (negb (Route.row_id r =? n)) eqn:E; [|exact IH].
  cbn [filter]. rewrite E, IH. reflexivity.
Qed.

Lemma handleDelete_core (w : Route.World) (n : Z) :
  db_works w ->
  snd (Home.handleDelete n w) = None
  /\ Route.rows (fst (Home.handleDelete n w)) = without_id n (Route.rows w)
  /\ Route.last_id (fst (Home.handleDelete n w)) = Route.last_id w
  /\ db_works (fst (Home.handleDelete n w)).
Proof.
  intro H. unfold Home.handleDelete.
  destruct (DELETE_known_id w n H) as [Er [Hr [Hl He]]].
  destruct (Route.DELETE (Some (string_of_Z n)) w) as [w1 res] eqn:E1.
  cbn [fst snd] in *. subst res. cbn [Route.status].
  change (status_ok 200) with true. cbn [negb].
  split; [reflexivity|]. split; [exact Hr|]. split; [exact Hl|].
  intro st. rewrite He. apply H.
Qed.

(** X5. With a client that does not throw, [handleDelete] shows no error
    and removes from the table exactly the rows with the id of the button,
    keeping the others in their order and the counter as it was: the id
    survives being written into the query string and read back by
    [parseInt]. Deleting the same id again changes nothing. *)
Theorem handleDelete_removes_that_id (w : Route.World) (n : Z) :
  db_works w ->
  let w1 := fst (Home.handleDelete n w) in
  snd (Home.handleDelete n w) = None
  /\ Route.rows w1 = without_id n (Route.rows w)
  /\ (forall r, In r (Route.rows w1)
                <-> In r (Route.rows w) /\ Route.row_id r <> n)
  /\ Route.last_id w1 = Route.last_id w
  /\ Route.rows (fst (Home.handleDelete n w1)) = Route.rows w1.
Proof.
  intro H. cbv zeta.
  destruct (handleDelete_core w n H) as [Hn [Hr [Hl H1]]].
  destruct (handleDelete_core _ n H1) as [_ [Hr1 _]].
  split; [exact Hn|]. split; [exact Hr|]. split.
  - intro r. rewrite Hr. unfold without_id. rewrite filter_In.
    rewrite negb_true_iff, Z.eqb_neq. tauto.
  - split; [exact Hl|]. rewrite Hr1, Hr. apply without_id_twice.
Qed.

(** X6. A request that [POST] answers with a new id, followed by
    [handleDelete] on that id, leaves the table as it was before the two,
    provided the client does not throw and the ids of the table do not
    exceed the counter. *)
Theorem POST_then_handleDelete (w : Route.World) (body : Route.Body)
    (new_id : Z) (message : string) :
  db_works w ->
  ids_fresh w ->
  Route.payload (snd (Route.POST body w)) = Route.CreatedBody new_id message ->
  Route.rows (fst (Home.handleDelete new_id (fst (Route.POST body w))))
  = Route.rows w
  /\ snd (Home.handleDelete new_id (fst (Route.POST body w))) = None.
Proof.
  intros H [_ Hle] Hp.
  destruct (POST_cases w body H) as [Hyes Hno].
  destruct (passes_checks_dec body) as [Hc | Hc].
  2:{ exfalso. destruct (Hno Hc) as [_ [_ [_ [e He]]]]. congruence. }
  destruct (Hyes Hc) as [Er [Hr [Hl He]]].
  rewrite Er in Hp. cbn [Route.payload] in Hp. injection Hp as Hid _.
  subst new_id.
  assert (H1 : db_works (fst (Route.POST body w)))
    by (intro st; rewrite He; apply H).
  destruct (handleDelete_core (fst (Route.POST body w)) (Route.last_id w + 1) H1)
    as [Hnone [Hrows _]].
  split; [|exact Hnone]. rewrite Hrows, Hr. unfold without_id.
  rewrite filter_app. cbn [filter row_of Route.row_id].
  rewrite Z.eqb_refl. cbn [negb]. rewrite app_nil_r.
  apply filter_all. rewrite Forall_forall in Hle. intros r Hr'.
  specialize (Hle r Hr'). apply negb_true_iff, Z.eqb_neq. lia.
Qed.

Lemma type_string_truthy (ty : TxType) : truthy (type_string ty) = true.
Proof. destruct ty; reflexivity. Qed.


(* ===================================================================== *)
(** * More about the calendar *)
(* ===================================================================== *)

Lemma leap_year_period (y k : Z) : leap_year (y + k * 400) = leap_year y.
Proof.
  unfold leap_year.
  replace ((y + k * 400) mod 4) with (y mod 4) by (Z.div_mod_to_equations; lia).
  replace ((y + k * 400) mod 100) with (y mod 100) by (Z.div_mod_to_equations; lia).
  replace ((y + k * 400) mod 400) with (y mod 400) by (Z.div_mod_to_equations; lia).
  reflexivity.
Qed.

(** The month and the day of a day number are a month of the year and a
    day of that month. *)
Lemma civil_calendar (z : Z) :
  let '(y, m, d) := civil z in
  1 <= m <= 12 /\ 1 <= d <= days_in_month y m.
Proof.
  unfold civil.
  set (z' := z + 719468). set (era := z' / 146097). set (doe := z' mod 146097).
  set (yoe := (doe - doe / 1460 + doe / 36524 - doe / 146096) / 365).
  set (doy := doe - (365 * yoe + yoe / 4 - yoe / 100)).
  set (mp := (5 * doy + 2) / 153).
  assert (Hdoe : 0 <= doe < 146097) by (apply Z.mod_pos_bound; lia).
  assert (Hyoe : 0 <= yoe < 400). { unfold yoe. Z.div_mod_to_equations. lia. }
  assert (Hdoy : 0 <= doy < 366). { unfold doy, yoe. Z.div_mod_to_equations. lia. }
  assert (Hleap : doy = 365 -> leap_year (yoe + 1) = true).
  { unfold doy, yoe, leap_year. intro H.
    rewrite andb_true_iff, orb_true_iff, negb_true_iff, !Z.eqb_eq, Z.eqb_neq.
    Z.div_mod_to_equations. lia. }
  clearbody doy. clearbody yoe. clear Hdoe. clearbody era.
  assert (Hmp : 0 <= mp <= 11) by (unfold mp; Z.div_mod_to_equations; lia).
  assert (Hlo : (153 * mp + 2) / 5 <= doy) by (unfold mp; Z.div_mod_to_equations; lia).
  assert (Hhi : mp <= 10 -> doy < (153 * (mp + 1) + 2) / 5) by (unfold mp; Z.div_mod_to_equations; lia).
  clearbody mp.
  assert (Hc : mp = 0 \/ mp = 1 \/ mp = 2 \/ mp = 3 \/ mp = 4 \/ mp = 5 \/ mp = 6
               \/ mp = 7 \/ mp = 8 \/ mp = 9 \/ mp = 10 \/ mp = 11) by lia.
  destruct Hc as [-> | [-> | [-> | [-> | [-> | [-> | [-> | [-> | [-> | [-> | [-> | ->]]]]]]]]]]];
    match goal with
    | |- context [if ?k <? 10 then ?a else ?b] =>
        let v := eval vm_compute in (if k <? 10 then a else b) in
        change (if k <? 10 then a else b) with v
    end;
    match goal with
    | |- context [if ?k <=? 2 then 1 else 0] =>
        let v := eval vm_compute in (if k <=? 2 then 1 else 0) in
        change (if k <=? 2 then 1 else 0) with v
    end;
    unfold days_in_month; cbn [Z.eqb Pos.eqb orb];
    try (specialize (Hhi ltac:(lia)));
    try replace (yoe + era * 400 + 1) with (yoe + 1 + era * 400) by lia;
    rewrite ?leap_year_period;
    try (destruct (leap_year (yoe + 1)) eqn:EL);
    try (assert (doy <> 365) by (intro E365; specialize (Hleap E365); congruence));
    Z.div_mod_to_equations; lia.
Qed.

Lemma digit_of_digit_char (k : Z) :
  0 <= k <= 9 -> digit_of (digit_char k) = Some k.
Proof.
  intro H.
  assert (Hc : k = 0 \/ k = 1 \/ k = 2 \/ k = 3 \/ k = 4 \/ k = 5 \/ k = 6
               \/ k = 7 \/ k = 8 \/ k = 9) by lia.
  destruct Hc as [-> | [-> | [-> | [-> | [-> | [-> | [-> | [-> | [-> | ->]]]]]]]]];
    reflexivity.
Qed.

Lemma digit_char_of_digit (c : ascii) (k : Z) :
  digit_of c = Some k -> c = digit_char k.
Proof.
  destruct c as [[] [] [] [] [] [] [] []]; vm_compute; intro H;
    first [discriminate | injection H as <-; reflexivity].
Qed.

(** The date string of a day number in the years 0 to 9999 names that
    day. *)
Lemma parse_day_string (n y m d : Z) :
  civil n = (y, m, d) -> 0 <= y <= 9999 ->
  parse_ymd (day_string n) = Some (y, m, d).
Proof.
  intros E Hy. pose proof (civil_calendar n) as Hcal. rewrite E in Hcal.
  destruct Hcal as [Hm Hd].
  assert (Hd31 : d <= 31).
  { unfold days_in_month in Hd.
    destruct (m =? 2); [destruct (leap_year y); lia|].
    destruct ((m =? 4) || (m =? 6) || (m =? 9) || (m =? 11)); lia. }
  unfold day_string, toISOString_date. cbn [epoch_ms].
  rewrite Z.div_mul by (unfold msPerDay; lia). rewrite E.
  unfold iso_year.
  replace ((0 <=? y) && (y <=? 9999)) with true
    by (symmetry; apply andb_true_iff; split; apply Z.leb_le; lia).
  unfold pad4, pad2. cbn [append]. unfold parse_ymd.
  rewrite !digit_of_digit_char by (Z.div_mod_to_equations; lia).
  change (Ascii.eqb "-" "-") with true. cbn [andb].
  replace (1000 * (y / 1000) + 100 * (y / 100 mod 10)
           + 10 * (y mod 100 / 10) + y mod 100 mod 10) with y
    by (Z.div_mod_to_equations; lia).
  replace (10 * (m / 10) + m mod 10) with m by (Z.div_mod_to_equations; lia).
  replace (10 * (d / 10) + d mod 10) with d by (Z.div_mod_to_equations; lia).
  replace (1 <=? m) with true by (symmetry; apply Z.leb_le; lia).
  replace (m <=? 12) with true by (symmetry; apply Z.leb_le; lia).
  replace (1 <=? d) with true by (symmetry; apply Z.leb_le; lia).
  replace (d <=? days_in_month y m) with true
    by (symmetry; apply Z.leb_le; lia).
  reflexivity.
Qed.

(** A date string that names a day is the one the day is written as. *)
Lemma parse_ymd_text (s : string) (y m d : Z) :
  parse_ymd s = Some (y, m, d) ->
  s = (pad4 y ++ "-" ++ pad2 m ++ "-" ++ pad2 d)%string.
Proof.
  unfold parse_ymd.
  destruct s as [|y1 [|y2 [|y3 [|y4 [|c1 [|m1 [|m2 [|c2 [|d1 [|d2 [|? ?]]]]]]]]]]];
    try discriminate.
  destruct (digit_of y1) as [a|] eqn:E1; [|discriminate].
  destruct (digit_of y2) as [b|] eqn:E2; [|discriminate].
  destruct (digit_of y3) as [c|] eqn:E3; [|discriminate].
  destruct (digit_of y4) as [e|] eqn:E4; [|discriminate].
  destruct (digit_of m1) as [f|] eqn:E5; [|discriminate].
  destruct (digit_of m2) as [g|] eqn:E6; [|discriminate].
  destruct (digit_of d1) as [h|] eqn:E7; [|discriminate].
  destruct (digit_of d2) as [i|] eqn:E8; [|discriminate].
  pose proof (digit_of_range _ _ E1). pose proof (digit_of_range _ _ E2).
  pose proof (digit_of_range _ _ E3). pose proof (digit_of_range _ _ E4).
  pose proof (digit_of_range _ _ E5). pose proof (digit_of_range _ _ E6).
  pose proof (digit_of_range _ _ E7). pose proof (digit_of_range _ _ E8).
  apply digit_char_of_digit in E1, E2, E3, E4, E5, E6, E7, E8.
  set (yy := 1000 * a + 100 * b + 10 * c + e).
  set (mm := 10 * f + g). set (dd := 10 * h + i).
  destruct (Ascii.eqb c1 "-") eqn:Ec1; [|discriminate].
  destruct (Ascii.eqb c2 "-") eqn:Ec2; [|discriminate].
  apply Ascii.eqb_eq in Ec1, Ec2. cbn [andb].
  destruct ((1 <=? mm) && (mm <=? 12) && (1 <=? dd)
            && (dd <=? days_in_month yy mm)); [|discriminate].
  intro Hs. injection Hs as Hy Hm Hd.
  unfold pad4, pad2. cbn [append]. subst y m d c1 c2.
  replace (yy / 1000) with a by (unfold yy; Z.div_mod_to_equations; lia).
  replace (yy / 100 mod 10) with b by (unfold yy; Z.div_mod_to_equations; lia).
  replace (yy mod 100 / 10) with c by (unfold yy; Z.div_mod_to_equations; lia).
  replace (yy mod 100 mod 10) with e by (unfold yy; Z.div_mod_to_equations; lia).
  replace (mm / 10) with f by (unfold mm; Z.div_mod_to_equations; lia).
  replace (mm mod 10) with g by (unfold mm; Z.div_mod_to_equations; lia).
  replace (dd / 10) with h by (unfold dd; Z.div_mod_to_equations; lia).
  replace (dd mod 10) with i by (unfold dd; Z.div_mod_to_equations; lia).
  congruence.
Qed.

(* ===================================================================== *)
(** * More about the home page *)
(* ===================================================================== *)

Lemma pad_day (n : nat) :
  (n < 32)%nat ->
  padStart2 (string_of_Z (Z.of_nat n)) = pad2 (Z.of_nat n).
Proof.
  intro H.
  do 32 (destruct n as [|n]; [reflexivity|]). lia.
Qed.

Lemma days_in_month_le (y m : Z) : days_in_month y m <= 31.
Proof.
  unfold days_in_month.
  destruct (m =? 2); [destruct (leap_year y); lia|].
  destruct ((m =? 4) || (m =? 6) || (m =? 9) || (m =? 11)); lia.
Qed.


Lemma one_entry_per_key {V : Type} (k : string) (G : list (string * V)) :
  NoDup (map fst G) ->
  (filter (fun e => String.eqb (fst e) k) G = [] /\ ~ In k (map fst G))
  \/ (exists g, filter (fun e => String.eqb (fst e) k) G = [(k, g)]
                /\ In (k, g) G).
Proof.
  induction G as [|[k' g'] G IH]; intro ND; [left; split; auto|].
  inversion ND as [|? ? Hnew ND']; subst. cbn [filter fst map].
  destruct (String.eqb k' k) eqn:E.
  - apply String.eqb_eq in E. subst k'. right. exists g'.
    split; [|left; reflexivity]. f_equal.
    destruct (IH ND') as [[Hnil _] | [g [_ Hin]]]; [exact Hnil|].
    exfalso. apply Hnew. apply in_map_iff. exists (k, g). auto.
  - apply String.eqb_neq in E.
    destruct (IH ND') as [[Hnil Hout] | [g [Hone Hin]]].
    + left. split; [exact Hnil|]. cbn. intros [? | ?]; [congruence | auto].
    + right. exists g. split; [exact Hone | right; exact Hin].
Qed.

(** What the list shows when [showAllMonths] is off. *)
Lemma default_view (ts : list Transaction) (now : Clock) :
  let k := Home.currentMonthKey now in
  (members k ts = [] /\ Home.groupedTransactions ts false now = [])
  \/ (members k ts <> []
      /\ exists g,
           Home.groupedTransactions ts false now = [(k, g)]
           /\ Home.transactions g = members k ts
           /\ (Home.total g == net (members k ts))%Q).
Proof.
  cbv zeta. unfold Home.groupedTransactions, Home.currentMonthKey.
  cbn [negb].
  set (k := Home.getMonthYear (toISOString_date now)).
  set (G := Array_sort _ (Home.group_by_month ts)).
  assert (HP : partitions_by_month ts G).
  { apply partitions_by_month_perm with (G := Home.group_by_month ts).
    - symmetry. apply Array_sort_perm.
    - apply group_by_month_partitions. }
  destruct (one_entry_per_key k G (part_keys _ _ HP))
    as [[Hnil Hout] | [g [Hone Hin]]].
  - left. split; [|exact Hnil].
    destruct (members k ts) as [|t rest] eqn:Em; [reflexivity|]. exfalso.
    assert (Ht : In t (members k ts)) by (rewrite Em; left; reflexivity).
    unfold members in Ht. apply filter_In in Ht. destruct Ht as [Ht Hk].
    apply String.eqb_eq in Hk.
    assert (Hcov : In t (all_members G)).
    { eapply Permutation_in; [symmetry; apply (part_cover _ _ HP)|exact Ht]. }
    unfold all_members in Hcov. apply in_flat_map in Hcov.
    destruct Hcov as [[k' g'] [Hin' Hmem]]. cbn [snd] in Hmem.
    destruct (part_members _ _ HP k' g' Hin') as [Hms _].
    rewrite Hms in Hmem. unfold members in Hmem. apply filter_In in Hmem.
    destruct Hmem as [_ Hk']. apply String.eqb_eq in Hk'.
    apply Hout. apply in_map_iff. exists (k', g'). split; [|exact Hin'].
    cbn. congruence.
  - right. destruct (part_members _ _ HP k g Hin) as [Hms Hne].
    split; [rewrite <- Hms; exact Hne|]. exists g.
    split; [exact Hone|]. split; [exact Hms|].
    rewrite <- Hms. apply (part_total _ _ HP k g Hin).
Qed.


Lemma current_month_by_label (now : Clock) (t : Transaction) :
  utc_month_is_local now -> valid_date t ->
  in_current_month now t
  = String.eqb (month_key t) (Home.currentMonthKey now).
Proof.
  unfold utc_month_is_local, valid_date. intros Hnow Ht.
  destruct (civil (utc_day now)) as [[y m] d] eqn:Ec.
  destruct Hnow as [Hy [Hfy Hgm]].
  pose proof (parse_day_string _ _ _ _ Ec Hy) as Hp.
  pose proof (civil_calendar (utc_day now)) as Hcal. rewrite Ec in Hcal.
  destruct (parse_ymd (date t)) as [[[y' m'] d']|] eqn:Et; [|congruence].
  destruct (parse_ymd_calendar _ _ _ _ Et) as [_ [Hm' _]].
  unfold in_current_month, local_getMonth, local_getFullYear.
  rewrite Et, Hfy, Hgm.
  unfold month_key, Home.currentMonthKey, Home.getMonthYear,
    toLocaleDateString_month_year.
  rewrite Et.
  replace (toISOString_date now) with (day_string (utc_day now)).
  2:{ unfold day_string, utc_day, toISOString_date. cbn [epoch_ms].
      rewrite Z.div_mul by (unfold msPerDay; lia). reflexivity. }
  rewrite Hp.
  destruct (String.eqb _ _) eqn:E.
  - apply String.eqb_eq in E.
    apply month_label_inj in E; [|lia|lia]. destruct E as [-> ->].
    rewrite !Z.eqb_refl. reflexivity.
  - apply String.eqb_neq in E.
    destruct ((m' - 1 =? m - 1) && (y' =? y)) eqn:E2; [|reflexivity].
    apply andb_true_iff in E2. destruct E2 as [E2 E3].
    apply Z.eqb_eq in E2, E3. exfalso. apply E.
    replace m' with m by lia. subst y'. reflexivity.
Qed.

Lemma filter_same {A : Type} (f g : A -> bool) (l : list A) :
  Forall (fun x => f x = g x) l -> filter f l = filter g l.
Proof.
  induction 1 as [|x l Hx _ IH]; [reflexivity|].
  cbn [filter]. rewrite Hx, IH. reflexivity.
Qed.

Lemma flow_net (ts : list Transaction) (now : Clock) :
  (Home.monthlyIncome ts now - Home.monthlyExpense ts now
   == net (Home.monthlyFlow ts now))%Q.
Proof.
  unfold Home.monthlyIncome, Home.monthlyExpense, net.
  set (l := Home.monthlyFlow ts now).
  rewrite <- !total_of_sum_amount.
  rewrite !sum_amount_Qsum. unfold of_type.
  induction l as [|t l IH]; [reflexivity|].
  cbn [filter]. destruct (type t); cbn [TxType_eqb orb map Qsum fold_right];
    unfold Qsum in *; lra.
Qed.


(** At the clock between two months the Flow card adds up the local month
    and the list shows the UTC month. *)
Lemma flow_card_other_month :
  let t := mkTransaction 1 "2024-03-31" 100 expense "Rent" "" "" in
  Home.monthlyFlow [t] clock_between_months = [t]
  /\ Home.groupedTransactions [t] false clock_between_months = [].
Proof. vm_compute. split; reflexivity. Qed.

(* ===================================================================== *)
(** * More about the filters of the data tools *)
(* ===================================================================== *)

Lemma filter_if_nil (c : bool) (p : Transaction -> bool) :
  DataTools.filter_if c p [] = [].
Proof. destruct c; reflexivity. Qed.

Lemma filter_none {A : Type} (f : A -> bool) (l : list A) :
  (forall x, f x = false) -> filter f l = [].
Proof.
  intro H. induction l as [|x l IH]; [reflexivity|].
  cbn [filter]. rewrite H. exact IH.
Qed.

Lemma truthy_iff (s : string) : truthy s = true <-> s <> "".
Proof. destruct s; cbn; split; congruence. Qed.

(** X11. [resetFilters] leaves only the month filter: afterwards the page
    shows, in the sort order it had, all the transactions when
    [showAllMonths] is on and the ones of the current month when it is
    off. *)
Theorem resetFilters_leaves_month_filter (ts : list Transaction)
    (st : DataTools.FilterState) (now : Clock) :
  DataTools.apply_filters ts (DataTools.resetFilters st) now
  = month_or_all ts (DataTools.showAllMonths st) now
  /\ DataTools.filteredTransactions ts (DataTools.resetFilters st) now
     = Array_sort
         (DataTools.comparefn (DataTools.sortField st)
            (DataTools.sortOrder st))
         (month_or_all ts (DataTools.showAllMonths st) now)
  /\ DataTools.resetFilters (DataTools.resetFilters st)
     = DataTools.resetFilters st.
Proof.
  assert (H : DataTools.apply_filters ts (DataTools.resetFilters st) now
              = month_or_all ts (DataTools.showAllMonths st) now).
  { unfold DataTools.apply_filters, DataTools.resetFilters, month_or_all.
    cbn [DataTools.showAllMonths DataTools.startDate DataTools.endDate
         DataTools.minAmount DataTools.maxAmount DataTools.searchQuery
         DataTools.typeFilter truthy negb andb].
    change (String.eqb "all" "all") with true.
    destruct (DataTools.showAllMonths st); reflexivity. }
  split; [exact H|]. split; [|reflexivity].
  unfold DataTools.filteredTransactions. rewrite H. reflexivity.
Qed.

(** X12. Once a start date or an end date is filled in, the month filter is
    off: the page shows the same rows whatever [showAllMonths] is and
    whatever the clock reads. *)
Theorem date_range_turns_month_filter_off (ts : list Transaction)
    (st : DataTools.FilterState) (now now' : Clock) (b : bool) :
  DataTools.startDate st <> "" \/ DataTools.endDate st <> "" ->
  DataTools.filteredTransactions ts st now
  = DataTools.filteredTransactions ts (with_show_all st b) now'.
Proof.
  intro H. unfold DataTools.filteredTransactions, DataTools.apply_filters,
    with_show_all.
  cbn [DataTools.showAllMonths DataTools.startDate DataTools.endDate
       DataTools.minAmount DataTools.maxAmount DataTools.searchQuery
       DataTools.typeFilter DataTools.sortField DataTools.sortOrder].
  replace (negb (DataTools.showAllMonths st)
           && negb (truthy (DataTools.startDate st))
           && negb (truthy (DataTools.endDate st))) with false.
  2:{ destruct H as [H | H]; apply truthy_iff in H; rewrite H;
      cbn; rewrite ?andb_false_r; reflexivity. }
  replace (negb b && negb (truthy (DataTools.startDate st))
           && negb (truthy (DataTools.endDate st))) with false.
  2:{ destruct H as [H | H]; apply truthy_iff in H; rewrite H;
      cbn; rewrite ?andb_false_r; reflexivity. }
  reflexivity.
Qed.

(** X13. A bound of the amount range that is filled in but is not a number,
    or a type filter that is neither all nor a type of transaction, hides
    every row. *)
Theorem unreadable_filter_hides_all (ts : list Transaction)
    (st : DataTools.FilterState) (now : Clock) :
  unreadable (DataTools.minAmount st)
  \/ unreadable (DataTools.maxAmount st)
  \/ ~ In (DataTools.typeFilter st) ["all"; "income"; "expense"; "saved"] ->
  DataTools.filteredTransactions ts st now = [].
Proof.
  intro H. unfold DataTools.filteredTransactions.
  replace (DataTools.apply_filters ts st now) with (@nil Transaction);
    [reflexivity|].
  symmetry. unfold DataTools.apply_filters.
  destruct H as [[Hne Hnan] | [[Hne Hnan] | Hty]].
  - apply truthy_iff in Hne. rewrite Hne, Hnan.
    cbn [DataTools.filter_if ge_num].
    rewrite (filter_none (fun _ => false)) by reflexivity.
    rewrite !filter_if_nil. reflexivity.
  - apply truthy_iff in Hne. rewrite Hne, Hnan.
    cbn [DataTools.filter_if le_num].
    rewrite (filter_none (fun _ => false)) by reflexivity.
    rewrite !filter_if_nil. reflexivity.
  - replace (String.eqb (DataTools.typeFilter st) "all") with false.
    2:{ symmetry. apply String.eqb_neq. intro E. apply Hty. left. auto. }
    cbn [negb DataTools.filter_if]. apply filter_none.
    intro t. apply String.eqb_neq. intro E. apply Hty. rewrite <- E.
    destruct (type t); cbn; auto.
Qed.

(** X14. [handleSort] never changes which rows are shown, only their order:
    on the field that is active it flips the order, so that two clicks
    give the state back, and on another field it selects that field in
    descending order. *)
Theorem handleSort_only_reorders (ts : list Transaction)
    (st : DataTools.FilterState) (now : Clock) (f : DataTools.SortField) :
  DataTools.apply_filters ts (DataTools.handleSort f st) now
  = DataTools.apply_filters ts st now
  /\ Permutation (DataTools.filteredTransactions ts (DataTools.handleSort f st) now)
       (DataTools.filteredTransactions ts st now)
  /\ (DataTools.sortField st = f ->
      DataTools.sortField (DataTools.handleSort f st) = f
      /\ DataTools.sortOrder (DataTools.handleSort f st)
         <> DataTools.sortOrder st
      /\ DataTools.handleSort f (DataTools.handleSort f st) = st)
  /\ (DataTools.sortField st <> f ->
      DataTools.sortField (DataTools.handleSort f st) = f
      /\ DataTools.sortOrder (DataTools.handleSort f st) = DataTools.desc).
Proof.
  assert (H : DataTools.apply_filters ts (DataTools.handleSort f st) now
              = DataTools.apply_filters ts st now).
  { unfold DataTools.handleSort.
    destruct (DataTools.SortField_eqb (DataTools.sortField st) f);
      reflexivity. }
  split; [exact H|]. split.
  { unfold DataTools.filteredTransactions. rewrite H.
    etransitivity; [apply Array_sort_perm|].
    symmetry. apply Array_sort_perm. }
  split.
  - intros <-. destruct st as [sf so sa sq sd ed mn mx tf].
    cbn [DataTools.sortField]. unfold DataTools.handleSort.
    cbn [DataTools.sortField DataTools.sortOrder].
    destruct sf, so; cbn; repeat split; discriminate.
  - intro Hne. unfold DataTools.handleSort.
    destruct (DataTools.sortField st), f; cbn; try tauto; congruence.
Qed.

(* ===================================================================== *)
(** * More about the insights *)
(* ===================================================================== *)

Lemma getDate_in_month (now : Clock) :
  1 <= getDate now <= days_in_month (getFullYear now) (getMonth now + 1).
Proof.
  unfold getDate, getFullYear, getMonth.
  pose proof (civil_calendar (local_ms now / msPerDay)) as H.
  destruct (civil (local_ms now / msPerDay)) as [[y m] d].
  replace (m - 1 + 1) with m by lia. tauto.
Qed.

Lemma total_of_nonneg (ty : TxType) (ts : list Transaction) :
  Forall (fun t => 0 < amount t)%Q ts -> (0 <= total_of ty ts)%Q.
Proof.
  intro H. rewrite <- total_of_sum_amount. apply sum_amount_nonneg.
  unfold of_type. apply Forall_filter_keep. exact H.
Qed.

Lemma Some_eq {A : Type} (a b : A) : Some a = Some b -> a = b.
Proof. congruence. Qed.

Lemma inject_Z_pos (z : Z) : 0 < z -> (0 < inject_Z z)%Q.
Proof. intro H. unfold Qlt. cbn. lia. Qed.

Lemma inject_Z_le (a b : Z) : a <= b -> (inject_Z a <= inject_Z b)%Q.
Proof. intro H. unfold Qle. cbn. lia. Qed.


Lemma spark_max_bounds (days : list DataTools.Day) :
  (1 <= DataTools.spark_max days)%Q
  /\ Forall (fun d => DataTools.day_amount d <= DataTools.spark_max days)%Q
       days
  /\ (DataTools.spark_max days = 1%Q
      \/ exists d, In d days
                   /\ DataTools.spark_max days = DataTools.day_amount d).
Proof.
  induction days as [|d days [IH1 [IH2 IH3]]].
  - cbn. split; [lra|]. split; [constructor | left; reflexivity].
  - cbn [DataTools.spark_max fold_right].
    fold (DataTools.spark_max days).
    destruct (Qle_bool (DataTools.spark_max days) (DataTools.day_amount d))
      eqn:E.
    + apply Qle_bool_iff in E. split; [lra|]. split.
      * constructor; [lra|]. eapply Forall_impl; [|exact IH2].
        cbn. intros; lra.
      * right. exists d. split; [left; reflexivity | reflexivity].
    + assert (Hlt : (DataTools.day_amount d < DataTools.spark_max days)%Q).
      { apply Qnot_le_lt. intro H. apply Qle_bool_iff in H. congruence. }
      split; [exact IH1|]. split.
      * constructor; [lra | exact IH2].
      * destruct IH3 as [H | [d' [Hin H]]]; [left; exact H|].
        right. exists d'. split; [right; exact Hin | exact H].
Qed.


(* ===================================================================== *)
(** * Tallies by first word *)
(* ===================================================================== *)

Lemma own_get_In (k : string) (v : Q) (m : NumberMap) :
  own_get k m = Some v -> In (k, v) m.
Proof.
  induction m as [|[k' v'] m IH]; cbn [own_get]; [discriminate|].
  destruct (String.eqb k k') eqn:E.
  - apply String.eqb_eq in E. intros [= <-]. left. congruence.
  - intro H. right. auto.
Qed.

Lemma In_own_get (k : string) (v : Q) (m : NumberMap) :
  NoDup (map fst m) -> In (k, v) m -> own_get k m = Some v.
Proof.
  induction m as [|[k' v'] m IH]; intros ND Hin; [destruct Hin|].
  inversion ND as [|? ? Hnew ND']; subst. cbn [own_get].
  destruct Hin as [[= -> ->] | Hin].
  - rewrite String.eqb_refl. reflexivity.
  - destruct (String.eqb k k') eqn:E; [|auto].
    apply String.eqb_eq in E. subst k'. exfalso. apply Hnew.
    apply in_map_iff. exists (k, v). auto.
Qed.

Lemma own_get_none (k : string) (m : NumberMap) :
  own_get k m = None <-> ~ In k (map fst m).
Proof.
  induction m as [|[k' v'] m IH]; cbn [own_get map fst In]; [tauto|].
  destruct (String.eqb k k') eqn:E.
  - apply String.eqb_eq in E. split; [discriminate|]. intro H. exfalso.
    apply H. left. congruence.
  - apply String.eqb_neq in E. rewrite IH. split.
    + intros H [H1 | H1]; [congruence | auto].
    + intros H H1. apply H. right. exact H1.
Qed.

Lemma own_set_keys (k : string) (v : Q) (m : NumberMap) :
  map fst (own_set k v m)
  = match own_get k m with
    | Some _ => map fst m
    | None => map fst m ++ [k]
    end.
Proof.
  induction m as [|[k' v'] m IH]; cbn [own_set own_get]; [reflexivity|].
  destruct (String.eqb k k') eqn:E; [reflexivity|].
  cbn [map fst]. rewrite IH. destruct (own_get k m); reflexivity.
Qed.

Lemma own_set_NoDup (k : string) (v : Q) (m : NumberMap) :
  NoDup (map fst m) -> NoDup (map fst (own_set k v m)).
Proof.
  intro ND. rewrite own_set_keys.
  destruct (own_get k m) eqn:E; [exact ND|].
  apply own_get_none in E.
  eapply Permutation_NoDup; [apply Permutation_cons_append|].
  constructor; assumption.
Qed.

Lemma own_get_set (k k' : string) (v : Q) (m : NumberMap) :
  own_get k' (own_set k v m)
  = if String.eqb k' k then Some v else own_get k' m.
Proof.
  induction m as [|[k0 v0] m IH]; cbn [own_set own_get].
  - destruct (String.eqb k' k); reflexivity.
  - destruct (String.eqb k k0) eqn:E; cbn [own_get].
    + apply String.eqb_eq in E. subst k0.
      destruct (String.eqb k' k); reflexivity.
    + rewrite IH. destruct (String.eqb k' k) eqn:E'; [|reflexivity].
      apply String.eqb_eq in E'. subst k'. rewrite E. reflexivity.
Qed.

Lemma tally_snoc (key : Transaction -> string) (weight : Transaction -> Q)
    (l : list Transaction) (t : Transaction) (k : string) :
  (tally key weight (l ++ [t]) k
   == tally key weight l k
      + (if String.eqb (key t) k then weight t else 0))%Q.
Proof.
  unfold tally. rewrite filter_app, map_app, Qsum_app. cbn [filter].
  destruct (String.eqb (key t) k); cbn; lra.
Qed.

Lemma filter_nothing {A : Type} (f : A -> bool) (l : list A) :
  (forall x, In x l -> f x = false) -> filter f l = [].
Proof.
  induction l as [|x l IH]; intro H; [reflexivity|].
  cbn [filter]. rewrite (H x (or_introl eq_refl)). apply IH.
  intros y Hy. apply H. right. exact Hy.
Qed.

Lemma fold_tally_none (key : Transaction -> string)
    (weight : Transaction -> Q) (l : list Transaction) :
  fold_left (tally_step key weight) l None = None.
Proof. induction l; [reflexivity | assumption]. Qed.

Section Tallies.
Variable key : Transaction -> string.
Variable weight : Transaction -> Q.

Lemma fold_tally (l : list Transaction) (m : NumberMap) :
  fold_left (tally_step key weight) l (Some []) = Some m ->
  tallied key weight l m.
Proof.
  revert m. induction l as [|t l IH] using rev_ind; intros m H.
  - cbn in H. injection H as <-. split; [constructor|].
    split; [intros k v; discriminate | intros t []].
  - rewrite fold_left_app in H. cbn [fold_left] in H.
    destruct (fold_left (tally_step key weight) l (Some [])) as [m0|];
      [|discriminate].
    destruct (IH m0 eq_refl) as [ND [Hval Hall]].
    unfold tally_step, add_to in H.
    destruct (inherited_name (key t)); [discriminate|].
    apply Some_eq in H. subst m.
    set (cur := match own_get (key t) m0 with
                | Some v => if Qeq_bool v 0 then 0%Q else v
                | None => 0%Q
                end).
    assert (Hcur : (cur == tally key weight l (key t))%Q).
    { unfold cur. destruct (own_get (key t) m0) as [v|] eqn:E.
      - destruct (Hval _ _ E) as [Hv _].
        destruct (Qeq_bool v 0) eqn:E0; [|exact Hv].
        apply Qeq_bool_iff in E0. rewrite <- Hv. symmetry. exact E0.
      - unfold tally. rewrite filter_nothing; [reflexivity|].
        intros t' Hin.
        destruct (String.eqb (key t') (key t)) eqn:E'; [|reflexivity].
        apply String.eqb_eq in E'. exfalso. apply (Hall t' Hin).
        rewrite E'. exact E. }
    split; [apply own_set_NoDup; exact ND|]. split.
    + intros k v Hget. rewrite own_get_set in Hget.
      rewrite tally_snoc. rewrite String.eqb_sym.
      destruct (String.eqb k (key t)) eqn:E.
      * apply String.eqb_eq in E. subst k. apply Some_eq in Hget.
        subst v. split; [rewrite Hcur; reflexivity|].
        exists t. split; [apply in_or_app; right; left|]; reflexivity.
      * destruct (Hval _ _ Hget) as [Hv [t' [Hin Hk]]].
        split; [rewrite Hv; lra|].
        exists t'. split; [apply in_or_app; left; exact Hin | exact Hk].
    + intros t' Hin. rewrite own_get_set.
      destruct (String.eqb (key t') (key t)) eqn:E; [discriminate|].
      apply in_app_or in Hin. destruct Hin as [Hin | [<- | []]].
      * apply Hall. exact Hin.
      * rewrite String.eqb_refl in E. discriminate.
Qed.

(** The loop gives up exactly when some key is an inherited name. *)
Lemma fold_tally_fails (l : list Transaction) (m0 : NumberMap) :
  fold_left (tally_step key weight) l (Some m0) = None
  <-> exists t, In t l /\ inherited_name (key t) = true.
Proof.
  revert m0. induction l as [|t l IH]; intro m0; cbn [fold_left].
  - split; [discriminate | intros [t [[] _]]].
  - unfold tally_step at 2. unfold add_to.
    destruct (inherited_name (key t)) eqn:E.
    + rewrite fold_tally_none. split; [|reflexivity]. intros _.
      exists t. split; [left; reflexivity | exact E].
    + rewrite IH. split.
      * intros [t' [Hin Ht']]. exists t'. split; [right|]; assumption.
      * intros [t' [[<- | Hin] Ht']]; [congruence|].
        exists t'. split; assumption.
Qed.
End Tallies.

Lemma split_by_test {A : Type} (f : A -> bool) (l : list A) :
  Permutation (filter f l ++ filter (fun x => negb (f x)) l) l.
Proof.
  induction l as [|x l IH]; [constructor|].
  cbn [filter]. destruct (f x); cbn [negb app].
  - constructor. exact IH.
  - etransitivity; [symmetry; apply Permutation_middle|].
    constructor. exact IH.
Qed.

Lemma Object_entries_perm (m : NumberMap) :
  Permutation (Object_entries m) m.
Proof.
  unfold Object_entries.
  etransitivity; [|apply (split_by_test is_array_index)].
  apply Permutation_app_tail. apply Array_sort_perm.
Qed.

Lemma Qcompare_not_Gt (x y : Q) : (x ?= y)%Q <> Gt <-> (x <= y)%Q.
Proof.
  split.
  - intro H. apply Qnot_lt_le. intro H'. apply H. apply Qgt_alt. exact H'.
  - intros H H'. apply Qgt_alt in H'. lra.
Qed.

(** Descending and ascending order of a rational measure. *)
Lemma desc_by_consistent {A : Type} (f : A -> Q) :
  consistent (fun a b => Fin (f b - f a)) (fun _ => True).
Proof.
  split.
  - intros a b _ _. rewrite !sgn_Fin_sub. symmetry. apply Qcompare_antisym.
  - intros a b c _ _ _. unfold cmp_le. rewrite !sgn_Fin_sub.
    rewrite !Qcompare_not_Gt. intros; lra.
Qed.

Lemma asc_by_consistent {A : Type} (f : A -> Q) :
  consistent (fun a b => Fin (f a - f b)) (fun _ => True).
Proof.
  split.
  - intros a b _ _. rewrite !sgn_Fin_sub. symmetry. apply Qcompare_antisym.
  - intros a b c _ _ _. unfold cmp_le. rewrite !sgn_Fin_sub.
    rewrite !Qcompare_not_Gt. intros; lra.
Qed.

Lemma by_value_desc_le (a b : string * Q) :
  cmp_le by_value_desc a b -> (snd b <= snd a)%Q.
Proof.
  unfold cmp_le, by_value_desc. rewrite sgn_Fin_sub.
  apply Qcompare_not_Gt.
Qed.

Lemma firstn_members {A : Type} (n : nat) (l : list A) (x : A) :
  In x (firstn n l) -> In x l.
Proof.
  intro H. rewrite <- (firstn_skipn n l). apply in_or_app. left. exact H.
Qed.

Lemma firstn_sorted {A : Type} (R : A -> A -> Prop) (n : nat) (l : list A) :
  StronglySorted R l ->
  StronglySorted R (firstn n l)
  /\ (forall x y, In x (firstn n l) -> In y (skipn n l) -> R x y).
Proof.
  revert l. induction n as [|n IH]; intros l H.
  - cbn. split; [constructor | intros x y []].
  - destruct l as [|a l]; [cbn; split; [constructor | intros x y []]|].
    apply StronglySorted_inv in H. destruct H as [Hs Ha].
    destruct (IH l Hs) as [IH1 IH2]. cbn [firstn skipn]. split.
    + constructor; [exact IH1|].
      rewrite Forall_forall in *. intros x Hx. apply Ha.
      eapply firstn_members. exact Hx.
    + intros x y [<- | Hx] Hy.
      * rewrite Forall_forall in Ha. apply Ha.
        rewrite <- (firstn_skipn n l). apply in_or_app. right. exact Hy.
      * apply IH2; assumption.
Qed.

Lemma firstn_short {A : Type} (n : nat) (l : list A) :
  (List.length (firstn n l) < n)%nat -> firstn n l = l.
Proof.
  intro H. apply firstn_all2. rewrite length_firstn in H. lia.
Qed.

(** The first [n] entries of a map that holds the tallies of [l], taken in
    descending order of value, are the [n] largest tallies. *)
Lemma top_of_tallied (key : Transaction -> string)
    (weight : Transaction -> Q) (n : nat) (l : list Transaction)
    (m : NumberMap) :
  tallied key weight l m ->
  ranks key weight n l
    (firstn n (Array_sort by_value_desc (Object_entries m))).
Proof.
  intros [ND [Hval Hall]].
  set (sorted := Array_sort by_value_desc (Object_entries m)).
  assert (Hperm : Permutation sorted m).
  { unfold sorted. etransitivity; [apply Array_sort_perm|].
    apply Object_entries_perm. }
  assert (Hsorted : StronglySorted (fun a b => snd b <= snd a)%Q sorted).
  { apply StronglySorted_weaken
      with (P := fun _ => True) (R := cmp_le by_value_desc).
    - apply Forall_forall. intros; exact I.
    - intros a b _ _. apply by_value_desc_le.
    - unfold sorted.
      apply (Array_sort_sorted by_value_desc (fun _ => True)
               (desc_by_consistent snd)).
      apply Forall_forall. intros; exact I. }
  assert (NDs : NoDup (map fst sorted)).
  { eapply Permutation_NoDup; [|exact ND].
    apply Permutation_map. symmetry. exact Hperm. }
  destruct (firstn_sorted _ n sorted Hsorted) as [Hs1 Hs2].
  split.
  - apply firstn_le_length.
  - rewrite <- (firstn_skipn n sorted) in NDs. rewrite map_app in NDs.
    apply NoDup_app_remove_r in NDs. exact NDs.
  - exact Hs1.
  - intros k v Hin. apply Hval. apply In_own_get; [exact ND|].
    eapply Permutation_in; [exact Hperm|].
    eapply firstn_members. exact Hin.
  - intros t Ht.
    destruct (own_get (key t) m) as [v|] eqn:E; [|exfalso; eapply Hall; eauto].
    destruct (Hval _ _ E) as [Hv _].
    assert (Hin : In (key t, v) sorted).
    { eapply Permutation_in; [symmetry; exact Hperm|].
      apply own_get_In. exact E. }
    rewrite <- (firstn_skipn n sorted) in Hin. apply in_app_or in Hin.
    destruct Hin as [Hin | Hin].
    + left. apply in_map_iff. exists (key t, v). auto.
    + right. split.
      * destruct (Nat.lt_ge_cases (List.length (firstn n sorted)) n)
          as [Hlt | Hge].
        -- exfalso. pose proof (firstn_short _ _ Hlt) as Hall'.
           pose proof (firstn_skipn n sorted) as Hfs.
           rewrite Hall' in Hfs.
           assert (Hnil : skipn n sorted = []).
           { apply (f_equal (@List.length _)) in Hfs.
             rewrite length_app in Hfs.
             destruct (skipn n sorted); [reflexivity | cbn in Hfs; lia]. }
           rewrite Hnil in Hin. destruct Hin.
        -- pose proof (firstn_le_length n sorted). lia.
      * intros e He. specialize (Hs2 e (key t, v) He Hin).
        cbn [snd] in Hs2. rewrite <- Hv. exact Hs2.
Qed.



(* ===================================================================== *)
(** * More about the older data tools page *)
(* ===================================================================== *)

Lemma filter_head {A : Type} (f : A -> bool) (l : list A) (x : A)
    (rest : list A) :
  filter f l = x :: rest ->
  exists before after,
    l = before ++ x :: after /\ Forall (fun u => f u = false) before.
Proof.
  induction l as [|a l IH]; cbn [filter]; [discriminate|].
  destruct (f a) eqn:E.
  - intros [= -> <-]. exists [], l. split; [reflexivity | constructor].
  - intro H. destruct (IH H) as [before [after [-> Hb]]].
    exists (a :: before), after. split; [reflexivity|].
    constructor; assumption.
Qed.

(** The head of a sorted array comes first among the elements that compare
    equal to it, and no element comes before it in the order. *)
Lemma sorted_head {A : Type} (cmp : A -> A -> number) (l : list A)
    (x : A) (rest : list A) :
  consistent cmp (fun _ => True) ->
  Array_sort cmp l = x :: rest ->
  exists before after,
    l = before ++ x :: after
    /\ Forall (fun u => cmp_le cmp x u /\ tie cmp x u = false) before
    /\ Forall (fun u => cmp_le cmp x u) after.
Proof.
  intros Hc Hs.
  assert (Hall : Forall (fun _ : A => True) l)
    by (apply Forall_forall; intros; exact I).
  pose proof (Array_sort_sorted cmp _ Hc l Hall) as Hsorted.
  pose proof (Array_sort_stable cmp _ Hc x l I Hall) as Hstable.
  pose proof (Array_sort_perm cmp l) as Hperm.
  rewrite Hs in *.
  assert (Hxx : tie cmp x x = true).
  { unfold tie. pose proof (cmp_antisym _ _ Hc x x I I) as H.
    destruct (sgn (cmp x x)); cbn in H; congruence. }
  cbn [filter] in Hstable. rewrite Hxx in Hstable.
  symmetry in Hstable. apply filter_head in Hstable.
  destruct Hstable as [before [after [-> Hb]]].
  apply StronglySorted_inv in Hsorted. destruct Hsorted as [_ Hle].
  assert (Hle' : forall u, In u (before ++ x :: after) -> cmp_le cmp x u).
  { intros u Hu. apply (Permutation_in _ (Permutation_sym Hperm)) in Hu.
    destruct Hu as [<- | Hu].
    - unfold cmp_le. unfold tie in Hxx.
      destruct (sgn (cmp x x)); congruence.
    - rewrite Forall_forall in Hle. apply Hle. exact Hu. }
  exists before, after. split; [reflexivity|]. split.
  - rewrite Forall_forall in *. intros u Hu. split.
    + apply Hle'. apply in_or_app. left. exact Hu.
    + apply Hb. exact Hu.
  - rewrite Forall_forall. intros u Hu. apply Hle'.
    apply in_or_app. right. right. exact Hu.
Qed.


Lemma signed_value_sign (t : Transaction) :
  (0 < amount t)%Q ->
  if TxType_eqb (type t) income
  then (0 < DataToolsV1.signed_value t)%Q
  else (DataToolsV1.signed_value t < 0)%Q.
Proof.
  unfold DataToolsV1.signed_value. destruct (TxType_eqb (type t) income); lra.
Qed.

(** X20. The table of the older page holds the transactions of the current
    month, or all of them with [showAllMonths] on, each as often as the
    list does. Sorted by amount it is in the order of the signed amounts,
    income counting as positive and everything else as negative: with
    positive amounts, ascending order puts every expense and saving before
    every income, and descending order every income first. *)
Theorem older_table_sorts_signed_amounts (ts : list Transaction)
    (st : DataToolsV1.ViewState) (now : Clock) :
  let shown := DataToolsV1.sortedAndFilteredTransactions ts st now in
  Permutation shown
    (month_or_all ts (DataToolsV1.showAllMonths st) now)
  /\ (DataToolsV1.sortField st = DataTools.by_amount ->
      (DataToolsV1.sortOrder st = DataTools.asc ->
       StronglySorted
         (fun a b => DataToolsV1.signed_value a <= DataToolsV1.signed_value b)%Q
         shown
       /\ (Forall (fun t => 0 < amount t)%Q ts ->
           StronglySorted income_last shown))
      /\ (DataToolsV1.sortOrder st = DataTools.desc ->
          StronglySorted
            (fun a b => DataToolsV1.signed_value b <= DataToolsV1.signed_value a)%Q
            shown
          /\ (Forall (fun t => 0 < amount t)%Q ts ->
              StronglySorted (fun a b => income_last b a) shown))).
Proof.
  cbv zeta. unfold DataToolsV1.sortedAndFilteredTransactions.
  set (pool := if negb (DataToolsV1.showAllMonths st)
               then filter (in_current_month now) ts else ts).
  assert (Hpool : pool = month_or_all ts (DataToolsV1.showAllMonths st) now).
  { unfold pool, month_or_all. destruct (DataToolsV1.showAllMonths st);
      reflexivity. }
  assert (Hall : Forall (fun _ : Transaction => True) pool)
    by (apply Forall_forall; intros; exact I).
  split; [rewrite <- Hpool; apply Array_sort_perm|].
  intros ->.
  assert (Hpos : Forall (fun t => 0 < amount t)%Q ts ->
                 forall o,
                   Forall (fun t => 0 < amount t)%Q
                     (Array_sort (DataToolsV1.comparefn DataTools.by_amount o)
                        pool)).
  { intros H o. apply Array_sort_Forall. rewrite Hpool. unfold month_or_all.
    destruct (DataToolsV1.showAllMonths st);
      [exact H | apply Forall_filter_keep; exact H]. }
  split; intros ->.
  - assert (Hs : StronglySorted
              (fun a b => DataToolsV1.signed_value a
                          <= DataToolsV1.signed_value b)%Q
              (Array_sort
                 (DataToolsV1.comparefn DataTools.by_amount DataTools.asc)
                 pool)).
    { apply StronglySorted_weaken
        with (P := fun _ => True)
             (R := cmp_le (DataToolsV1.comparefn DataTools.by_amount
                             DataTools.asc)).
      - apply Forall_forall. intros; exact I.
      - intros a b _ _. unfold cmp_le. cbn [DataToolsV1.comparefn
          DataToolsV1.comparison]. rewrite sgn_Fin_sub.
        apply Qcompare_not_Gt.
      - apply (Array_sort_sorted _ (fun _ => True)
                 (asc_by_consistent DataToolsV1.signed_value)).
        exact Hall. }
    split; [exact Hs|]. intro H.
    eapply StronglySorted_weaken
      with (P := fun t => (0 < amount t)%Q); [apply Hpos; exact H | | exact Hs].
    intros a b Ha Hb Hle. cbv beta in Hle. unfold income_last. intro Eta.
    pose proof (signed_value_sign a Ha) as Sa.
    pose proof (signed_value_sign b Hb) as Sb.
    rewrite Eta in Sa. cbn [TxType_eqb] in Sa.
    destruct (type b); cbn [TxType_eqb] in Sb; [reflexivity | lra | lra].
  - assert (Hs : StronglySorted
              (fun a b => DataToolsV1.signed_value b
                          <= DataToolsV1.signed_value a)%Q
              (Array_sort
                 (DataToolsV1.comparefn DataTools.by_amount DataTools.desc)
                 pool)).
    { apply StronglySorted_weaken
        with (P := fun _ => True)
             (R := cmp_le (DataToolsV1.comparefn DataTools.by_amount
                             DataTools.desc)).
      - apply Forall_forall. intros; exact I.
      - intros a b _ _. unfold cmp_le. cbn [DataToolsV1.comparefn
          DataToolsV1.comparison num_neg]. unfold sgn.
        rewrite Qcompare_opp_0.
        change ((DataToolsV1.signed_value a - DataToolsV1.signed_value b ?= 0)%Q)
          with (sgn (Fin (DataToolsV1.signed_value a
                          - DataToolsV1.signed_value b))).
        rewrite sgn_Fin_sub. intro H.
        destruct (DataToolsV1.signed_value a ?= DataToolsV1.signed_value b)%Q
          eqn:Ec; cbn in H; try congruence.
        + apply Qeq_alt in Ec. lra.
        + apply Qgt_alt in Ec. lra.
      - apply (Array_sort_sorted _ (fun _ => True)
                 (consistent_neg _ _
                    (asc_by_consistent DataToolsV1.signed_value))).
        exact Hall. }
    split; [exact Hs|]. intro H.
    eapply StronglySorted_weaken
      with (P := fun t => (0 < amount t)%Q); [apply Hpos; exact H | | exact Hs].
    intros a b Ha Hb Hle. cbv beta in Hle. unfold income_last. intro Etb.
    pose proof (signed_value_sign a Ha) as Sa.
    pose proof (signed_value_sign b Hb) as Sb.
    rewrite Etb in Sb. cbn [TxType_eqb] in Sb.
    destruct (type a); cbn [TxType_eqb] in Sa; [reflexivity | lra | lra].
Qed.


(* ===================================================================== *)
(** * The settings file of the migration script *)
(* ===================================================================== *)

Lemma split_on_clean (c : ascii) (s : string) :
  no_char c s = true -> split_on c s = [s].
Proof.
  induction s as [|x r IH]; [reflexivity|].
  cbn [no_char split_on]. intro H. apply andb_true_iff in H.
  destruct H as [Hx Hr]. apply negb_true_iff in Hx. rewrite Hx.
  rewrite (IH Hr). reflexivity.
Qed.

Lemma split_on_app (c : ascii) (a b : string) :
  no_char c a = true ->
  split_on c (a ++ String c b)%string = a :: split_on c b.
Proof.
  induction a as [|x r IH]; cbn [no_char append split_on].
  - intros _. rewrite Ascii.eqb_refl. reflexivity.
  - intro H. apply andb_true_iff in H.
    destruct H as [Hx Hr]. apply negb_true_iff in Hx. rewrite Hx.
    rewrite (IH Hr). reflexivity.
Qed.

Lemma no_char_app (c : ascii) (a b : string) :
  no_char c (a ++ b)%string = no_char c a && no_char c b.
Proof.
  induction a as [|x r IH]; [reflexivity|].
  cbn [append no_char]. rewrite IH. apply andb_assoc.
Qed.

Lemma split_lines (lines : list string) :
  lines <> [] ->
  Forall (fun l => no_char line_feed l = true) lines ->
  split_on line_feed (join (String line_feed "") lines) = lines.
Proof.
  unfold join. induction lines as [|l lines IH]; [congruence|].
  intros _ H. inversion H as [|? ? Hl Hrest]; subst.
  destruct lines as [|l' lines].
  - cbn [concat]. apply split_on_clean. exact Hl.
  - change (concat (String line_feed "") (l :: l' :: lines))
      with (l ++ String line_feed (concat (String line_feed "") (l' :: lines)))%string.
    rewrite split_on_app by exact Hl. f_equal.
    apply IH; [discriminate | exact Hrest].
Qed.

Lemma store_new (k v : string) (env : Migrate.Env) :
  ~ In k (map fst env) -> Migrate.store k v env = env ++ [(k, v)].
Proof.
  induction env as [|[k' v'] env IH]; intro H; [reflexivity|].
  cbn [Migrate.store].
  destruct (String.eqb k k') eqn:E.
  - apply String.eqb_eq in E. exfalso. apply H. left. cbn. congruence.
  - cbn [app]. f_equal. apply IH. intro Hin. apply H. right. exact Hin.
Qed.

Lemma read_line_well_formed (env : Migrate.Env) (e : Setting) :
  well_formed e ->
  Migrate.env_line env (line_of e)
  = Migrate.store (trim (name_text e)) (trim (value_text e)) env.
Proof.
  intros [Hk [Hv [Hke [Hve [_ [_ [_ [Hrest Hproto]]]]]]]].
  unfold Migrate.env_line, line_of.
  change ("=" ++ value_text e ++ line_rest e)%string
    with (String "=" (value_text e ++ line_rest e)%string).
  rewrite split_on_app by exact Hke.
  assert (Hsplit : exists more,
            split_on "=" (value_text e ++ line_rest e)%string
            = value_text e :: more).
  { destruct Hrest as [-> | [r ->]].
    - exists []. rewrite append_empty_r. apply split_on_clean. exact Hve.
    - eexists. apply split_on_app. exact Hve. }
  destruct Hsplit as [more ->].
  apply truthy_iff in Hk. apply truthy_iff in Hv. rewrite Hk, Hv.
  cbn [andb]. unfold Migrate.assign.
  apply String.eqb_neq in Hproto. rewrite Hproto. reflexivity.
Qed.

Lemma read_lines_well_formed (entries : list Setting) (env : Migrate.Env) :
  Forall well_formed entries ->
  NoDup (map fst env ++ map (fun e => trim (name_text e)) entries) ->
  fold_left Migrate.env_line (map line_of entries) env
  = env ++ map kept entries.
Proof.
  revert env. induction entries as [|e entries IH]; intros env Hwf ND.
  - cbn. rewrite app_nil_r. reflexivity.
  - inversion Hwf as [|? ? He Hrest]; subst.
    cbn [map fold_left]. rewrite (read_line_well_formed env e He).
    cbn [map] in ND.
    assert (Hnew : ~ In (trim (name_text e)) (map fst env)).
    { apply NoDup_remove_2 in ND. intro H. apply ND.
      apply in_or_app. left. exact H. }
    rewrite store_new by exact Hnew.
    rewrite IH; [|exact Hrest|].
    + rewrite <- app_assoc. reflexivity.
    + rewrite map_app. cbn [map fst]. rewrite <- app_assoc. exact ND.
Qed.


(* ===================================================================== *)
(** * The further theorems on sample data *)
(* ===================================================================== *)


Lemma ids_stay_fresh_sample :
  ids_fresh sample_world
  /\ ids_fresh (fst (Route.POST sample_body sample_world)).
Proof.
  assert (H : ids_fresh sample_world).
  { split.
    - constructor; [intros [] | constructor].
    - constructor; [cbn; lia | constructor]. }
  split; [exact H|].
  exact (proj1 (ids_stay_fresh sample_world H) sample_body).
Defined.

Lemma rows_stay_as_checked_sample :
  Forall stored_by_route (Route.rows sample_world)
  /\ Forall stored_by_route
       (Route.rows (fst (Route.POST sample_body sample_world))).
Proof.
  assert (H : Forall stored_by_route (Route.rows sample_world)).
  { constructor; [|constructor].
    unfold stored_by_route. cbn.
    repeat split; try reflexivity; try discriminate. left. reflexivity. }
  split; [exact H|].
  exact (proj1 (rows_stay_as_checked sample_world H) sample_body).
Defined.

Lemma handleDelete_removes_that_id_sample :
  db_works sample_world
  /\ Route.rows (fst (Home.handleDelete 1 sample_world)) = [].
Proof.
  assert (H : db_works sample_world) by (intro st; reflexivity).
  split; [exact H|].
  pose proof (handleDelete_removes_that_id sample_world 1 H) as Hd.
  cbv zeta in Hd. destruct Hd as [_ [Hr _]]. rewrite Hr. reflexivity.
Defined.

Lemma POST_then_handleDelete_sample :
  db_works sample_world
  /\ ids_fresh sample_world
  /\ Route.payload (snd (Route.POST sample_body sample_world))
     = Route.CreatedBody 2 "Transaction added"
  /\ Route.rows
       (fst (Home.handleDelete 2 (fst (Route.POST sample_body sample_world))))
     = Route.rows sample_world.
Proof.
  assert (H : db_works sample_world) by (intro st; reflexivity).
  assert (Hf : ids_fresh sample_world).
  { split.
    - constructor; [intros [] | constructor].
    - constructor; [cbn; lia | constructor]. }
  assert (Hp : Route.payload (snd (Route.POST sample_body sample_world))
               = Route.CreatedBody 2 "Transaction added")
    by (vm_compute; reflexivity).
  split; [exact H|]. split; [exact Hf|]. split; [exact Hp|].
  exact (proj1 (POST_then_handleDelete sample_world sample_body 2
                  "Transaction added" H Hf Hp)).
Defined.




Lemma date_range_turns_month_filter_off_sample :
  (DataTools.startDate sample_range <> ""
   \/ DataTools.endDate sample_range <> "")
  /\ DataTools.filteredTransactions sample_transactions sample_range
       sample_clock
     = DataTools.filteredTransactions sample_transactions
         (with_show_all sample_range true) clock_between_months.
Proof.
  assert (H : DataTools.startDate sample_range <> ""
              \/ DataTools.endDate sample_range <> "")
    by (left; discriminate).
  exact (conj H
           (date_range_turns_month_filter_off sample_transactions
              sample_range sample_clock clock_between_months true H)).
Defined.

Lemma unreadable_filter_hides_all_sample :
  unreadable (DataTools.minAmount sample_unreadable)
  /\ DataTools.filteredTransactions sample_transactions sample_unreadable
       sample_clock = [].
Proof.
  assert (H : unreadable (DataTools.minAmount sample_unreadable))
    by (split; [discriminate | reflexivity]).
  exact (conj H
           (unreadable_filter_hides_all sample_transactions
              sample_unreadable sample_clock (or_introl H))).
Defined.





